(** * jsondb.cloud MCP bridge: a shallow embedding of the tool handlers

    The development follows the TypeScript sources of the bridge:
    - [tools/_helpers.ts]: [success], [error], [resolveEnv], [apiFetch];
    - [tools/collections.ts]: [buildFilterObject] and the collection tools;
    - [tools/documents.ts], [tools/schemas.ts], [tools/versions.ts],
      [tools/webhooks.ts], [tools/vectors.ts]: the remaining tool handlers;
    - [index.ts]: [main] and the HTTP listener;
    - [resources/collections.ts]: the two resources.

    JavaScript values are a first-order datatype, [JSON.stringify (v, null, 2)]
    and [JSON.parse] are functions on strings, the remote API and the SDK
    client are oracles, and every handler returns the calls it issued next
    to its response. *)

From Stdlib Require Import ZArith Ascii String List Bool Lia Decimal DecimalString
  DecimalPos DecimalZ DecimalFacts.
From stdpp Require Import base option list strings gmap.

Local Open Scope Z_scope.

(** ** Numbers *)

(** A Number: [NaN], an infinity, a zero, or the finite double nearest to
    [m * 10 ^ e], with its sign apart.  A double is held by the digits that
    [Number::toString] prints for it: [m] is its shortest decimal
    significand and has no trailing zero, except that an integer below
    [10 ^ 21], which prints in full, is held as [Finite _ m 0]. *)
Inductive number : Type :=
| NaN
| Infinity (negative : bool)
| Zero (negative : bool)
| Finite (negative : bool) (m : positive) (e : Z).

(** The Number of an integer that a double holds exactly, as every integer
    of at most [2 ^ 53] in size is. *)
Definition of_Z (n : Z) : number :=
  match n with
  | Z0 => Zero false
  | Zpos p => Finite false p 0
  | Zneg p => Finite true p 0
  end.

Coercion of_Z : Z >-> number.

(** [Number::equal], the [===] of two Numbers. *)
Definition Number_equal (x y : number) : bool :=
  match x, y with
  | Zero _, Zero _ => true
  | Infinity a, Infinity b => Bool.eqb a b
  | Finite a m e, Finite b m' e' => Bool.eqb a b && Pos.eqb m m' && Z.eqb e e'
  | _, _ => false
  end.

(** [a / b] as a multiple of [base ^ E]: numerator and denominator of
    [a / (b * base ^ E)]. *)
Definition scaled (base a b E : Z) : Z * Z :=
  if 0 <=? E then (a, b * base ^ E) else (a * base ^ (- E), b).

(** The positive rational [a / b] rounded to the nearest binary64, ties to
    even: [Some (M, E)] for [M * 2 ^ E] with [2^52 <= M < 2^53], or with
    [M < 2^52] and [E = -1074] (a subnormal, or zero); [None] past the
    largest finite number. *)
Definition binary64 (a b : Z) : option (Z * Z) :=
  let E0 := Z.log2 a - Z.log2 b - 52 in
  let E1 := if (scaled 2 a b E0).1 / (scaled 2 a b E0).2 <? 2 ^ 52 then E0 - 1 else E0 in
  let E := Z.max E1 (-1074) in
  let '(n, d) := scaled 2 a b E in
  let q := n / d in
  let r := n mod d in
  let M :=
    if 2 * r <? d then q
    else if 2 * r =? d then (if Z.even q then q else q + 1)
    else q + 1 in
  let '(M, E) := if M =? 2 ^ 53 then (2 ^ 52, E + 1) else (M, E) in
  if 971 <? E then None else Some (M, E).

(** [10 ^ n <= a / b]. *)
Definition at_least_pow10 (a b n : Z) : bool :=
  let '(x, y) := scaled 10 a b n in y <=? x.

(** The [n] with [10 ^ (n - 1) <= a / b < 10 ^ n], found next to the
    estimate that the binary logarithm gives. *)
Definition decimal_position (a b : Z) : Z :=
  let est := (Z.log2 a - Z.log2 b) * 30103 / 100000 in
  if at_least_pow10 a b (est + 2) then est + 3
  else if at_least_pow10 a b (est + 1) then est + 2
  else if at_least_pow10 a b est then est + 1
  else if at_least_pow10 a b (est - 1) then est
  else est - 1.

Fixpoint strip_zeros (fuel : nat) (m : positive) (e : Z) : positive * Z :=
  match fuel with
  | O => (m, e)
  | S fuel =>
      match Z.pos m mod 10, Z.pos m / 10 with
      | 0, Zpos q => strip_zeros fuel q (e + 1)
      | _, _ => (m, e)
      end
  end.

(** The form a finite number is held in. *)
Definition canonical (m : positive) (e : Z) : positive * Z :=
  let '(s, e') := strip_zeros (Pos.size_nat m) m e in
  if (0 <=? e') && (Z.pos s * 10 ^ e' <? 10 ^ 21)
  then (Z.to_pos (Z.pos s * 10 ^ e'), 0)
  else (s, e').

(** The shortest decimal [s * 10 ^ p] that [binary64] rounds to
    [M * 2 ^ E], and of those of that length the closest to it: the digits
    and exponent of [Number::toString], step 5. *)
Definition shortest (M E : Z) : positive * Z :=
  let '(a, b) := scaled 2 M 1 (- E) in
  let n := decimal_position a b in
  (fix go (fuel : nat) (k : Z) : positive * Z :=
     let p := n - k in
     let '(x, y) := scaled 10 a b p in
     let lo := x / y in
     let hi := lo + 1 in
     let reads (s : Z) :=
       let '(c, d) := scaled 10 s 1 (- p) in
       match binary64 c d with
       | Some (M', E') => (M' =? M) && (E' =? E)
       | None => false
       end in
     let nearest :=
       if 2 * (x mod y) <? y then lo
       else if 2 * (x mod y) =? y then (if Z.even lo then lo else hi)
       else hi in
     match fuel with
     | O => (Z.to_pos nearest, p)
     | S fuel =>
         match reads lo, reads hi with
         | true, true => (Z.to_pos nearest, p)
         | true, false => (Z.to_pos lo, p)
         | false, true => (Z.to_pos hi, p)
         | false, false => go fuel (k + 1)
         end
     end) 16%nat 1.

(** The Number that the decimal [m * 10 ^ e] denotes: the nearest
    binary64, in the form it is held in.  An integer of at most [2 ^ 53]
    is a double. *)
Definition to_double (negative : bool) (m : positive) (e : Z) : number :=
  if 400 <? e then Infinity negative
  else if e + Z.of_nat (nb_digits (Pos.to_uint m)) <? -400 then Zero negative
  else
    let '(a, b) := scaled 10 (Z.pos m) 1 (- e) in
    if (b =? 1) && (a <=? 2 ^ 53) then Finite negative (Z.to_pos a) 0
    else
      match binary64 a b with
      | None => Infinity negative
      | Some (0, _) => Zero negative
      | Some (M, E) =>
          let '(s, p) := shortest M E in
          let '(s', p') := canonical s p in
          Finite negative s' p'
      end.

(** ** JavaScript values *)

(** The values the handlers move around: what [JSON.parse] produces, plus
    [undefined].  A string is the byte sequence of its UTF-8 text.  An
    object is the list of its own enumerable properties in the order they
    were defined (JavaScript lists integer-like keys first; the list does
    not reorder them). *)
#[local] Unset Elimination Schemes.
Inductive jsval : Type :=
| JUndef
| JNull
| JBool (b : bool)
| JNum (x : number)
| JStr (s : string)
| JArr (elts : list jsval)
| JObj (props : list (string * jsval)).
#[local] Set Elimination Schemes.

Definition dquote : ascii := "034"%char.
Definition backslash : ascii := "092"%char.
Definition newline : ascii := "010"%char.
Definition nl : string := String newline EmptyString.

(** [ToBoolean]. *)
Definition truthy (v : jsval) : bool :=
  match v with
  | JUndef | JNull => false
  | JBool b => b
  | JNum (NaN | Zero _) => false
  | JNum _ => true
  | JStr s => negb (String.eqb s "")
  | JArr _ | JObj _ => true
  end.

(** [a || b]. *)
Definition js_or (a b : jsval) : jsval := if truthy a then a else b.

(** [a ?? b]. *)
Definition js_nullish (a b : jsval) : jsval :=
  match a with JUndef | JNull => b | _ => a end.

(** Own property lookup in a property list. *)
Fixpoint obj_lookup (k : string) (ps : list (string * jsval)) : jsval :=
  match ps with
  | [] => JUndef
  | (k', v) :: r => if String.eqb k k' then v else obj_lookup k r
  end.

Fixpoint obj_has (k : string) (ps : list (string * jsval)) : bool :=
  match ps with
  | [] => false
  | (k', _) :: r => String.eqb k k' || obj_has k r
  end.

(** [CreateDataProperty]: an existing key keeps its place and takes the new
    value, a new key goes last. *)
Fixpoint obj_set (k : string) (v : jsval) (ps : list (string * jsval))
  : list (string * jsval) :=
  match ps with
  | [] => [(k, v)]
  | (k', v') :: r =>
      if String.eqb k k' then (k, v) :: r else (k', v') :: obj_set k v r
  end.

(** The property list of an object built by defining [kvs] in order. *)
Definition obj_of_entries (kvs : list (string * jsval)) : list (string * jsval) :=
  fold_left (fun acc kv => obj_set kv.1 kv.2 acc) kvs [].

(** Decimal digits of an integer. *)
Definition Z_to_string (n : Z) : string :=
  match n with
  | Z0 => "0"
  | Zpos p => NilEmpty.string_of_uint (Pos.to_uint p)
  | Zneg p => String "-" (NilEmpty.string_of_uint (Pos.to_uint p))
  end.

(** [Number::toString] in radix 10.  With [k] digits and [n = k + e] the
    position of the decimal point: the digits and [n - k] zeros when
    [k <= n <= 21]; the point after [n] digits when [0 < n <= 21]; [0.],
    [-n] zeros and the digits when [-6 < n <= 0]; otherwise the first
    digit, the others after a point, and the exponent [n - 1] with its
    sign. *)
Definition decimal_text (m : positive) (e : Z) : string :=
  let d := Pos.to_uint m in
  let k := Z.of_nat (nb_digits d) in
  let n := k + e in
  let text := NilEmpty.string_of_uint in
  if (k <=? n) && (n <=? 21) then
    text (Decimal.app d (Nat.iter (Z.to_nat (n - k)) D0 Nil))
  else if (0 <? n) && (n <=? 21) then
    text (del_tail (Z.to_nat (k - n)) d) +:+ "."
      +:+ text (del_head (Z.to_nat n) d)
  else if (-6 <? n) && (n <=? 0) then
    "0." +:+ text (Nat.iter (Z.to_nat (- n)) D0 d)
  else
    text (del_tail (Z.to_nat (k - 1)) d)
      +:+ (if k =? 1 then "" else "." +:+ text (del_head 1 d))
      +:+ "e" +:+ (if 0 <=? n - 1 then "+" else "-")
      +:+ Z_to_string (Z.abs (n - 1)).

Definition Number_toString (x : number) : string :=
  match x with
  | NaN => "NaN"
  | Infinity negative => if negative then "-Infinity" else "Infinity"
  | Zero _ => "0"
  | Finite negative m e => (if negative then "-" else "") +:+ decimal_text m e
  end.

Fixpoint join (sep : string) (l : list string) : string :=
  match l with
  | [] => ""
  | [x] => x
  | x :: r => x +:+ sep +:+ join sep r
  end.

(** ** JSON.stringify (value, null, 2) *)

Definition hex_digit (n : nat) : ascii :=
  match n with
  | 0 => "0" | 1 => "1" | 2 => "2" | 3 => "3" | 4 => "4" | 5 => "5"
  | 6 => "6" | 7 => "7" | 8 => "8" | 9 => "9" | 10 => "a" | 11 => "b"
  | 12 => "c" | 13 => "d" | 14 => "e" | _ => "f"
  end%char%nat.

(** [QuoteJSONString], one character at a time. *)
Definition escape_char (c : ascii) : string :=
  let n := nat_of_ascii c in
  if Ascii.eqb c dquote then String backslash (String dquote "")
  else if Ascii.eqb c backslash then String backslash (String backslash "")
  else if (n =? 8)%nat then String backslash "b"
  else if (n =? 12)%nat then String backslash "f"
  else if (n =? 10)%nat then String backslash "n"
  else if (n =? 13)%nat then String backslash "r"
  else if (n =? 9)%nat then String backslash "t"
  else if (n <? 32)%nat then
    String backslash
      (String "u" (String "0" (String "0"
         (String (hex_digit (n / 16)) (String (hex_digit (n mod 16)) "")))))
  else String c "".

Fixpoint escape (s : string) : string :=
  match s with
  | EmptyString => ""
  | String c r => escape_char c +:+ escape r
  end.

Definition quote (s : string) : string :=
  String dquote (escape s +:+ String dquote "").

(** The text of an array or object whose members serialize to [items]:
    [open ++ close] when there is none, otherwise one member per line at the
    deeper indentation and the closing bracket at the current one. *)
Definition wrap (o c : string) (ind : string) (items : list string) : string :=
  match items with
  | [] => o +:+ c
  | _ =>
      o +:+ nl +:+ (ind +:+ "  ")
        +:+ join ("," +:+ nl +:+ (ind +:+ "  ")) items
        +:+ nl +:+ ind +:+ c
  end.

(** The text of a number as [JSON.stringify] writes it: [null] for what
    is not finite. *)
Definition number_text (x : number) : string :=
  match x with
  | NaN | Infinity _ => "null"
  | _ => Number_toString x
  end.

(** [SerializeJSONProperty] with a gap of two spaces, as in
    [JSON.stringify (v, null, 2)]; [ind] is the current indentation.
    [None] is JavaScript's [undefined] result. *)
Fixpoint serialize (ind : string) (v : jsval) : option string :=
  match v with
  | JUndef => None
  | JNull => Some "null"
  | JBool true => Some "true"
  | JBool false => Some "false"
  | JNum x => Some (number_text x)
  | JStr s => Some (quote s)
  | JArr l =>
      Some (wrap "[" "]" ind
              ((fix go (l : list jsval) : list string :=
                  match l with
                  | [] => []
                  | x :: r =>
                      match serialize (ind +:+ "  ") x with
                      | Some t => t
                      | None => "null"
                      end :: go r
                  end) l))
  | JObj ps =>
      Some (wrap "{" "}" ind
              ((fix go (ps : list (string * jsval)) : list string :=
                  match ps with
                  | [] => []
                  | (k, x) :: r =>
                      match serialize (ind +:+ "  ") x with
                      | Some t => (quote k +:+ ": " +:+ t) :: go r
                      | None => go r
                      end
                  end) ps))
  end.

(** [JSON.stringify (v, null, 2)]. *)
Definition JSON_stringify_2 (v : jsval) : option string := serialize "" v.

(** [JSON.stringify (v)]: no gap, so no line breaks and no space after the
    colon. *)
Fixpoint JSON_stringify (v : jsval) : option string :=
  match v with
  | JUndef => None
  | JNull => Some "null"
  | JBool true => Some "true"
  | JBool false => Some "false"
  | JNum x => Some (number_text x)
  | JStr s => Some (quote s)
  | JArr l =>
      Some ("[" +:+
            join ","
              ((fix go (l : list jsval) : list string :=
                  match l with
                  | [] => []
                  | x :: r =>
                      match JSON_stringify x with
                      | Some t => t
                      | None => "null"
                      end :: go r
                  end) l)
            +:+ "]")
  | JObj ps =>
      Some ("{" +:+
            join ","
              ((fix go (ps : list (string * jsval)) : list string :=
                  match ps with
                  | [] => []
                  | (k, x) :: r =>
                      match JSON_stringify x with
                      | Some t => (quote k +:+ ":" +:+ t) :: go r
                      | None => go r
                      end
                  end) ps)
            +:+ "}")
  end.

(** ** JSON.parse *)

Definition is_ws (c : ascii) : bool :=
  let n := nat_of_ascii c in
  ((n =? 32) || (n =? 9) || (n =? 10) || (n =? 13))%nat.

Fixpoint skip_ws (s : string) : string :=
  match s with
  | String c r => if is_ws c then skip_ws r else s
  | EmptyString => s
  end.

Definition hex_val (c : ascii) : option N :=
  (let n := N_of_ascii c in
   if (48 <=? n) && (n <=? 57) then Some (n - 48)
   else if (97 <=? n) && (n <=? 102) then Some (n - 87)
   else if (65 <=? n) && (n <=? 70) then Some (n - 55)
   else None)%N.

(** UTF-8 bytes of a code unit of the basic plane; surrogates, which only
    make sense in pairs, are not decoded. *)
Definition utf8_of_code (n : N) : option string :=
  (if n <? 128 then Some (String (ascii_of_N n) "")
   else if n <? 2048 then
     Some (String (ascii_of_N (192 + n / 64))
             (String (ascii_of_N (128 + n mod 64)) ""))
   else if (55296 <=? n) && (n <=? 57343) then None
   else
     Some (String (ascii_of_N (224 + n / 4096))
             (String (ascii_of_N (128 + (n / 64) mod 64))
                (String (ascii_of_N (128 + n mod 64)) ""))))%N.

(** The characters of a string literal after its opening quote, up to and
    including the closing quote. *)
Fixpoint parse_string (s : string) : option (string * string) :=
  match s with
  | EmptyString => None
  | String c r =>
      if Ascii.eqb c dquote then Some ("", r)
      else if Ascii.eqb c backslash then
        match r with
        | EmptyString => None
        | String e r1 =>
            let simple (x : ascii) :=
              match parse_string r1 with
              | Some (t, r') => Some (String x t, r')
              | None => None
              end in
            if Ascii.eqb e dquote then simple dquote
            else if Ascii.eqb e backslash then simple backslash
            else if Ascii.eqb e "/" then simple "/"%char
            else if Ascii.eqb e "b" then simple "008"%char
            else if Ascii.eqb e "f" then simple "012"%char
            else if Ascii.eqb e "n" then simple "010"%char
            else if Ascii.eqb e "r" then simple "013"%char
            else if Ascii.eqb e "t" then simple "009"%char
            else if Ascii.eqb e "u" then
              match r1 with
              | String h1 (String h2 (String h3 (String h4 r2))) =>
                  match hex_val h1, hex_val h2, hex_val h3, hex_val h4 with
                  | Some a, Some b, Some c, Some d =>
                      match utf8_of_code (((a * 16 + b) * 16 + c) * 16 + d)%N with
                      | Some u =>
                          match parse_string r2 with
                          | Some (t, r') => Some (u +:+ t, r')
                          | None => None
                          end
                      | None => None
                      end
                  | _, _, _, _ => None
                  end
              | _ => None
              end
            else None
        end
      else if (nat_of_ascii c <? 32)%nat then None
      else
        match parse_string r with
        | Some (t, r') => Some (String c t, r')
        | None => None
        end
  end.

Definition digit_of (c : ascii) : option (uint -> uint) :=
  match c with
  | "0" => Some D0 | "1" => Some D1 | "2" => Some D2 | "3" => Some D3
  | "4" => Some D4 | "5" => Some D5 | "6" => Some D6 | "7" => Some D7
  | "8" => Some D8 | "9" => Some D9 | _ => None
  end%char.

(** The longest prefix of decimal digits, and what follows it. *)
Fixpoint span_digits (s : string) : uint * string :=
  match s with
  | EmptyString => (Nil, s)
  | String c r =>
      match digit_of c with
      | Some d => let '(u, r') := span_digits r in (d u, r')
      | None => (Nil, s)
      end
  end.

(** A fraction part: a point and at least one digit. *)
Definition parse_fraction (s : string) : option (uint * string) :=
  match s with
  | String c r =>
      if Ascii.eqb c "." then
        match span_digits r with
        | (Nil, _) => None
        | (frac, r') => Some (frac, r')
        end
      else Some (Nil, s)
  | EmptyString => Some (Nil, s)
  end.

(** An exponent part: [e] or [E], an optional sign and at least one
    digit. *)
Definition parse_exponent (s : string) : option (Z * string) :=
  match s with
  | String c r =>
      if Ascii.eqb c "e" || Ascii.eqb c "E" then
        let '(negative, r1) :=
          match r with
          | String c' r' =>
              if Ascii.eqb c' "+" then (false, r')
              else if Ascii.eqb c' "-" then (true, r')
              else (false, r)
          | EmptyString => (false, r)
          end in
        match span_digits r1 with
        | (Nil, _) => None
        | (u, r2) => Some (if negative then - Z.of_uint u else Z.of_uint u, r2)
        end
      else Some (0, s)
  | EmptyString => Some (0, s)
  end.

(** The Number of a literal with integer digits [int], fraction digits
    [frac] and exponent [ex]. *)
Definition number_of_literal (negative : bool) (int frac : uint) (ex : Z) : number :=
  match Z.of_uint (Decimal.app int frac) with
  | Zpos m => to_double negative m (ex - Z.of_nat (nb_digits frac))
  | _ => Zero negative
  end.

(** The integer part is [0] or starts with another digit. *)
Definition leading_zero (u : uint) : bool :=
  match u with
  | D0 Nil => false
  | D0 _ => true
  | _ => false
  end.

(** Digits that start with another digit than zero. *)
Definition starts_literal (u : uint) : Prop :=
  u <> Nil /\ forall u', u <> D0 u'.

Definition parse_unsigned (negative : bool) (s : string) : option (number * string) :=
  match span_digits s with
  | (Nil, _) => None
  | (int, s1) =>
      if leading_zero int then None
      else
        match parse_fraction s1 with
        | Some (frac, s2) =>
            match parse_exponent s2 with
            | Some (ex, s3) => Some (number_of_literal negative int frac ex, s3)
            | None => None
            end
        | None => None
        end
  end.

(** A JSON number: an optional minus sign, the integer part, an optional
    fraction and an optional exponent. *)
Definition parse_number (s : string) : option (number * string) :=
  match s with
  | String c r =>
      if Ascii.eqb c "-" then parse_unsigned true r else parse_unsigned false s
  | EmptyString => None
  end.

Fixpoint expect (lit : string) (s : string) : option string :=
  match lit, s with
  | EmptyString, _ => Some s
  | String a lit', String b s' => if Ascii.eqb a b then expect lit' s' else None
  | String _ _, EmptyString => None
  end.

Fixpoint parse_value (fuel : nat) (s : string) : option (jsval * string) :=
  match fuel with
  | O => None
  | S fuel =>
      match skip_ws s with
      | EmptyString => None
      | String c r =>
          if Ascii.eqb c "n" then
            match expect "ull" r with Some r' => Some (JNull, r') | None => None end
          else if Ascii.eqb c "t" then
            match expect "rue" r with
            | Some r' => Some (JBool true, r') | None => None end
          else if Ascii.eqb c "f" then
            match expect "alse" r with
            | Some r' => Some (JBool false, r') | None => None end
          else if Ascii.eqb c dquote then
            match parse_string r with
            | Some (t, r') => Some (JStr t, r')
            | None => None
            end
          else if Ascii.eqb c "[" then
            match skip_ws r with
            | String c' r' =>
                if Ascii.eqb c' "]" then Some (JArr [], r')
                else
                  match parse_elements fuel r with
                  | Some (l, r'') => Some (JArr l, r'')
                  | None => None
                  end
            | EmptyString => None
            end
          else if Ascii.eqb c "{" then
            match skip_ws r with
            | String c' r' =>
                if Ascii.eqb c' "}" then Some (JObj [], r')
                else
                  match parse_members fuel r with
                  | Some (l, r'') => Some (JObj (obj_of_entries l), r'')
                  | None => None
                  end
            | EmptyString => None
            end
          else
            match parse_number (String c r) with
            | Some (x, r') => Some (JNum x, r')
            | None => None
            end
      end
  end
with parse_elements (fuel : nat) (s : string) : option (list jsval * string) :=
  match fuel with
  | O => None
  | S fuel =>
      match parse_value fuel s with
      | Some (v, r) =>
          match skip_ws r with
          | String c r' =>
              if Ascii.eqb c "," then
                match parse_elements fuel r' with
                | Some (vs, r'') => Some (v :: vs, r'')
                | None => None
                end
              else if Ascii.eqb c "]" then Some ([v], r')
              else None
          | EmptyString => None
          end
      | None => None
      end
  end
with parse_members (fuel : nat) (s : string)
  : option (list (string * jsval) * string) :=
  match fuel with
  | O => None
  | S fuel =>
      match skip_ws s with
      | String q r0 =>
          if Ascii.eqb q dquote then
            match parse_string r0 with
            | Some (k, r1) =>
                match skip_ws r1 with
                | String c r2 =>
                    if Ascii.eqb c ":" then
                      match parse_value fuel r2 with
                      | Some (v, r3) =>
                          match skip_ws r3 with
                          | String c' r4 =>
                              if Ascii.eqb c' "," then
                                match parse_members fuel r4 with
                                | Some (kvs, r5) => Some ((k, v) :: kvs, r5)
                                | None => None
                                end
                              else if Ascii.eqb c' "}" then Some ([(k, v)], r4)
                              else None
                          | EmptyString => None
                          end
                      | None => None
                      end
                    else None
                | EmptyString => None
                end
            | None => None
            end
          else None
      | EmptyString => None
      end
  end.

Definition JSON_parse (s : string) : option jsval :=
  match parse_value (S (String.length s)) s with
  | Some (v, r) =>
      match skip_ws r with
      | EmptyString => Some v
      | String _ _ => None
      end
  | None => None
  end.

(** What [JSON.parse (JSON.stringify (v, null, 2))] is: properties holding [undefined]
    are dropped, [undefined] array elements become [null], as do [NaN] and
    the infinities; a zero loses its sign, and a finite number is read as
    the double nearest to its digits. *)
Fixpoint to_json (v : jsval) : jsval :=
  match v with
  | JUndef => JNull
  | JNum (NaN | Infinity _) => JNull
  | JNum (Zero _) => JNum (Zero false)
  | JNum (Finite negative m e) => JNum (to_double negative m e)
  | JArr l => JArr (map to_json l)
  | JObj ps =>
      JObj (obj_of_entries
              ((fix go (ps : list (string * jsval)) : list (string * jsval) :=
                  match ps with
                  | [] => []
                  | (k, JUndef) :: r => go r
                  | (k, x) :: r => (k, to_json x) :: go r
                  end) ps))
  | _ => v
  end.

(** The serialized text, with [undefined] shown as an array shows it. *)
Definition render (ind : string) (v : jsval) : string :=
  match serialize ind v with Some t => t | None => "null" end.

Definition member_items (ind : string) : list (string * jsval) -> list string :=
  fix go (ps : list (string * jsval)) : list string :=
    match ps with
    | [] => []
    | (k, x) :: r =>
        match serialize ind x with
        | Some t => (quote k +:+ ": " +:+ t) :: go r
        | None => go r
        end
    end.

Fixpoint json_entries (ps : list (string * jsval)) : list (string * jsval) :=
  match ps with
  | [] => []
  | (k, JUndef) :: r => json_entries r
  | (k, x) :: r => (k, to_json x) :: json_entries r
  end.

Fixpoint all_ws (s : string) : bool :=
  match s with
  | EmptyString => true
  | String c r => is_ws c && all_ws r
  end.

(** What may follow a value inside a JSON text. *)
Definition delimited (s : string) : bool :=
  match s with
  | EmptyString => true
  | String c _ =>
      is_ws c || Ascii.eqb c "," || Ascii.eqb c "]" || Ascii.eqb c "}"
  end.

(** Number of values that [serialize] prints for [v]: a bound on the fuel
    that parsing the text takes. *)
Fixpoint psize (v : jsval) : nat :=
  match v with
  | JArr l =>
      S ((fix go (l : list jsval) : nat :=
            match l with [] => O | x :: r => S (psize x + go r) end) l)
  | JObj ps =>
      S ((fix go (ps : list (string * jsval)) : nat :=
            match ps with
            | [] => O
            | (_, JUndef) :: r => go r
            | (_, x) :: r => S (psize x + go r)
            end) ps)
  | _ => 1%nat
  end.

Fixpoint elements_size (l : list jsval) : nat :=
  match l with [] => O | x :: r => S (psize x + elements_size r) end.

Fixpoint members_size (ps : list (string * jsval)) : nat :=
  match ps with
  | [] => O
  | (_, JUndef) :: r => members_size r
  | (_, x) :: r => S (psize x + members_size r)
  end.

Definition roundtrips (v : jsval) : Prop :=
  forall ind rest fuel,
    all_ws ind = true -> delimited rest = true -> (psize v <= fuel)%nat ->
    parse_value fuel (render ind v +:+ rest) = Some (to_json v, rest).

(** ** Thrown values and the exception monad *)

(** A caught value as the catch clauses read it, through their cast to
    [{ message?: string; status?: number }]: the two properties, [JUndef]
    when absent.  The REST helpers throw [{status, message}]; [fetch],
    [Response.json] and property access on [null] reject with an [Error],
    which has a message and no status. *)
Record thrown : Type := { e_status : jsval; e_message : jsval }.

(** What a [throw] statement or a rejected promise carries: [null] or
    [undefined], no property of which can be read, or any other value,
    taken as the two properties the catch clauses read off it. *)
Inductive exception : Type :=
| Thrown_null
| Thrown_undefined
| Thrown (e : thrown).

Coercion Thrown : thrown >-> exception.

Inductive Exc (A : Type) : Type :=
| Return (a : A)
| Throw (x : exception).
Arguments Return {A} a.
Arguments Throw {A} x.

Definition type_error (msg : string) : thrown :=
  {| e_status := JUndef; e_message := JStr msg |}.

(** [const e = err as { message?: string; status?: number }; ... e.k ...]:
    the first property a catch clause reads off the value it caught.  The
    cast does nothing at run time, so on [null] and [undefined] the read
    throws a [TypeError] out of the catch clause. *)
Definition read_caught (k : string) (x : exception) : Exc thrown :=
  match x with
  | Thrown e => Return e
  | Thrown_null =>
      Throw (type_error ("Cannot read properties of null (reading '"
                           +:+ k +:+ "')"))
  | Thrown_undefined =>
      Throw (type_error ("Cannot read properties of undefined (reading '"
                           +:+ k +:+ "')"))
  end.

(** A surrogate, in the three bytes that UTF-8 would give it. *)
Definition surrogate (n : N) : string :=
  String (ascii_of_N 237)
    (String (ascii_of_N (128 + (n / 64) mod 64))
       (String (ascii_of_N (128 + n mod 64)) "")).

(** The UTF-16 code units of a text, each as a string of its own: the
    bytes of a character of the basic plane, and for a character outside
    it, which takes four bytes, its two surrogates. *)
Fixpoint code_units (s : string) : list string :=
  match s with
  | EmptyString => []
  | String c1 r1 =>
      let n1 := N_of_ascii c1 in
      if (n1 <? 192)%N then String c1 "" :: code_units r1
      else
        match r1 with
        | String c2 r2 =>
            if (n1 <? 224)%N then String c1 (String c2 "") :: code_units r2
            else
              match r2 with
              | String c3 r3 =>
                  if (n1 <? 240)%N
                  then String c1 (String c2 (String c3 "")) :: code_units r3
                  else
                    match r3 with
                    | String c4 r4 =>
                        let point :=
                          (((n1 mod 8 * 64 + N_of_ascii c2 mod 64) * 64
                            + N_of_ascii c3 mod 64) * 64
                           + N_of_ascii c4 mod 64)%N in
                        surrogate (55296 + (point - 65536) / 1024)
                        :: surrogate (56320 + (point - 65536) mod 1024)
                        :: code_units r4
                    | EmptyString => [s]
                    end
              | EmptyString => [s]
              end
        | EmptyString => [s]
        end
  end.

(** [v.k] for the string keys the handlers read.  Reading a property of
    [null] or [undefined] throws a [TypeError]; properties inherited from
    the built-in prototypes are not among the keys read. *)
Definition js_get (v : jsval) (k : string) : Exc jsval :=
  match v with
  | JUndef =>
      Throw (type_error ("Cannot read properties of undefined (reading '"
                           +:+ k +:+ "')"))
  | JNull =>
      Throw (type_error ("Cannot read properties of null (reading '"
                           +:+ k +:+ "')"))
  | JObj ps => Return (obj_lookup k ps)
  | JArr l =>
      Return (if String.eqb k "length" then JNum (Z.of_nat (List.length l))
              else JUndef)
  | JStr s =>
      Return (if String.eqb k "length"
              then JNum (Z.of_nat (List.length (code_units s)))
              else JUndef)
  | JBool _ | JNum _ => Return JUndef
  end.

(** [Array.isArray]. *)
Definition is_array (v : jsval) : bool :=
  match v with JArr _ => true | _ => false end.

(** [typeof v === "object" && v !== null]. *)
Definition is_object (v : jsval) : bool :=
  match v with JArr _ | JObj _ => true | _ => false end.

(** [x] then [k], for computations that issue no call. *)
Definition and_then {A B} (x : Exc A) (k : A -> Exc B) : Exc B :=
  match x with
  | Return a => k a
  | Throw e => Throw e
  end.

Definition conversion_error : thrown :=
  type_error "Cannot convert object to primitive value".

(** [String (v)].  An array is joined as [Array.prototype.join] does it.
    An object is converted through its [toString] and [valueOf]: the one of
    [Object.prototype] gives "[object Object]", but an own property named
    [toString] hides it, and as no value of a JSON text is a function
    nothing is left to call, so the conversion throws a [TypeError]. *)
Fixpoint to_String (v : jsval) : Exc string :=
  match v with
  | JUndef => Return "undefined"
  | JNull => Return "null"
  | JBool true => Return "true"
  | JBool false => Return "false"
  | JNum x => Return (Number_toString x)
  | JStr s => Return s
  | JArr l =>
      and_then
        ((fix go (l : list jsval) : Exc (list string) :=
            match l with
            | [] => Return []
            | x :: r =>
                and_then
                  match x with
                  | JUndef | JNull => Return ""
                  | _ => to_String x
                  end
                  (fun t => and_then (go r) (fun ts => Return (t :: ts)))
            end) l)
        (fun ts => Return (join "," ts))
  | JObj ps =>
      if obj_has "toString" ps
      then Throw conversion_error
      else Return "[object Object]"
  end.

Fixpoint indexed (i : nat) (l : list jsval) : list (string * jsval) :=
  match l with
  | [] => []
  | x :: r => (Z_to_string (Z.of_nat i), x) :: indexed (S i) r
  end.

Definition chars (s : string) : list jsval := JStr <$> code_units s.

(** [Object.entries (v)], which is also what [{ ...v }] copies: the
    properties of an object, the indexed elements of an array or string. *)
Definition entries (v : jsval) : list (string * jsval) :=
  match v with
  | JObj ps => ps
  | JArr l => indexed 0 l
  | JStr s => indexed 0 (chars s)
  | _ => []
  end.

(** ** tools/_helpers.ts: responses *)

Record content_block : Type := { type : string; text : option string }.

(** [isError] is [None] where the source leaves the property out. *)
Record ToolResponse : Type :=
  { content : list content_block; isError : option bool }.

Definition success (data : jsval) : ToolResponse :=
  {| content := [ {| type := "text"; text := JSON_stringify_2 data |} ];
     isError := None |}.

Definition error_payload (code : string) (message : jsval) (suggestion : string)
  : jsval :=
  JObj [("error",
         JObj [("code", JStr code); ("message", message);
               ("suggestion", JStr suggestion)])].

Definition error (code : string) (message : jsval) (suggestion : string)
  : ToolResponse :=
  {| content :=
       [ {| type := "text";
            text := JSON_stringify_2 (error_payload code message suggestion) |} ];
     isError := Some true |}.

(** ** The process environment and the credentials *)

(** [process.env]. *)
Abbreviation environment := (gmap string string).

(** [process.env.NAME || fallback]: an unset and an empty variable are both
    falsy. *)
Definition env_or (env : environment) (name fallback : string) : string :=
  match env !! name with
  | Some v => if String.eqb v "" then fallback else v
  | None => fallback
  end.

(** [s.replace (/\/$/, "")]: one trailing slash is removed. *)
Fixpoint strip_trailing_slash (s : string) : string :=
  match s with
  | EmptyString => ""
  | String c EmptyString => if Ascii.eqb c "/" then "" else s
  | String c r => String c (strip_trailing_slash r)
  end.

Record Credentials : Type :=
  { apiKey : string; project : string; baseUrl : string }.

Definition resolveEnv (env : environment) : Credentials :=
  {| apiKey := env_or env "JSONDB_API_KEY" "";
     project := env_or env "JSONDB_PROJECT" (env_or env "JSONDB_NAMESPACE" "v1");
     baseUrl :=
       strip_trailing_slash (env_or env "JSONDB_BASE_URL" "https://api.jsondb.cloud")
  |}.

(** ** Outbound calls *)

(** The arguments of one [fetch (url, init)].  [method] is the method the
    request goes out with: "GET" where [init] names none. *)
Record request : Type :=
  { url : string;
    method : string;
    headers : list (string * string);
    body : option string }.

(** What [fetch] resolves to: [res.status], [res.statusText] and the outcome
    of [res.json ()], which rejects when the body is not JSON text. *)
Record response : Type :=
  { res_status : Z; res_statusText : string; res_json : Exc jsval }.

Definition res_ok (r : response) : bool :=
  (200 <=? res_status r) && (res_status r <=? 299).

Inductive fetch_result : Type :=
| Rejected (x : exception)
| Resolved (r : response).

(** The methods of the SDK's collection object that the handlers call,
    [db.collection (name).method (args)]. *)
Inductive sdk_call : Type :=
| Sdk_create (collection : string) (data opts : jsval)
| Sdk_get (collection id : string)
| Sdk_list (collection : string) (opts : jsval)
| Sdk_update (collection id : string) (data : jsval)
| Sdk_patch (collection id : string) (data : jsval)
| Sdk_delete (collection id : string)
| Sdk_count (collection : string) (filter : jsval)
| Sdk_jsonPatch (collection id : string) (operations : jsval)
| Sdk_getSchema (collection : string)
| Sdk_setSchema (collection : string) (schema : jsval)
| Sdk_removeSchema (collection : string)
| Sdk_validate (collection : string) (data : jsval).

(** A call that left the bridge: an HTTP request, or an SDK call together
    with the credentials the SDK client was built with. *)
Inductive effect : Type :=
| Fetched (rq : request)
| Called (db : Credentials) (c : sdk_call).

(** A computation returns or throws, and records the calls it issued. *)
Definition M (A : Type) : Type := (list effect * Exc A)%type.

Definition ret {A} (a : A) : M A := ([], Return a).

Definition raise {A} (x : exception) : M A := ([], Throw x).

Definition lift {A} (x : Exc A) : M A := ([], x).

Definition bind {A B} (m : M A) (k : A -> M B) : M B :=
  match m with
  | (t, Return a) => let '(t', r) := k a in (t ++ t', r)
  | (t, Throw e) => (t, Throw e)
  end.

(** [try { m } catch (e) { h e }]. *)
Definition try_catch {A} (m : M A) (h : exception -> M A) : M A :=
  match m with
  | (t, Return a) => (t, Return a)
  | (t, Throw e) => let '(t', r) := h e in (t ++ t', r)
  end.

Notation "'let*' x ':=' m 'in' k" := (bind m (fun x => k))
  (at level 10, x name, m at level 100, k at level 200).

Definition issued {A} (m : M A) : list effect := m.1.
Definition outcome {A} (m : M A) : Exc A := m.2.

(** [e.status === n]. *)
Definition status_is (e : thrown) (n : Z) : bool :=
  match e_status e with JNum s => Number_equal s n | _ => false end.

Definition is_undefined (v : jsval) : bool :=
  match v with JUndef => true | _ => false end.

(** A string argument that may be left out. *)
Definition opt_string (o : option string) : jsval :=
  match o with Some s => JStr s | None => JUndef end.

Definition opt_number (o : option number) : jsval :=
  match o with Some n => JNum n | None => JUndef end.

(** [["POST", "PUT", "PATCH"].includes (method)]. *)
Definition sends_body (method : string) : bool :=
  String.eqb method "POST" || String.eqb method "PUT" || String.eqb method "PATCH".

Definition json_headers (apiKey : string) : list (string * string) :=
  [("Authorization", "Bearer " +:+ apiKey); ("Content-Type", "application/json")].

Section Bridge.

(** The remote API and the SDK client, as the bridge sees them. *)
Variable fetch : request -> fetch_result.
Variable sdk : Credentials -> sdk_call -> Exc jsval.

Definition do_fetch (rq : request) : M response :=
  ([Fetched rq],
   match fetch rq with
   | Rejected e => Throw e
   | Resolved r => Return r
   end).

Definition call_sdk (db : Credentials) (c : sdk_call) : M jsval :=
  ([Called db c], sdk db c).

(** The non-2xx branch of every REST call:
    [const b = await res.json ().catch (() => ({}));
     throw { status: res.status, message: b.error || res.statusText }]. *)
Definition upstream_failure {A} (res : response) : M A :=
  let b := match res_json res with Return v => v | Throw _ => JObj [] end in
  let* err := lift (js_get b "error") in
  raise {| e_status := JNum (res_status res);
           e_message := js_or err (JStr (res_statusText res)) |}.

(** tools/_helpers.ts, [apiFetch (url, apiKey, method = "GET", body?)]. *)
Definition apiFetch (url apiKey method : string) (body : jsval) : M jsval :=
  let opts :=
    {| url := url;
       method := method;
       headers := json_headers apiKey;
       body :=
         if negb (is_undefined body) && sends_body method
         then JSON_stringify body else None |} in
  let* res := do_fetch opts in
  if negb (res_ok res) then upstream_failure res
  else if res_status res =? 204 then ret (JObj [("ok", JBool true)])
  else lift (res_json res).

(** tools/webhooks.ts, [webhookFetch]: the same text as [apiFetch]. *)
Definition webhookFetch (url apiKey method : string) (body : jsval) : M jsval :=
  let opts :=
    {| url := url;
       method := method;
       headers := json_headers apiKey;
       body :=
         if negb (is_undefined body) && sends_body method
         then JSON_stringify body else None |} in
  let* res := do_fetch opts in
  if negb (res_ok res) then upstream_failure res
  else if res_status res =? 204 then ret (JObj [("ok", JBool true)])
  else lift (res_json res).

(** tools/versions.ts, [versionFetch (url, apiKey, opts = {})]; the only
    option the handlers pass is a method. *)
Definition versionFetch (url apiKey : string) (opts_method : option string)
  : M jsval :=
  let* res := do_fetch {| url := url;
                          method := default "GET" opts_method;
                          headers := json_headers apiKey;
                          body := None |} in
  if negb (res_ok res) then upstream_failure res
  else if res_status res =? 204 then ret (JObj [("ok", JBool true)])
  else lift (res_json res).

(** *** tools/documents.ts *)

Definition create_document_catch (collection : string) (e : thrown)
  : ToolResponse :=
  if status_is e 409 then
    error "DOCUMENT_CONFLICT"
      (JStr ("A document with this ID already exists in collection '"
               +:+ collection +:+ "'."))
      "Use update_document to replace an existing document, or omit the 'id' parameter to auto-generate a unique ID."
  else if status_is e 413 then
    error "DOCUMENT_TOO_LARGE"
      (JStr "The document exceeds the maximum allowed size.")
      "Reduce the document size. Free plans allow up to 16 KB per document, Pro plans allow up to 1 MB."
  else if status_is e 400 then
    error "VALIDATION_ERROR"
      (js_or (e_message e)
         (JStr ("The document failed schema validation for collection '"
                  +:+ collection +:+ "'.")))
      ("Use get_schema({ collection: '" +:+ collection
         +:+ "' }) to see the required schema, then adjust your document to match.")
  else
    error "CREATE_FAILED"
      (js_or (e_message e) (JStr "Failed to create document"))
      ("Check that the collection name '" +:+ collection
         +:+ "' is valid and the data is a valid JSON object.").

(** [id ? { id } : undefined]: an empty id counts as none. *)
Definition create_options (id : option string) : jsval :=
  if truthy (opt_string id) then JObj [("id", opt_string id)] else JUndef.

Definition create_document_try (db : Credentials) (collection : string)
    (data : list (string * jsval)) (id : option string) : M ToolResponse :=
  let* doc := call_sdk db (Sdk_create collection (JObj data) (create_options id)) in
  ret (success doc).

Definition get_document_catch (collection id : string) (e : thrown)
  : ToolResponse :=
  if status_is e 404 then
    error "DOCUMENT_NOT_FOUND"
      (JStr ("Document '" +:+ id +:+ "' not found in collection '"
               +:+ collection +:+ "'."))
      ("Use list_documents({ collection: '" +:+ collection
         +:+ "' }) to see available documents, or check that the ID is correct.")
  else
    error "GET_FAILED"
      (js_or (e_message e) (JStr "Failed to get document"))
      ("Verify that the collection '" +:+ collection
         +:+ "' exists and the document ID '" +:+ id +:+ "' is correct.").

Definition get_document_try (db : Credentials) (collection id : string)
  : M ToolResponse :=
  let* doc := call_sdk db (Sdk_get collection id) in
  ret (success doc).

Definition list_documents_catch (collection : string) (e : thrown)
  : ToolResponse :=
  error "LIST_FAILED"
    (js_or (e_message e)
       (JStr ("Failed to list documents in collection '" +:+ collection +:+ "'.")))
    "Verify the collection name is correct. Use list_collections to see available collections.".

Definition list_documents_try (db : Credentials) (collection : string)
    (filter : jsval) (sort : option string) (limit offset : option number)
    (select : option (list string)) : M ToolResponse :=
  let* result :=
    call_sdk db
      (Sdk_list collection
         (JObj [("filter", filter);
                ("sort", opt_string sort);
                ("limit", opt_number limit);
                ("offset", opt_number offset);
                ("select",
                 match select with
                 | Some l => JArr (map JStr l)
                 | None => JUndef
                 end)])) in
  ret (success result).

Definition update_document_catch (collection id : string) (e : thrown)
  : ToolResponse :=
  if status_is e 404 then
    error "DOCUMENT_NOT_FOUND"
      (JStr ("Document '" +:+ id +:+ "' not found in collection '"
               +:+ collection +:+ "'."))
      ("Use list_documents({ collection: '" +:+ collection
         +:+ "' }) to see available documents. To create a new document, use create_document instead.")
  else if status_is e 400 then
    error "VALIDATION_ERROR"
      (js_or (e_message e) (JStr "The document failed schema validation."))
      ("Use get_schema({ collection: '" +:+ collection
         +:+ "' }) to see the required schema, then adjust your document to match.")
  else
    error "UPDATE_FAILED"
      (js_or (e_message e) (JStr "Failed to update document"))
      ("Verify that collection '" +:+ collection +:+ "' and document ID '"
         +:+ id +:+ "' are correct.").

Definition update_document_try (db : Credentials) (collection id : string)
    (data : list (string * jsval)) : M ToolResponse :=
  let* doc := call_sdk db (Sdk_update collection id (JObj data)) in
  ret (success doc).

Definition patch_document_catch (collection id : string) (e : thrown)
  : ToolResponse :=
  if status_is e 404 then
    error "DOCUMENT_NOT_FOUND"
      (JStr ("Document '" +:+ id +:+ "' not found in collection '"
               +:+ collection +:+ "'."))
      ("Use list_documents({ collection: '" +:+ collection
         +:+ "' }) to see available documents. To create a new document, use create_document instead.")
  else if status_is e 400 then
    error "VALIDATION_ERROR"
      (js_or (e_message e) (JStr "The patched document failed schema validation."))
      ("Use get_schema({ collection: '" +:+ collection
         +:+ "' }) to see the required schema. Ensure the patched result conforms to it.")
  else
    error "PATCH_FAILED"
      (js_or (e_message e) (JStr "Failed to patch document"))
      ("Verify that collection '" +:+ collection +:+ "' and document ID '"
         +:+ id +:+ "' are correct.").

Definition patch_document_try (db : Credentials) (collection id : string)
    (data : list (string * jsval)) : M ToolResponse :=
  let* doc := call_sdk db (Sdk_patch collection id (JObj data)) in
  ret (success doc).

Definition delete_document_catch (collection id : string) (e : thrown)
  : ToolResponse :=
  if status_is e 404 then
    error "DOCUMENT_NOT_FOUND"
      (JStr ("Document '" +:+ id +:+ "' not found in collection '"
               +:+ collection +:+ "'."))
      ("The document may have already been deleted. Use list_documents({ collection: '"
         +:+ collection +:+ "' }) to see current documents.")
  else
    error "DELETE_FAILED"
      (js_or (e_message e) (JStr "Failed to delete document"))
      ("Verify that collection '" +:+ collection +:+ "' and document ID '"
         +:+ id +:+ "' are correct.").

Definition delete_document_try (db : Credentials) (collection id : string)
  : M ToolResponse :=
  let* _ := call_sdk db (Sdk_delete collection id) in
  ret (success (JObj [("deleted", JBool true); ("_id", JStr id);
                      ("collection", JStr collection)])).

Definition count_documents_catch (collection : string) (e : thrown)
  : ToolResponse :=
  error "COUNT_FAILED"
    (js_or (e_message e)
       (JStr ("Failed to count documents in collection '" +:+ collection +:+ "'.")))
    "Verify the collection name is correct. Use list_collections to see available collections.".

Definition count_documents_try (db : Credentials) (collection : string)
    (filter : jsval) : M ToolResponse :=
  let* count := call_sdk db (Sdk_count collection filter) in
  ret (success (JObj [("collection", JStr collection); ("count", count)])).

(** One RFC 6902 operation as the argument schema admits it. *)
Inductive patch_op : Type :=
| op_add | op_remove | op_replace | op_move | op_copy | op_test.

Definition patch_op_name (o : patch_op) : string :=
  match o with
  | op_add => "add" | op_remove => "remove" | op_replace => "replace"
  | op_move => "move" | op_copy => "copy" | op_test => "test"
  end.

Record patch_operation : Type :=
  { p_op : patch_op; p_path : string; p_value : jsval; p_from : option string }.

Definition patch_operation_value (p : patch_operation) : jsval :=
  JObj [("op", JStr (patch_op_name (p_op p))); ("path", JStr (p_path p));
        ("value", p_value p); ("from", opt_string (p_from p))].

Definition json_patch_document_catch (collection id : string) (e : thrown)
  : ToolResponse :=
  if status_is e 404 then
    error "DOCUMENT_NOT_FOUND"
      (JStr ("Document '" +:+ id +:+ "' not found in collection '"
               +:+ collection +:+ "'."))
      ("Use list_documents({ collection: '" +:+ collection
         +:+ "' }) to see available documents.")
  else if status_is e 409 then
    error "PATCH_CONFLICT"
      (js_or (e_message e)
         (JStr "A 'test' operation failed or a path conflict occurred."))
      "Review the patch operations. A 'test' op asserts a value must match before applying changes."
  else if status_is e 400 then
    error "VALIDATION_ERROR"
      (js_or (e_message e) (JStr "The patched document failed schema validation."))
      ("Use get_schema({ collection: '" +:+ collection
         +:+ "' }) to review the required schema.")
  else
    error "JSON_PATCH_FAILED"
      (js_or (e_message e) (JStr "Failed to apply JSON Patch"))
      "Verify the patch operations are valid RFC 6902. Paths must use JSON Pointer format (e.g., '/field', '/nested/key').".

Definition json_patch_document_try (db : Credentials) (collection id : string)
    (operations : list patch_operation) : M ToolResponse :=
  let* doc :=
    call_sdk db
      (Sdk_jsonPatch collection id (JArr (map patch_operation_value operations))) in
  ret (success doc).

(** *** tools/collections.ts: buildFilterObject *)

Record filter_entry : Type :=
  { field : string; operator : string; value : jsval }.

(** What an ordinary object inherits from.  [filterObj] starts as [{}],
    whose prototype is [Object.prototype]; an assignment to its
    [__proto__] property can replace the prototype by [null] or by an
    object value. *)
Inductive prototype : Type :=
| Object_prototype
| Null_prototype
| Value_prototype (v : jsval).

Record js_object : Type :=
  { own : list (string * jsval); proto : prototype }.

(** [{}]. *)
Definition empty_object : js_object :=
  {| own := []; proto := Object_prototype |}.

(** Whether looking [__proto__] up on [o] ends at the accessor property
    of [Object.prototype]: no own data property of that name on [o] or on
    an object installed as its prototype, and a prototype chain that
    reaches [Object.prototype]. *)
Definition reaches_proto_accessor (o : js_object) : bool :=
  negb (obj_has "__proto__" (own o))
  && match proto o with
     | Object_prototype => true
     | Null_prototype => false
     | Value_prototype (JObj ps) => negb (obj_has "__proto__" ps)
     | Value_prototype _ => true
     end.

(** [o[k] = v] on an ordinary extensible object.  Every inherited property
    is a writable data property, for which the assignment defines an own
    property, except [__proto__]: its setter replaces the prototype when
    [v] is an object or [null] and does nothing otherwise. *)
Definition js_assign (o : js_object) (k : string) (v : jsval) : js_object :=
  if String.eqb k "__proto__" && reaches_proto_accessor o then
    match v with
    | JNull => {| own := own o; proto := Null_prototype |}
    | JObj _ | JArr _ => {| own := own o; proto := Value_prototype v |}
    | _ => o
    end
  else {| own := obj_set k v (own o); proto := proto o |}.

Definition opMap : list (string * string) :=
  [("eq", "$eq"); ("neq", "$neq"); ("gt", "$gt"); ("gte", "$gte");
   ("lt", "$lt"); ("lte", "$lte"); ("contains", "$contains");
   ("in", "$in"); ("exists", "$exists")].

(** The function-valued properties of [Object.prototype], with the name
    of the function each holds. *)
Definition Object_prototype_functions : list (string * string) :=
  [("constructor", "Object");
   ("__defineGetter__", "__defineGetter__");
   ("__defineSetter__", "__defineSetter__");
   ("hasOwnProperty", "hasOwnProperty");
   ("__lookupGetter__", "__lookupGetter__");
   ("__lookupSetter__", "__lookupSetter__");
   ("isPrototypeOf", "isPrototypeOf");
   ("propertyIsEnumerable", "propertyIsEnumerable");
   ("toString", "toString");
   ("valueOf", "valueOf");
   ("toLocaleString", "toLocaleString")].

Fixpoint assoc (k : string) (l : list (string * string)) : option string :=
  match l with
  | [] => None
  | (k', v) :: r => if String.eqb k k' then Some v else assoc k r
  end.

(** The text of a built-in function, as Node prints it. *)
Definition native_source (name : string) : string :=
  "function " +:+ name +:+ "() { [native code] }".

(** [opMap[operator]], as the property key it gives when it is used in
    [{ [sdkOp]: value }]; [None] when the lookup is [undefined].  [opMap]
    is an object literal, so the lookup also finds what [Object.prototype]
    holds: a built-in function, whose key is its source text, and under
    [__proto__] the prototype itself, whose key is "[object Object]".
    Every value found is truthy. *)
Definition opMap_get (operator : string) : option string :=
  match assoc operator opMap with
  | Some sdkOp => Some sdkOp
  | None =>
      match assoc operator Object_prototype_functions with
      | Some name => Some (native_source name)
      | None =>
          if String.eqb operator "__proto__" then Some "[object Object]"
          else None
      end
  end.

Definition filter_step (filterObj : js_object) (f : filter_entry) : js_object :=
  if String.eqb (operator f) "eq" then
    js_assign filterObj (field f) (value f)
  else
    match opMap_get (operator f) with
    | Some sdkOp => js_assign filterObj (field f) (JObj [(sdkOp, value f)])
    | None => js_assign filterObj (field f) (value f)
    end.

Definition buildFilterObject (filters : list filter_entry) : js_object :=
  fold_left filter_step filters empty_object.

(** *** URLSearchParams *)

Definition upper_hex_digit (n : nat) : ascii :=
  match n with
  | 0 => "0" | 1 => "1" | 2 => "2" | 3 => "3" | 4 => "4" | 5 => "5"
  | 6 => "6" | 7 => "7" | 8 => "8" | 9 => "9" | 10 => "A" | 11 => "B"
  | 12 => "C" | 13 => "D" | 14 => "E" | _ => "F"
  end%char%nat.

(** One byte under the application/x-www-form-urlencoded serializer. *)
Definition urlencode_byte (c : ascii) : string :=
  let n := nat_of_ascii c in
  if ((48 <=? n) && (n <=? 57) || (65 <=? n) && (n <=? 90)
      || (97 <=? n) && (n <=? 122)
      || (n =? 42) || (n =? 45) || (n =? 46) || (n =? 95))%nat
  then String c ""
  else if (n =? 32)%nat then "+"
  else String "%" (String (upper_hex_digit (n / 16))
                     (String (upper_hex_digit (n mod 16)) "")).

Fixpoint urlencode (s : string) : string :=
  match s with
  | EmptyString => ""
  | String c r => urlencode_byte c +:+ urlencode r
  end.

(** [params.set (name, value)]. *)
Fixpoint params_set (name value : string) (ps : list (string * string))
  : list (string * string) :=
  match ps with
  | [] => [(name, value)]
  | (n, v) :: r =>
      if String.eqb n name
      then (name, value) :: List.filter (fun p => negb (String.eqb p.1 name)) r
      else (n, v) :: params_set name value r
  end.

(** [params.toString ()]. *)
Definition params_toString (ps : list (string * string)) : string :=
  join "&" (map (fun p => urlencode p.1 +:+ "=" +:+ urlencode p.2) ps).

(** [`${qs ? `?${qs}` : ""}`]. *)
Definition query_suffix (qs : string) : string :=
  if String.eqb qs "" then "" else "?" +:+ qs.

(** [op.replace (/^\$/, "")]. *)
Definition strip_dollar (s : string) : string :=
  match s with
  | String c r => if Ascii.eqb c "$" then r else s
  | EmptyString => s
  end.

(** *** tools/collections.ts: the handlers *)

(** The inline REST call of [list_collections] and [import_documents]:
    a non-2xx response is thrown as [{status, message}], any other has
    its body read as JSON. *)
Definition read_json (res : response) : M jsval :=
  if negb (res_ok res) then upstream_failure res else lift (res_json res).

Definition list_collections_catch (e : thrown) : ToolResponse :=
  error "LIST_COLLECTIONS_FAILED"
    (js_or (e_message e) (JStr "Failed to list collections."))
    "Verify that the JSONDB_API_KEY and JSONDB_PROJECT environment variables are set correctly.".

Definition list_collections_try (env : environment) : M ToolResponse :=
  let c := resolveEnv env in
  let* res := do_fetch {| url := baseUrl c +:+ "/" +:+ project c;
                          method := "GET";
                          headers := json_headers (apiKey c);
                          body := None |} in
  let* data := read_json res in
  ret (success data).

(** The operators the [search_documents] schema admits. *)
Inductive filter_operator : Type :=
| f_eq | f_neq | f_gt | f_gte | f_lt | f_lte | f_contains | f_in | f_exists.

Definition filter_operator_name (o : filter_operator) : string :=
  match o with
  | f_eq => "eq" | f_neq => "neq" | f_gt => "gt" | f_gte => "gte"
  | f_lt => "lt" | f_lte => "lte" | f_contains => "contains" | f_in => "in"
  | f_exists => "exists"
  end.

Definition search_documents_catch (collection : string) (e : thrown)
  : ToolResponse :=
  error "SEARCH_FAILED"
    (js_or (e_message e)
       (JStr ("Failed to search documents in collection '" +:+ collection +:+ "'.")))
    "Verify the collection name and filter syntax. Available operators: eq, neq, gt, gte, lt, lte, contains, in. Use list_collections to see available collections.".

Definition search_documents_try (db : Credentials) (collection : string)
    (filters : list (string * filter_operator * jsval))
    (sort : option string) (limit offset : option number) : M ToolResponse :=
  let filterObj :=
    buildFilterObject
      (map (fun f => {| field := f.1.1;
                        operator := filter_operator_name f.1.2;
                        value := f.2 |}) filters) in
  let* result :=
    call_sdk db
      (Sdk_list collection
         (JObj [("filter", JObj (own filterObj));
                ("sort", opt_string sort);
                ("limit", opt_number limit);
                ("offset", opt_number offset)])) in
  ret (success result).

Inductive conflict_mode : Type := on_fail | on_skip | on_overwrite.

Definition conflict_mode_name (m : conflict_mode) : string :=
  match m with
  | on_fail => "fail" | on_skip => "skip" | on_overwrite => "overwrite"
  end.

Definition import_documents_catch (collection : string) (e : thrown)
  : ToolResponse :=
  if status_is e 413 then
    error "IMPORT_TOO_LARGE"
      (JStr "The import payload exceeds the maximum allowed size.")
      "Free plans support up to 1,000 documents (5 MB). Pro plans support up to 10,000 documents (50 MB). Try importing in smaller batches."
  else if status_is e 409 then
    error "IMPORT_CONFLICT"
      (js_or (e_message e)
         (JStr "One or more documents conflict with existing IDs."))
      "Use onConflict: 'skip' to ignore duplicates or 'overwrite' to replace existing documents."
  else
    error "IMPORT_FAILED"
      (js_or (e_message e)
         (JStr ("Failed to import documents into collection '"
                  +:+ collection +:+ "'.")))
      "Verify each document is a valid JSON object. Check the import limits for your plan.".

Definition import_params (onConflict : option conflict_mode)
    (idField : option string) : list (string * string) :=
  let params := [] in
  let params :=
    match onConflict with
    | Some m => params_set "onConflict" (conflict_mode_name m) params
    | None => params
    end in
  match idField with
  | Some f => if String.eqb f "" then params else params_set "idField" f params
  | None => params
  end.

Definition import_documents_try (env : environment) (collection : string)
    (documents : list (list (string * jsval)))
    (onConflict : option conflict_mode) (idField : option string)
  : M ToolResponse :=
  let c := resolveEnv env in
  let qs := params_toString (import_params onConflict idField) in
  let* res :=
    do_fetch {| url := baseUrl c +:+ "/" +:+ project c +:+ "/" +:+ collection
                         +:+ "/_import" +:+ query_suffix qs;
                method := "POST";
                headers := json_headers (apiKey c);
                body := JSON_stringify (JArr (map JObj documents)) |} in
  let* data := read_json res in
  ret (success data).

Definition export_collection_catch (collection : string) (e : thrown)
  : ToolResponse :=
  if status_is e 403 then
    error "EXPORT_LIMIT_EXCEEDED"
      (JStr "Export limit exceeded for your plan.")
      "Free plans support up to 1,000 documents per export. Upgrade to Pro for up to 100,000."
  else
    error "EXPORT_FAILED"
      (js_or (e_message e)
         (JStr ("Failed to export collection '" +:+ collection +:+ "'.")))
      "Verify the collection name is correct. Use list_collections to see available collections.".

(** The query parameters after one operator of a filter entry. *)
Definition export_filter_operator (field : string)
    (params : Exc (list (string * string))) (ov : string * jsval)
  : Exc (list (string * string)) :=
  and_then params
    (fun params =>
       and_then (to_String ov.2)
         (fun text =>
            Return (params_set
                      ("filter[" +:+ field +:+ "][" +:+ strip_dollar ov.1 +:+ "]")
                      text params))).

(** The query parameters after one filter entry. *)
Definition export_filter_entry (params : Exc (list (string * string)))
    (fv : string * jsval) : Exc (list (string * string)) :=
  let '(field, value) := fv in
  if is_object value then
    fold_left (export_filter_operator field) (entries value) params
  else
    and_then params
      (fun params =>
         and_then (to_String value)
           (fun text =>
              Return (params_set ("filter[" +:+ field +:+ "]") text params))).

(** The query parameters of an export, when every value of the filter
    converts to a string. *)
Definition export_params (filter : option (list (string * jsval)))
  : Exc (list (string * string)) :=
  match filter with
  | Some ps => fold_left export_filter_entry ps (Return [])
  | None => Return []
  end.

(** [Array.isArray (data) ? data : (data.data ?? [])]. *)
Definition export_documents (data : jsval) : Exc jsval :=
  if is_array data then Return data
  else
    match js_get data "data" with
    | Return d => Return (js_nullish d (JArr []))
    | Throw e => Throw e
    end.

Definition export_collection_try (env : environment) (collection : string)
    (filter : option (list (string * jsval))) : M ToolResponse :=
  let c := resolveEnv env in
  let* params := lift (export_params filter) in
  let qs := params_toString params in
  let* res :=
    do_fetch {| url := baseUrl c +:+ "/" +:+ project c +:+ "/" +:+ collection
                         +:+ "/_export" +:+ query_suffix qs;
                method := "GET";
                headers := [("Authorization", "Bearer " +:+ apiKey c);
                            ("Accept", "application/json")];
                body := None |} in
  let* data := read_json res in
  let* documents := lift (export_documents data) in
  let* count := lift (js_get documents "length") in
  ret (success (JObj [("collection", JStr collection); ("count", count);
                      ("documents", documents)])).

(** *** tools/schemas.ts *)

Definition get_schema_catch (collection : string) (e : thrown) : ToolResponse :=
  error "GET_SCHEMA_FAILED"
    (js_or (e_message e)
       (JStr ("Failed to get schema for collection '" +:+ collection +:+ "'.")))
    "Verify the collection name is correct. Use list_collections to see available collections.".

Definition get_schema_try (db : Credentials) (collection : string)
  : M ToolResponse :=
  let* schema := call_sdk db (Sdk_getSchema collection) in
  match schema with
  | JNull =>
      ret (success
             (JObj [("collection", JStr collection); ("schema", JNull);
                    ("message",
                     JStr ("No schema is set for collection '" +:+ collection
                             +:+ "'. Any valid JSON document can be stored."))]))
  | _ => ret (success (JObj [("collection", JStr collection); ("schema", schema)]))
  end.

Definition set_schema_catch (collection : string) (e : thrown) : ToolResponse :=
  if status_is e 400 then
    error "INVALID_SCHEMA"
      (js_or (e_message e)
         (JStr "The provided schema is not a valid JSON Schema."))
      "Ensure the schema follows JSON Schema format. The top-level 'type' should typically be 'object'. Example: { type: 'object', properties: { name: { type: 'string' } }, required: ['name'] }"
  else
    error "SET_SCHEMA_FAILED"
      (js_or (e_message e)
         (JStr ("Failed to set schema for collection '" +:+ collection +:+ "'.")))
      "Verify the collection name and ensure the schema is valid JSON Schema format.".

Definition set_schema_try (db : Credentials) (collection : string)
    (schema : list (string * jsval)) : M ToolResponse :=
  let* _ := call_sdk db (Sdk_setSchema collection (JObj schema)) in
  ret (success
         (JObj [("collection", JStr collection); ("schema", JObj schema);
                ("message",
                 JStr ("Schema set successfully for collection '" +:+ collection
                         +:+ "'. All new and updated documents will be validated against this schema."))])).

Definition remove_schema_catch (collection : string) (e : thrown)
  : ToolResponse :=
  if status_is e 404 then
    error "SCHEMA_NOT_FOUND"
      (JStr ("No schema is set for collection '" +:+ collection +:+ "'."))
      ("Use get_schema({ collection: '" +:+ collection
         +:+ "' }) to check whether a schema exists.")
  else
    error "REMOVE_SCHEMA_FAILED"
      (js_or (e_message e)
         (JStr ("Failed to remove schema from collection '" +:+ collection +:+ "'.")))
      "Verify the collection name is correct. Use list_collections to see available collections.".

Definition remove_schema_try (db : Credentials) (collection : string)
  : M ToolResponse :=
  let* _ := call_sdk db (Sdk_removeSchema collection) in
  ret (success
         (JObj [("collection", JStr collection); ("schema", JNull);
                ("message",
                 JStr ("Schema removed from collection '" +:+ collection
                         +:+ "'. Documents are no longer validated."))])).

Definition validate_document_catch (collection : string) (e : thrown)
  : ToolResponse :=
  if status_is e 404 then
    error "SCHEMA_NOT_FOUND"
      (JStr ("No schema is set for collection '" +:+ collection +:+ "'."))
      "Use set_schema to add a schema first, or use create_document directly if no validation is needed."
  else
    error "VALIDATE_FAILED"
      (js_or (e_message e)
         (JStr ("Failed to validate document against collection '"
                  +:+ collection +:+ "' schema.")))
      "Verify the collection name is correct and the data is a valid JSON object.".

(** [{ collection, ...result }]. *)
Definition validate_document_try (db : Credentials) (collection : string)
    (data : list (string * jsval)) : M ToolResponse :=
  let* result := call_sdk db (Sdk_validate collection (JObj data)) in
  ret (success
         (JObj (fold_left (fun acc kv => obj_set kv.1 kv.2 acc) (entries result)
                  [("collection", JStr collection)]))).

(** *** tools/versions.ts *)

Definition list_versions_catch (collection id : string) (e : thrown)
  : ToolResponse :=
  if status_is e 404 then
    error "DOCUMENT_NOT_FOUND"
      (JStr ("Document '" +:+ id +:+ "' not found in collection '"
               +:+ collection +:+ "'."))
      ("Use list_documents({ collection: '" +:+ collection
         +:+ "' }) to see available documents.")
  else
    error "LIST_VERSIONS_FAILED"
      (js_or (e_message e)
         (JStr ("Failed to list versions for document '" +:+ id +:+ "'.")))
      "Verify the collection and document ID are correct.".

Definition list_versions_try (env : environment) (collection id : string)
  : M ToolResponse :=
  let c := resolveEnv env in
  let* data :=
    versionFetch
      (baseUrl c +:+ "/" +:+ project c +:+ "/" +:+ collection +:+ "/" +:+ id
         +:+ "/versions")
      (apiKey c) None in
  ret (success data).

(** [`${version}`] for a positive integer. *)
Definition show (n : positive) : string := Number_toString (Zpos n).

Definition get_version_catch (collection id : string) (version : positive)
    (e : thrown) : ToolResponse :=
  if status_is e 404 then
    error "VERSION_NOT_FOUND"
      (JStr ("Version " +:+ show version +:+ " of document '" +:+ id
               +:+ "' not found in collection '" +:+ collection +:+ "'."))
      ("Use list_versions({ collection: '" +:+ collection +:+ "', id: '" +:+ id
         +:+ "' }) to see available versions.")
  else
    error "GET_VERSION_FAILED"
      (js_or (e_message e)
         (JStr ("Failed to get version " +:+ show version +:+ " of document '"
                  +:+ id +:+ "'.")))
      "Verify the collection, document ID, and version number are correct.".

Definition get_version_try (env : environment) (collection id : string)
    (version : positive) : M ToolResponse :=
  let c := resolveEnv env in
  let* data :=
    versionFetch
      (baseUrl c +:+ "/" +:+ project c +:+ "/" +:+ collection +:+ "/" +:+ id
         +:+ "/versions/" +:+ show version)
      (apiKey c) None in
  ret (success data).

Definition restore_version_catch (collection id : string) (version : positive)
    (e : thrown) : ToolResponse :=
  if status_is e 404 then
    error "VERSION_NOT_FOUND"
      (JStr ("Version " +:+ show version +:+ " of document '" +:+ id
               +:+ "' not found in collection '" +:+ collection +:+ "'."))
      ("Use list_versions({ collection: '" +:+ collection +:+ "', id: '" +:+ id
         +:+ "' }) to see available versions.")
  else if status_is e 400 then
    error "VALIDATION_ERROR"
      (js_or (e_message e)
         (JStr "The restored document failed schema validation."))
      ("The historical version may not match the current schema. Use get_schema({ collection: '"
         +:+ collection +:+ "' }) to review.")
  else
    error "RESTORE_VERSION_FAILED"
      (js_or (e_message e)
         (JStr ("Failed to restore document '" +:+ id +:+ "' to version "
                  +:+ show version +:+ ".")))
      "Verify the collection, document ID, and version number are correct.".

Definition restore_version_try (env : environment) (collection id : string)
    (version : positive) : M ToolResponse :=
  let c := resolveEnv env in
  let* data :=
    versionFetch
      (baseUrl c +:+ "/" +:+ project c +:+ "/" +:+ collection +:+ "/" +:+ id
         +:+ "/versions/" +:+ show version +:+ "/restore")
      (apiKey c) (Some "POST") in
  ret (success data).

Definition diff_versions_catch (collection id : string) (from to : positive)
    (e : thrown) : ToolResponse :=
  if status_is e 403 then
    error "PRO_FEATURE"
      (JStr "Version diff is a Pro plan feature.")
      "Upgrade to Pro at https://jsondb.cloud/dashboard/billing to enable version diffs."
  else if status_is e 404 then
    error "VERSION_NOT_FOUND"
      (JStr ("One or both versions (" +:+ show from +:+ ", " +:+ show to
               +:+ ") not found for document '" +:+ id +:+ "'."))
      ("Use list_versions({ collection: '" +:+ collection +:+ "', id: '" +:+ id
         +:+ "' }) to see available version numbers.")
  else
    error "DIFF_VERSIONS_FAILED"
      (js_or (e_message e)
         (JStr ("Failed to diff versions " +:+ show from +:+ " and " +:+ show to
                  +:+ " of document '" +:+ id +:+ "'.")))
      "Verify the collection, document ID, and both version numbers are correct.".

Definition diff_versions_try (env : environment) (collection id : string)
    (from to : positive) : M ToolResponse :=
  let c := resolveEnv env in
  let params := [("from", show from); ("to", show to)] in
  let* data :=
    versionFetch
      (baseUrl c +:+ "/" +:+ project c +:+ "/" +:+ collection +:+ "/" +:+ id
         +:+ "/versions/diff?" +:+ params_toString params)
      (apiKey c) None in
  ret (success data).

(** *** tools/webhooks.ts *)

Inductive webhook_event : Type :=
| document_created | document_updated | document_deleted.

Definition webhook_event_name (ev : webhook_event) : string :=
  match ev with
  | document_created => "document.created"
  | document_updated => "document.updated"
  | document_deleted => "document.deleted"
  end.

Inductive webhook_status : Type := active | disabled.

Definition webhook_status_name (s : webhook_status) : string :=
  match s with active => "active" | disabled => "disabled" end.

Definition events_value (events : list webhook_event) : jsval :=
  JArr (map (fun ev => JStr (webhook_event_name ev)) events).

Definition webhooks_url (c : Credentials) (collection : string) : string :=
  baseUrl c +:+ "/" +:+ project c +:+ "/" +:+ collection +:+ "/_webhooks".

Definition create_webhook_catch (collection : string) (e : thrown)
  : ToolResponse :=
  if status_is e 403 then
    error "WEBHOOK_LIMIT"
      (js_or (e_message e)
         (JStr "Webhook limit reached for this collection or plan."))
      "Free plans allow 3 total webhooks (1 per collection). Pro plans allow 50 total (10 per collection). Delete unused webhooks or upgrade."
  else
    error "CREATE_WEBHOOK_FAILED"
      (js_or (e_message e)
         (JStr ("Failed to create webhook for collection '" +:+ collection +:+ "'.")))
      "Verify the URL is reachable HTTPS and the event names are valid.".

Definition create_webhook_try (env : environment) (collection webhookUrl : string)
    (events : list webhook_event) (description : option string)
  : M ToolResponse :=
  let c := resolveEnv env in
  let* data :=
    webhookFetch (webhooks_url c collection) (apiKey c) "POST"
      (JObj [("url", JStr webhookUrl); ("events", events_value events);
             ("description", opt_string description)]) in
  ret (success data).

Definition list_webhooks_catch (collection : string) (e : thrown)
  : ToolResponse :=
  error "LIST_WEBHOOKS_FAILED"
    (js_or (e_message e)
       (JStr ("Failed to list webhooks for collection '" +:+ collection +:+ "'.")))
    "Verify the collection name is correct. Use list_collections to see available collections.".

Definition list_webhooks_try (env : environment) (collection : string)
  : M ToolResponse :=
  let c := resolveEnv env in
  let* data := webhookFetch (webhooks_url c collection) (apiKey c) "GET" JUndef in
  ret (success data).

(** The catch clause shared, up to the fallback, by the handlers that
    name one webhook. *)
Definition webhook_not_found (collection webhookId : string) : ToolResponse :=
  error "WEBHOOK_NOT_FOUND"
    (JStr ("Webhook '" +:+ webhookId +:+ "' not found in collection '"
             +:+ collection +:+ "'."))
    ("Use list_webhooks({ collection: '" +:+ collection
       +:+ "' }) to see available webhooks.").

Definition get_webhook_catch (collection webhookId : string) (e : thrown)
  : ToolResponse :=
  if status_is e 404 then webhook_not_found collection webhookId
  else
    error "GET_WEBHOOK_FAILED"
      (js_or (e_message e)
         (JStr ("Failed to get webhook '" +:+ webhookId +:+ "'.")))
      "Verify the collection name and webhook ID are correct.".

Definition get_webhook_try (env : environment) (collection webhookId : string)
  : M ToolResponse :=
  let c := resolveEnv env in
  let* data :=
    webhookFetch (webhooks_url c collection +:+ "/" +:+ webhookId) (apiKey c)
      "GET" JUndef in
  ret (success data).

Definition update_webhook_catch (collection webhookId : string) (e : thrown)
  : ToolResponse :=
  if status_is e 404 then webhook_not_found collection webhookId
  else
    error "UPDATE_WEBHOOK_FAILED"
      (js_or (e_message e)
         (JStr ("Failed to update webhook '" +:+ webhookId +:+ "'.")))
      "Verify the collection name and webhook ID are correct.".

(** [if (x !== undefined) body.name = x], for an argument that may be left
    out. *)
Definition set_if_defined (name : string) (x : option jsval)
    (body : list (string * jsval)) : list (string * jsval) :=
  match x with
  | Some v => obj_set name v body
  | None => body
  end.

Definition update_webhook_body (webhookUrl : option string)
    (events : option (list webhook_event)) (description : option string)
    (webhookStatus : option webhook_status) : list (string * jsval) :=
  let body := [] in
  let body := set_if_defined "url" (JStr <$> webhookUrl) body in
  let body := set_if_defined "events" (events_value <$> events) body in
  let body := set_if_defined "description" (JStr <$> description) body in
  set_if_defined "status"
    ((fun s => JStr (webhook_status_name s)) <$> webhookStatus) body.

Definition update_webhook_try (env : environment) (collection webhookId : string)
    (webhookUrl : option string) (events : option (list webhook_event))
    (description : option string) (webhookStatus : option webhook_status)
  : M ToolResponse :=
  let c := resolveEnv env in
  let body := update_webhook_body webhookUrl events description webhookStatus in
  let* data :=
    webhookFetch (webhooks_url c collection +:+ "/" +:+ webhookId) (apiKey c)
      "PUT" (JObj body) in
  ret (success data).

Definition delete_webhook_catch (collection webhookId : string) (e : thrown)
  : ToolResponse :=
  if status_is e 404 then webhook_not_found collection webhookId
  else
    error "DELETE_WEBHOOK_FAILED"
      (js_or (e_message e)
         (JStr ("Failed to delete webhook '" +:+ webhookId +:+ "'.")))
      "Verify the collection name and webhook ID are correct.".

Definition delete_webhook_try (env : environment) (collection webhookId : string)
  : M ToolResponse :=
  let c := resolveEnv env in
  let* _ :=
    webhookFetch (webhooks_url c collection +:+ "/" +:+ webhookId) (apiKey c)
      "DELETE" JUndef in
  ret (success (JObj [("deleted", JBool true); ("webhookId", JStr webhookId);
                      ("collection", JStr collection)])).

Definition test_webhook_catch (collection webhookId : string) (e : thrown)
  : ToolResponse :=
  if status_is e 404 then webhook_not_found collection webhookId
  else
    error "TEST_WEBHOOK_FAILED"
      (js_or (e_message e)
         (JStr ("Failed to send test event to webhook '" +:+ webhookId +:+ "'.")))
      "Verify the webhook URL is reachable and responding with a 2xx status.".

Definition test_webhook_try (env : environment) (collection webhookId : string)
  : M ToolResponse :=
  let c := resolveEnv env in
  let* data :=
    webhookFetch (webhooks_url c collection +:+ "/" +:+ webhookId +:+ "/test")
      (apiKey c) "POST" JUndef in
  ret (success data).

(** *** tools/vectors.ts *)

Definition semantic_search_catch (collection : string) (e : thrown)
  : ToolResponse :=
  if status_is e 404 then
    error "COLLECTION_NOT_FOUND"
      (JStr ("Collection '" +:+ collection +:+ "' not found or has no embeddings."))
      "Ensure the collection exists and documents were stored with store_with_embedding. Use list_collections to see available collections."
  else if status_is e 400 then
    error "INVALID_SEARCH"
      (js_or (e_message e)
         (JStr ("Invalid search request for collection '" +:+ collection +:+ "'.")))
      "Check that the query is a non-empty string and threshold is between 0 and 1."
  else if status_is e 403 then
    error "SEARCH_NOT_AVAILABLE"
      (js_or (e_message e)
         (JStr "Semantic search is not available on your current plan."))
      "Upgrade your plan at https://jsondb.cloud/dashboard/billing to enable vector search."
  else
    error "SEARCH_FAILED"
      (js_or (e_message e)
         (JStr ("Failed to search collection '" +:+ collection +:+ "'.")))
      "Verify the collection name and that documents have been stored with embeddings.".

Definition semantic_search_try (env : environment) (collection query : string)
    (limit threshold : option number) (filter : option (list (string * jsval)))
  : M ToolResponse :=
  let c := resolveEnv env in
  let body := [("query", JStr query)] in
  let body := set_if_defined "limit" (JNum <$> limit) body in
  let body := set_if_defined "threshold" (JNum <$> threshold) body in
  let body := set_if_defined "filter" (JObj <$> filter) body in
  let* data :=
    apiFetch (baseUrl c +:+ "/" +:+ project c +:+ "/" +:+ collection +:+ "/_search")
      (apiKey c) "POST" (JObj body) in
  ret (success data).

Definition store_with_embedding_catch (collection embed_field : string)
    (e : thrown) : ToolResponse :=
  if status_is e 400 then
    error "VALIDATION_ERROR"
      (js_or (e_message e)
         (JStr ("The document failed validation for collection '"
                  +:+ collection +:+ "'.")))
      ("Ensure the embed_field '" +:+ embed_field
         +:+ "' exists in your data and contains text content suitable for embedding.")
  else if status_is e 413 then
    error "DOCUMENT_TOO_LARGE"
      (JStr "The document exceeds the maximum allowed size.")
      "Reduce the document size. Free plans allow up to 16 KB per document, Pro plans allow up to 1 MB."
  else if status_is e 403 then
    error "EMBEDDING_NOT_AVAILABLE"
      (js_or (e_message e)
         (JStr "Embedding generation is not available on your current plan."))
      "Upgrade your plan at https://jsondb.cloud/dashboard/billing to enable automatic embeddings."
  else
    error "STORE_EMBEDDING_FAILED"
      (js_or (e_message e)
         (JStr ("Failed to store document with embedding in collection '"
                  +:+ collection +:+ "'.")))
      "Check that the collection name is valid, the data is a valid JSON object, and the embed_field references an existing text field.".

(** [{ ...data, $embed: embed_field }]. *)
Definition embedding_payload (data : list (string * jsval)) (embed_field : string)
  : jsval :=
  JObj (obj_set "$embed" (JStr embed_field) (obj_of_entries data)).

Definition store_with_embedding_try (env : environment) (collection : string)
    (data : list (string * jsval)) (embed_field : string) (id : option string)
  : M ToolResponse :=
  let c := resolveEnv env in
  let payload := embedding_payload data embed_field in
  let* result :=
    if truthy (opt_string id) then
      let* idText := lift (to_String (opt_string id)) in
      apiFetch
        (baseUrl c +:+ "/" +:+ project c +:+ "/" +:+ collection +:+ "/" +:+ idText)
        (apiKey c) "PUT" payload
    else
      apiFetch (baseUrl c +:+ "/" +:+ project c +:+ "/" +:+ collection)
        (apiKey c) "POST" payload in
  ret (success result).

(** *** The tool catalogue *)

(** A validated tool call: the tool's name with the arguments its schema
    declares, optional ones as options. *)
Inductive call : Type :=
| create_document (collection : string) (data : list (string * jsval))
    (id : option string)
| get_document (collection id : string)
| list_documents (collection : string) (filter : option (list (string * jsval)))
    (sort : option string) (limit offset : option number)
    (select : option (list string))
| update_document (collection id : string) (data : list (string * jsval))
| patch_document (collection id : string) (data : list (string * jsval))
| delete_document (collection id : string)
| count_documents (collection : string) (filter : option (list (string * jsval)))
| json_patch_document (collection id : string) (operations : list patch_operation)
| list_collections
| search_documents (collection : string)
    (filters : list (string * filter_operator * jsval))
    (sort : option string) (limit offset : option number)
| import_documents (collection : string) (documents : list (list (string * jsval)))
    (onConflict : option conflict_mode) (idField : option string)
| export_collection (collection : string) (filter : option (list (string * jsval)))
| get_schema (collection : string)
| set_schema (collection : string) (schema : list (string * jsval))
| remove_schema (collection : string)
| validate_document (collection : string) (data : list (string * jsval))
| list_versions (collection id : string)
| get_version (collection id : string) (version : positive)
| restore_version (collection id : string) (version : positive)
| diff_versions (collection id : string) (from to : positive)
| create_webhook (collection url : string) (events : list webhook_event)
    (description : option string)
| list_webhooks (collection : string)
| get_webhook (collection webhookId : string)
| update_webhook (collection webhookId : string) (url : option string)
    (events : option (list webhook_event)) (description : option string)
    (status : option webhook_status)
| delete_webhook (collection webhookId : string)
| test_webhook (collection webhookId : string)
| semantic_search (collection query : string) (limit threshold : option number)
    (filter : option (list (string * jsval)))
| store_with_embedding (collection : string) (data : list (string * jsval))
    (embed_field : string) (id : option string).

Definition opt_record (o : option (list (string * jsval))) : jsval :=
  match o with Some ps => JObj ps | None => JUndef end.

(** The [try] block of the handler of each tool.  [db] is the SDK client
    handed over at registration, [env] the environment at the time of
    the call. *)
Definition attempt (db : Credentials) (env : environment) (c : call)
  : M ToolResponse :=
  match c with
  | create_document collection data id => create_document_try db collection data id
  | get_document collection id => get_document_try db collection id
  | list_documents collection filter sort limit offset select =>
      list_documents_try db collection (opt_record filter) sort limit offset select
  | update_document collection id data => update_document_try db collection id data
  | patch_document collection id data => patch_document_try db collection id data
  | delete_document collection id => delete_document_try db collection id
  | count_documents collection filter =>
      count_documents_try db collection (opt_record filter)
  | json_patch_document collection id operations =>
      json_patch_document_try db collection id operations
  | list_collections => list_collections_try env
  | search_documents collection filters sort limit offset =>
      search_documents_try db collection filters sort limit offset
  | import_documents collection documents onConflict idField =>
      import_documents_try env collection documents onConflict idField
  | export_collection collection filter => export_collection_try env collection filter
  | get_schema collection => get_schema_try db collection
  | set_schema collection schema => set_schema_try db collection schema
  | remove_schema collection => remove_schema_try db collection
  | validate_document collection data => validate_document_try db collection data
  | list_versions collection id => list_versions_try env collection id
  | get_version collection id version => get_version_try env collection id version
  | restore_version collection id version =>
      restore_version_try env collection id version
  | diff_versions collection id from to => diff_versions_try env collection id from to
  | create_webhook collection url events description =>
      create_webhook_try env collection url events description
  | list_webhooks collection => list_webhooks_try env collection
  | get_webhook collection webhookId => get_webhook_try env collection webhookId
  | update_webhook collection webhookId url events description status =>
      update_webhook_try env collection webhookId url events description status
  | delete_webhook collection webhookId => delete_webhook_try env collection webhookId
  | test_webhook collection webhookId => test_webhook_try env collection webhookId
  | semantic_search collection query limit threshold filter =>
      semantic_search_try env collection query limit threshold filter
  | store_with_embedding collection data embed_field id =>
      store_with_embedding_try env collection data embed_field id
  end.

(** The [catch] clause of the handler of each tool. *)
Definition recover (c : call) (e : thrown) : ToolResponse :=
  match c with
  | create_document collection _ _ => create_document_catch collection e
  | get_document collection id => get_document_catch collection id e
  | list_documents collection _ _ _ _ _ => list_documents_catch collection e
  | update_document collection id _ => update_document_catch collection id e
  | patch_document collection id _ => patch_document_catch collection id e
  | delete_document collection id => delete_document_catch collection id e
  | count_documents collection _ => count_documents_catch collection e
  | json_patch_document collection id _ => json_patch_document_catch collection id e
  | list_collections => list_collections_catch e
  | search_documents collection _ _ _ _ => search_documents_catch collection e
  | import_documents collection _ _ _ => import_documents_catch collection e
  | export_collection collection _ => export_collection_catch collection e
  | get_schema collection => get_schema_catch collection e
  | set_schema collection _ => set_schema_catch collection e
  | remove_schema collection => remove_schema_catch collection e
  | validate_document collection _ => validate_document_catch collection e
  | list_versions collection id => list_versions_catch collection id e
  | get_version collection id version => get_version_catch collection id version e
  | restore_version collection id version =>
      restore_version_catch collection id version e
  | diff_versions collection id from to => diff_versions_catch collection id from to e
  | create_webhook collection _ _ _ => create_webhook_catch collection e
  | list_webhooks collection => list_webhooks_catch collection e
  | get_webhook collection webhookId => get_webhook_catch collection webhookId e
  | update_webhook collection webhookId _ _ _ _ =>
      update_webhook_catch collection webhookId e
  | delete_webhook collection webhookId => delete_webhook_catch collection webhookId e
  | test_webhook collection webhookId => test_webhook_catch collection webhookId e
  | semantic_search collection _ _ _ _ => semantic_search_catch collection e
  | store_with_embedding collection _ embed_field _ =>
      store_with_embedding_catch collection embed_field e
  end.

(** The property the catch clause of each tool reads first: [e.status]
    where it tests a status, [e.message] where it goes straight to its
    one [return error (...)]. *)
Definition first_read (c : call) : string :=
  match c with
  | list_documents _ _ _ _ _ _ | count_documents _ _ | list_collections
  | search_documents _ _ _ _ _ | get_schema _ | list_webhooks _ => "message"
  | _ => "status"
  end.

(** The handler registered for the tool: [try { ... } catch (err) { ... }]. *)
Definition handle (db : Credentials) (env : environment) (c : call)
  : M ToolResponse :=
  try_catch (attempt db env c)
    (fun err =>
       let* e := lift (read_caught (first_read c) err) in
       ret (recover c e)).

End Bridge.

(** ** Decision tables *)

(** The status codes each handler's catch clause tests, in the order it
    tests them, with the error code each maps to. *)
Definition decision_table (c : call) : list (Z * string) :=
  match c with
  | create_document _ _ _ =>
      [(409, "DOCUMENT_CONFLICT"); (413, "DOCUMENT_TOO_LARGE");
       (400, "VALIDATION_ERROR")]
  | get_document _ _ => [(404, "DOCUMENT_NOT_FOUND")]
  | list_documents _ _ _ _ _ _ => []
  | update_document _ _ _ => [(404, "DOCUMENT_NOT_FOUND"); (400, "VALIDATION_ERROR")]
  | patch_document _ _ _ => [(404, "DOCUMENT_NOT_FOUND"); (400, "VALIDATION_ERROR")]
  | delete_document _ _ => [(404, "DOCUMENT_NOT_FOUND")]
  | count_documents _ _ => []
  | json_patch_document _ _ _ =>
      [(404, "DOCUMENT_NOT_FOUND"); (409, "PATCH_CONFLICT");
       (400, "VALIDATION_ERROR")]
  | list_collections => []
  | search_documents _ _ _ _ _ => []
  | import_documents _ _ _ _ => [(413, "IMPORT_TOO_LARGE"); (409, "IMPORT_CONFLICT")]
  | export_collection _ _ => [(403, "EXPORT_LIMIT_EXCEEDED")]
  | get_schema _ => []
  | set_schema _ _ => [(400, "INVALID_SCHEMA")]
  | remove_schema _ => [(404, "SCHEMA_NOT_FOUND")]
  | validate_document _ _ => [(404, "SCHEMA_NOT_FOUND")]
  | list_versions _ _ => [(404, "DOCUMENT_NOT_FOUND")]
  | get_version _ _ _ => [(404, "VERSION_NOT_FOUND")]
  | restore_version _ _ _ => [(404, "VERSION_NOT_FOUND"); (400, "VALIDATION_ERROR")]
  | diff_versions _ _ _ _ => [(403, "PRO_FEATURE"); (404, "VERSION_NOT_FOUND")]
  | create_webhook _ _ _ _ => [(403, "WEBHOOK_LIMIT")]
  | list_webhooks _ => []
  | get_webhook _ _ => [(404, "WEBHOOK_NOT_FOUND")]
  | update_webhook _ _ _ _ _ _ => [(404, "WEBHOOK_NOT_FOUND")]
  | delete_webhook _ _ => [(404, "WEBHOOK_NOT_FOUND")]
  | test_webhook _ _ => [(404, "WEBHOOK_NOT_FOUND")]
  | semantic_search _ _ _ _ _ =>
      [(404, "COLLECTION_NOT_FOUND"); (400, "INVALID_SEARCH");
       (403, "SEARCH_NOT_AVAILABLE")]
  | store_with_embedding _ _ _ _ =>
      [(400, "VALIDATION_ERROR"); (413, "DOCUMENT_TOO_LARGE");
       (403, "EMBEDDING_NOT_AVAILABLE")]
  end.

(** The code of the final [return error (...)] of each catch clause. *)
Definition fallback_code (c : call) : string :=
  match c with
  | create_document _ _ _ => "CREATE_FAILED"
  | get_document _ _ => "GET_FAILED"
  | list_documents _ _ _ _ _ _ => "LIST_FAILED"
  | update_document _ _ _ => "UPDATE_FAILED"
  | patch_document _ _ _ => "PATCH_FAILED"
  | delete_document _ _ => "DELETE_FAILED"
  | count_documents _ _ => "COUNT_FAILED"
  | json_patch_document _ _ _ => "JSON_PATCH_FAILED"
  | list_collections => "LIST_COLLECTIONS_FAILED"
  | search_documents _ _ _ _ _ => "SEARCH_FAILED"
  | import_documents _ _ _ _ => "IMPORT_FAILED"
  | export_collection _ _ => "EXPORT_FAILED"
  | get_schema _ => "GET_SCHEMA_FAILED"
  | set_schema _ _ => "SET_SCHEMA_FAILED"
  | remove_schema _ => "REMOVE_SCHEMA_FAILED"
  | validate_document _ _ => "VALIDATE_FAILED"
  | list_versions _ _ => "LIST_VERSIONS_FAILED"
  | get_version _ _ _ => "GET_VERSION_FAILED"
  | restore_version _ _ _ => "RESTORE_VERSION_FAILED"
  | diff_versions _ _ _ _ => "DIFF_VERSIONS_FAILED"
  | create_webhook _ _ _ _ => "CREATE_WEBHOOK_FAILED"
  | list_webhooks _ => "LIST_WEBHOOKS_FAILED"
  | get_webhook _ _ => "GET_WEBHOOK_FAILED"
  | update_webhook _ _ _ _ _ _ => "UPDATE_WEBHOOK_FAILED"
  | delete_webhook _ _ => "DELETE_WEBHOOK_FAILED"
  | test_webhook _ _ => "TEST_WEBHOOK_FAILED"
  | semantic_search _ _ _ _ _ => "SEARCH_FAILED"
  | store_with_embedding _ _ _ _ => "STORE_EMBEDDING_FAILED"
  end.

(** The handlers that go through the SDK client built in [main]; the others
    call [resolveEnv] (or read [process.env] inline) and [fetch]. *)
Definition uses_sdk (c : call) : bool :=
  match c with
  | create_document _ _ _ | get_document _ _ | list_documents _ _ _ _ _ _
  | update_document _ _ _ | patch_document _ _ _ | delete_document _ _
  | count_documents _ _ | json_patch_document _ _ _
  | search_documents _ _ _ _ _
  | get_schema _ | set_schema _ _ | remove_schema _ | validate_document _ _ => true
  | _ => false
  end.

(** The status tested by the table, if [e] carries one of them. *)
Definition classified (c : call) (e : thrown) : bool :=
  existsb (fun sc => status_is e sc.1) (decision_table c).

(** The text of the single content block, and the error code it holds. *)
Definition response_text (r : ToolResponse) : option string :=
  match content r with
  | [b] => text b
  | _ => None
  end.

Definition decoded (r : ToolResponse) : option jsval :=
  match response_text r with
  | Some t => JSON_parse t
  | None => None
  end.

Definition error_code (payload : jsval) : jsval :=
  match payload with
  | JObj ps =>
      match obj_lookup "error" ps with
      | JObj es => obj_lookup "code" es
      | _ => JUndef
      end
  | _ => JUndef
  end.

(** ** index.ts: main *)

Inductive startup_event : Type :=
| console_error (message : string)
| console_error_value (message : string) (err : exception)
| process_exit (code : Z)
| new_JsonDB (db : Credentials)
| create_server
| stdio_connect
| http_create_server
| http_listen (port : number) (host : string)
| uncaught_exception (err : exception).

Definition missing_key_message : string :=
  "Error: JSONDB_API_KEY environment variable is required." +:+ nl +:+ nl
  +:+ "Set it in your MCP server configuration:" +:+ nl
  +:+ "  " +:+ String dquote "env" +:+ String dquote ": { "
  +:+ String dquote "JSONDB_API_KEY" +:+ String dquote ": "
  +:+ String dquote "jdb_sk_live_..." +:+ String dquote " }" +:+ nl +:+ nl
  +:+ "Get an API key from your jsondb.cloud dashboard.".

(** The number of bytes of the white space or line terminator that [s]
    starts with, [0] when it starts with none: the characters that
    [parseInt] skips ([StrWhiteSpaceChar]). *)
Definition space_length (s : string) : nat :=
  match s with
  | String c1 r1 =>
      let n1 := nat_of_ascii c1 in
      if (n1 <? 128)%nat then
        if ((n1 =? 32) || (9 <=? n1) && (n1 <=? 13))%nat then 1%nat else 0%nat
      else
        match r1 with
        | String c2 r2 =>
            let n2 := nat_of_ascii c2 in
            if ((n1 =? 194) && (n2 =? 160))%nat then 2%nat
            else
              match r2 with
              | String c3 _ =>
                  let n3 := nat_of_ascii c3 in
                  if ((n1 =? 225) && (n2 =? 154) && (n3 =? 128))%nat
                     || ((n1 =? 226) && (n2 =? 128)
                         && ((128 <=? n3) && (n3 <=? 138)
                             || (n3 =? 168) || (n3 =? 169) || (n3 =? 175)))%nat
                     || ((n1 =? 226) && (n2 =? 129) && (n3 =? 159))%nat
                     || ((n1 =? 227) && (n2 =? 128) && (n3 =? 128))%nat
                     || ((n1 =? 239) && (n2 =? 187) && (n3 =? 191))%nat
                  then 3%nat
                  else 0%nat
              | EmptyString => 0%nat
              end
        | EmptyString => 0%nat
        end
  | EmptyString => 0%nat
  end.

Fixpoint string_drop (n : nat) (s : string) : string :=
  match n, s with
  | S n, String _ r => string_drop n r
  | _, _ => s
  end.

Fixpoint trim_start (fuel : nat) (s : string) : string :=
  match fuel with
  | O => s
  | S fuel =>
      match space_length s with
      | O => s
      | n => trim_start fuel (string_drop n s)
      end
  end.

(** [parseInt (s, 10)]: leading white space and one sign are skipped, and
    the digits that follow are read up to the first other character;
    [NaN] when there is no digit. *)
Definition parseInt (s : string) : number :=
  let s := trim_start (String.length s) s in
  let '(negative, s) :=
    match s with
    | String c r =>
        if Ascii.eqb c "-" then (true, r)
        else if Ascii.eqb c "+" then (false, r)
        else (false, s)
    | EmptyString => (false, s)
    end in
  match span_digits s with
  | (Nil, _) => NaN
  | (u, _) =>
      match Z.of_uint u with
      | Zpos m => to_double negative m 0
      | _ => Zero negative
      end
  end.

(** What [httpServer.listen (port, host, callback)] does: it throws (as it
    does for a port that is no integer from 0 to 65535), or the server
    comes to listen and the callback runs, or the server emits an error
    (the address is in use, say), which nothing listens for. *)
Inductive listen_result : Type :=
| listening
| listen_throws (err : exception)
| listen_error (err : exception).

(** The credentials [main] builds the SDK client with; [None] when the key
    is missing or empty. *)
Definition main_credentials (env : environment) : option Credentials :=
  match env !! "JSONDB_API_KEY" with
  | None => None
  | Some key =>
      if String.eqb key "" then None
      else
        Some {| apiKey := key;
                project :=
                  env_or env "JSONDB_PROJECT" (env_or env "JSONDB_NAMESPACE" "v1");
                baseUrl := env_or env "JSONDB_BASE_URL" "https://api.jsondb.cloud" |}
  end.

(** What the process does from its start until it serves or exits:
    [connect] is the rejection of [server.connect (transport)], if it
    rejects, and [listen] what [httpServer.listen] does.  A rejection of
    [main ()], which is what an exception thrown inside it becomes, is
    caught at the bottom of the file.  [process.exit] ends the process, so
    nothing follows it; so does an error that nothing catches. *)
Definition main (env : environment) (connect : option exception)
    (listen : number -> string -> listen_result) : list startup_event :=
  let fatal (err : exception) :=
    [console_error_value "Fatal error starting MCP server:" err;
     process_exit 1] in
  match main_credentials env with
  | None => [console_error missing_key_message; process_exit 1]
  | Some db =>
      new_JsonDB db ::
      if String.eqb (env_or env "JSONDB_MCP_TRANSPORT" "stdio") "http" then
        let port := parseInt (env_or env "JSONDB_MCP_PORT" "3100") in
        let host := env_or env "JSONDB_MCP_HOST" "127.0.0.1" in
        http_create_server :: http_listen port host ::
        match listen port host with
        | listening =>
            [console_error ("MCP HTTP server listening on " +:+ host +:+ ":"
                              +:+ Number_toString port)]
        | listen_throws err => fatal err
        | listen_error err => [uncaught_exception err]
        end
      else
        create_server :: stdio_connect ::
        match connect with
        | None => []
        | Some err => fatal err
        end
  end.

(** A protocol session or a listener comes into being. *)
Definition opens_session (ev : startup_event) : bool :=
  match ev with
  | create_server | stdio_connect | http_create_server | http_listen _ _ => true
  | _ => false
  end.

(** The status the process ends with, if it ends; an uncaught exception
    ends it with status 1. *)
Fixpoint exit_status (t : list startup_event) : option Z :=
  match t with
  | [] => None
  | process_exit code :: _ => Some code
  | uncaught_exception _ :: _ => Some 1
  | _ :: r => exit_status r
  end.

(** The variables the credentials are resolved from. *)
Definition credential_variables : list string :=
  ["JSONDB_API_KEY"; "JSONDB_PROJECT"; "JSONDB_NAMESPACE"; "JSONDB_BASE_URL"].

(** ** The statements of the specification *)

(** The filter compiler in the words of the specification: a mapping from
    field names, later entries overwriting earlier ones. *)
Definition recognized_operators : list string :=
  ["neq"; "gt"; "gte"; "lt"; "lte"; "contains"; "in"; "exists"].

Definition compile_entry (f : filter_entry) : jsval :=
  if String.eqb (operator f) "eq" then value f
  else if existsb (String.eqb (operator f)) recognized_operators
       then JObj [("$" +:+ operator f, value f)]
       else value f.

Definition compile (filters : list filter_entry) : gmap string jsval :=
  fold_left (fun m f => <[field f := compile_entry f]> m) filters ∅.

(** The names under which [Object.prototype] holds something. *)
Definition inherited_names : list string :=
  "__proto__" :: map fst Object_prototype_functions.

(** Filters that stay clear of the inherited names. *)
Definition plain_filter (f : filter_entry) : Prop :=
  field f <> "__proto__" /\ ~ In (operator f) inherited_names.

(** The document list the specification gives for an export payload, where
    it gives one that the handler agrees with: an array; the array under
    [data]; nothing under [data]. *)
Definition export_list (payload : jsval) : option (list jsval) :=
  match payload with
  | JArr l => Some l
  | JUndef | JNull => None
  | _ =>
      match js_get payload "data" with
      | Return (JArr l) => Some l
      | Return JUndef | Return JNull => Some []
      | _ => None
      end
  end.

(** The document list in the words of the specification, for every payload. *)
Definition spec_export_list (payload : jsval) : jsval :=
  match payload with
  | JArr l => JArr l
  | JObj ps => if obj_has "data" ps then obj_lookup "data" ps else JArr []
  | _ => JArr []
  end.

Definition export_result (collection : string) (documents : list jsval) : jsval :=
  JObj [("collection", JStr collection);
        ("count", JNum (Z.of_nat (List.length documents)));
        ("documents", JArr documents)].

(** The code the decision table and the fallback give for a thrown value:
    that of the first status that matches. *)
Definition expected_code (c : call) (e : thrown) : string :=
  match find (fun sc => status_is e sc.1) (decision_table c) with
  | Some sc => sc.2
  | None => fallback_code c
  end.

(** [null] and [undefined] among the thrown values. *)
Definition nullish (x : exception) : bool :=
  match x with
  | Thrown _ => false
  | Thrown_null | Thrown_undefined => true
  end.

Definition throws_nullish {A} (o : Exc A) : bool :=
  match o with
  | Throw x => nullish x
  | Return _ => false
  end.


(** What the handler of [c] makes of a value [x] thrown in its try block,
    [o] being the outcome of the handler: the error of its catch clause,
    under the code of the first row of its table that matches and under
    its fallback code when none does; on [null] and [undefined], the
    [TypeError] of the first read of the catch clause. *)
Definition recovered (c : call) (x : exception) (o : Exc ToolResponse) : Prop :=
  match x with
  | Thrown e =>
      exists r payload,
        o = Return r
        /\ isError r = Some true
        /\ decoded r = Some payload
        /\ error_code payload
           = JStr (if classified c e then expected_code c e else fallback_code c)
  | Thrown_null =>
      o = Throw (type_error ("Cannot read properties of null (reading '"
                               +:+ first_read c +:+ "')"))
  | Thrown_undefined =>
      o = Throw (type_error ("Cannot read properties of undefined (reading '"
                               +:+ first_read c +:+ "')"))
  end.


(** A computation that, when it returns, returns a formatted success. *)
Definition formats_success (m : M ToolResponse) : Prop :=
  forall r, outcome m = Return r -> exists d, r = success d.

(** The request [apiFetch] and [webhookFetch] build. *)
Definition fetch_request (url apiKey method : string) (b : jsval) : request :=
  {| url := url;
     method := method;
     headers := json_headers apiKey;
     body := if negb (is_undefined b) && sends_body method
             then JSON_stringify b else None |}.

(** The mutating methods as the specification lists them: create, replace,
    partial update, and delete with a body. *)
Definition spec_sends_body (method : string) : Prop :=
  method = "POST" \/ method = "PUT" \/ method = "PATCH" \/ method = "DELETE".

(** The fields of the [update_webhook] body, in the words of the
    specification: the optional arguments that were supplied. *)
Definition supplied_fields (webhookUrl : option string)
    (events : option (list webhook_event)) (description : option string)
    (webhookStatus : option webhook_status) : list (string * jsval) :=
  match webhookUrl with Some u => [("url", JStr u)] | None => [] end
  ++ match events with Some evs => [("events", events_value evs)] | None => [] end
  ++ match description with Some d => [("description", JStr d)] | None => [] end
  ++ match webhookStatus with
     | Some s => [("status", JStr (webhook_status_name s))]
     | None => []
     end.

(** The statement of C5 as the specification has it: the body goes out
    exactly when one is supplied and the method is POST, PUT, PATCH or
    DELETE. *)
Definition body_sent_as_specified : Prop :=
  forall fetch url apiKey method b rq,
    issued (apiFetch fetch url apiKey method b) = [Fetched rq] ->
    (is_Some (body rq) <-> b <> JUndef /\ spec_sends_body method).

(** The statement of C7 as the specification has it: a supplied id makes
    the call a PUT. *)
Definition put_when_id_supplied : Prop :=
  forall fetch sdk db env collection data embed_field id rq,
    issued (handle fetch sdk db env
              (store_with_embedding collection data embed_field (Some id)))
    = [Fetched rq] ->
    method rq = "PUT".

(** The request [export_collection] builds for the query parameters
    [params]. *)
Definition export_request (env : environment) (collection : string)
    (params : list (string * string)) : request :=
  {| url := baseUrl (resolveEnv env) +:+ "/" +:+ project (resolveEnv env) +:+ "/"
              +:+ collection +:+ "/_export"
              +:+ query_suffix (params_toString params);
     method := "GET";
     headers := [("Authorization", "Bearer " +:+ apiKey (resolveEnv env));
                 ("Accept", "application/json")];
     body := None |}.

(** The statement of C8 as the specification has it, at one payload: the
    handler answers with [{collection, count, documents}], [documents] the
    list the specification names and [count] its length. *)
Definition export_as_specified (payload : jsval) : Prop :=
  forall fetch sdk db env collection filter params res,
    export_params filter = Return params ->
    fetch (export_request env collection params) = Resolved res ->
    res_ok res = true ->
    res_json res = Return payload ->
    exists n : Z,
      outcome (handle fetch sdk db env (export_collection collection filter))
      = Return (success (JObj [("collection", JStr collection);
                               ("count", JNum n);
                               ("documents", spec_export_list payload)]))
      /\ forall docs, spec_export_list payload = JArr docs ->
                      n = Z.of_nat (List.length docs).

(** The statement of C10 as the specification has it, in its last part:
    whenever the remote API answers the PUT with a 2xx status, the handler
    returns a success response. *)
Definition update_webhook_succeeds_on_2xx : Prop :=
  forall fetch sdk db env collection webhookId webhookUrl events description
         webhookStatus rq res,
    issued (handle fetch sdk db env
              (update_webhook collection webhookId webhookUrl events description
                 webhookStatus))
    = [Fetched rq] ->
    fetch rq = Resolved res ->
    res_ok res = true ->
    exists d,
      outcome (handle fetch sdk db env
                 (update_webhook collection webhookId webhookUrl events
                    description webhookStatus))
      = Return (success d).

(** Fixtures, after the mocks of the test suite. *)
Definition respond (res : response) : request -> fetch_result :=
  fun _ => Resolved res.

Definition ok_response (payload : jsval) : response :=
  {| res_status := 200; res_statusText := "OK"; res_json := Return payload |}.

(** A 200 reply whose body is empty: [res.json ()] rejects with a
    [SyntaxError], which has a message and no status. *)
Definition empty_ok_response : response :=
  {| res_status := 200; res_statusText := "OK";
     res_json := Throw (type_error "Unexpected end of JSON input") |}.

(** A listener as Node has it: [listen] throws for a port that is no
    integer from 0 to 65535, and otherwise the server comes to listen. *)
Definition valid_port (port : number) : bool :=
  match port with
  | Zero _ => true
  | Finite false m 0 => Z.pos m <=? 65535
  | _ => false
  end.

Definition bad_port : thrown :=
  {| e_status := JUndef;
     e_message := JStr "options.port should be >= 0 and < 65536." |}.

Definition node_listen (port : number) (host : string) : listen_result :=
  if valid_port port then listening else listen_throws bad_port.

(** A search result with scores: [0.875], [1.5e-7] and [2.5e+21]. *)
Definition search_hits : jsval :=
  JObj [("data",
         JArr [JObj [("_id", JStr "a1"); ("score", JNum (Finite false 875 (-3)))];
               JObj [("_id", JStr "a2"); ("score", JNum (Finite false 15 (-8)))];
               JObj [("_id", JStr "a3"); ("score", JNum (Finite false 25 20))]])].

Definition no_sdk : Credentials -> sdk_call -> Exc jsval :=
  fun _ _ => Throw (type_error "no SDK call expected").

Definition no_fetch : request -> fetch_result :=
  fun _ => Rejected (type_error "fetch failed").

(** An SDK whose calls are all rejected with [e], as [mockRejectedValue]
    sets one up in the tests. *)
Definition rejecting_sdk (e : thrown) : Credentials -> sdk_call -> Exc jsval :=
  fun _ _ => Throw e.


Definition mock_doc : jsval := JObj [("_id", JStr "abc"); ("name", JStr "test")].

(** A non-2xx response with the error body [{"error": message}]. *)
Definition failing_response (status : Z) (statusText message : string) : response :=
  {| res_status := status; res_statusText := statusText;
     res_json := Return (JObj [("error", JStr message)]) |}.

Definition test_db : Credentials :=
  {| apiKey := "jdb_sk_test_abc"; project := "test-project";
     baseUrl := "https://api.jsondb.cloud" |}.

Definition test_env : environment :=
  <["JSONDB_API_KEY" := "jdb_sk_test_abc"]>
    (<["JSONDB_PROJECT" := "test-project"]>
       (<["JSONDB_BASE_URL" := "https://api.jsondb.cloud"]> ∅)).

(** The statement of C6 as the specification has it: within one process, a
    change of the environment between two invocations of a handler does not
    change the requests it builds. *)
Definition credentials_fixed_at_startup : Prop :=
  forall fetch sdk env0 db env1 env2 c,
    main_credentials env0 = Some db ->
    issued (handle fetch sdk db env1 c) = issued (handle fetch sdk db env2 c).

(** The requests of the REST handlers are built from [resolveEnv env]. *)
(** An export whose filter holds a value that [String] cannot convert. *)
Definition unconvertible (c : call) : Prop :=
  exists collection filter x,
    c = export_collection collection filter /\ export_params filter = Throw x.

Definition built_from (c : Credentials) (rq : request) : Prop :=
  In ("Authorization", "Bearer " +:+ apiKey c) (headers rq)
  /\ exists path, url rq = baseUrl c +:+ "/" +:+ project c +:+ path.

(** * Further definitions *)

(** ** What the REST handlers throw *)

(** The value the non-2xx branch of a REST call ends in: the thrown
    [{status, message}], with the status text for a message when the body
    is not JSON or has no [error], or the [TypeError] of reading [error]
    off a body that is the JSON text [null]. *)
Definition thrown_for (res : response) : exception :=
  match res_json res with
  | Throw _ =>
      Thrown {| e_status := JNum (res_status res);
                e_message := JStr (res_statusText res) |}
  | Return b =>
      match js_get b "error" with
      | Return err =>
          Thrown {| e_status := JNum (res_status res);
                    e_message := js_or err (JStr (res_statusText res)) |}
      | Throw x => x
      end
  end.

(** The code a handler answers an HTTP status with: that of the first row
    of its table with the status, and its fallback code when there is
    none. *)
Definition status_code (c : call) (s : Z) : string :=
  match find (fun sc => s =? sc.1) (decision_table c) with
  | Some sc => sc.2
  | None => fallback_code c
  end.

(** The handlers whose REST call goes through [apiFetch], [webhookFetch]
    or [versionFetch]; [list_collections], [import_documents] and
    [export_collection] call [fetch] inline. *)
Definition via_helper (c : call) : bool :=
  match c with
  | list_versions _ _ | get_version _ _ _ | restore_version _ _ _
  | diff_versions _ _ _ _
  | create_webhook _ _ _ _ | list_webhooks _ | get_webhook _ _
  | update_webhook _ _ _ _ _ _ | delete_webhook _ _ | test_webhook _ _
  | semantic_search _ _ _ _ _ | store_with_embedding _ _ _ _ => true
  | _ => false
  end.

(** What a helper-based handler answers a 204 with. *)
Definition no_content_payload (c : call) : jsval :=
  match c with
  | delete_webhook collection webhookId =>
      JObj [("deleted", JBool true); ("webhookId", JStr webhookId);
            ("collection", JStr collection)]
  | _ => JObj [("ok", JBool true)]
  end.

(** An upstream reply with status [status] and the JSON body [payload]. *)
Definition json_response (status : Z) (statusText : string) (payload : jsval)
  : response :=
  {| res_status := status; res_statusText := statusText;
     res_json := Return payload |}.

(** A reply without a body, as [fetch] gives it for 204 No Content:
    [res.json ()] rejects on the empty text. *)
Definition no_content : response :=
  {| res_status := 204; res_statusText := "No Content";
     res_json := Throw (type_error "Unexpected end of JSON input") |}.

(** The REST-backed tools that hand the payload of the reply on as it is:
    all but [export_collection], which normalizes it, and [delete_webhook],
    which answers with a record of its own. *)
Definition passes_reply_on (c : call) : bool :=
  match c with
  | list_collections | import_documents _ _ _ _
  | list_versions _ _ | get_version _ _ _ | restore_version _ _ _
  | diff_versions _ _ _ _
  | create_webhook _ _ _ _ | list_webhooks _ | get_webhook _ _
  | update_webhook _ _ _ _ _ _ | test_webhook _ _
  | semantic_search _ _ _ _ _ | store_with_embedding _ _ _ _ => true
  | _ => false
  end.

(** The SDK-backed tools that hand the result of the SDK call on as it
    is. *)
Definition passes_result_on (c : call) : bool :=
  match c with
  | create_document _ _ _ | get_document _ _ | list_documents _ _ _ _ _ _
  | update_document _ _ _ | patch_document _ _ _ | json_patch_document _ _ _
  | search_documents _ _ _ _ _ => true
  | _ => false
  end.

(** The value [buildFilterObject] assigns for one entry: what the three
    assignments of its loop body have on their right-hand sides. *)
Definition entry_value (f : filter_entry) : jsval :=
  if String.eqb (operator f) "eq" then value f
  else
    match opMap_get (operator f) with
    | Some sdkOp => JObj [(sdkOp, value f)]
    | None => value f
    end.

(** The entry of a [search_documents] call as [buildFilterObject] gets it. *)
Definition search_entry (f : string * filter_operator * jsval) : filter_entry :=
  {| field := f.1.1; operator := filter_operator_name f.1.2; value := f.2 |}.

(** ** Query strings *)

(** The number of times [c] occurs in [s]. *)
Fixpoint count_char (c : ascii) (s : string) : nat :=
  match s with
  | EmptyString => O
  | String x r => ((if Ascii.eqb x c then 1 else 0) + count_char c r)%nat
  end.

(** The characters the form-urlencoded serializer produces: the ones it
    leaves alone, [+] for a space, and [%] with hexadecimal digits. *)
Definition query_safe (c : ascii) : bool :=
  let n := nat_of_ascii c in
  ((48 <=? n) && (n <=? 57) || (65 <=? n) && (n <=? 90)
   || (97 <=? n) && (n <=? 122)
   || (n =? 42) || (n =? 45) || (n =? 46) || (n =? 95)
   || (n =? 43) || (n =? 37))%nat.

(** ** index.ts: the HTTP listener *)

(** What the listener reads of an incoming request. *)
Record http_request : Type := { req_method : string; req_url : string }.

(** What the listener does with it: it writes a response itself, or hands
    the request to a server and a transport made for this request alone. *)
Inductive http_action : Type :=
| respond_json (status : Z) (headers : list (string * string)) (body : option string)
| serve_mcp.

(** The callback of [http.createServer]. *)
Definition http_handler (req : http_request) : http_action :=
  if String.eqb (req_method req) "GET" && String.eqb (req_url req) "/health" then
    respond_json 200 [("Content-Type", "application/json")]
      (JSON_stringify (JObj [("status", JStr "ok")]))
  else if String.eqb (req_url req) "/mcp" then serve_mcp
  else
    respond_json 404 [("Content-Type", "application/json")]
      (JSON_stringify (JObj [("error", JStr "Not found")])).

(** ** resources/collections.ts *)

(** One entry of the [contents] of a resource that was read. *)
Record resource_content : Type :=
  { uri : string; mimeType : string; content_text : option string }.

Record ResourceResult : Type := { contents : list resource_content }.

(** [{ contents: [{ uri, mimeType: "application/json",
                    text: JSON.stringify (payload, null, 2) }] }], the shape
    of every return statement of the two resource handlers. *)
Definition json_contents (uri : string) (payload : jsval) : ResourceResult :=
  {| contents :=
       [ {| uri := uri; mimeType := "application/json";
            content_text := JSON_stringify_2 payload |} ] |}.

Section Resources.

Variable fetch : request -> fetch_result.
Variable sdk : Credentials -> sdk_call -> Exc jsval.

(** The resource [jsondb://collections]. *)
Definition collections_list_resource (env : environment) : M ResourceResult :=
  try_catch
    (let apiKey := env_or env "JSONDB_API_KEY" "" in
     let project :=
       env_or env "JSONDB_PROJECT" (env_or env "JSONDB_NAMESPACE" "v1") in
     let baseUrl :=
       strip_trailing_slash
         (env_or env "JSONDB_BASE_URL" "https://api.jsondb.cloud") in
     let* res := do_fetch fetch {| url := baseUrl +:+ "/" +:+ project;
                                   method := "GET";
                                   headers := json_headers apiKey;
                                   body := None |} in
     if negb (res_ok res) then
       ret (json_contents "jsondb://collections"
              (JObj [("error",
                      JStr ("Failed to fetch collections: "
                              +:+ res_statusText res))]))
     else
       let* data := lift (res_json res) in
       ret (json_contents "jsondb://collections" data))
    (fun err =>
       let* e := lift (read_caught "message" err) in
       ret (json_contents "jsondb://collections"
              (JObj [("error",
                      js_or (e_message e) (JStr "Failed to fetch collections"))]))).

(** The resource template [jsondb://collections/{collection}/schema];
    [href] is [uri.href] and [param] is [params.collection], a string or a
    list of strings.  The name is computed before the [try] block. *)
Definition collection_schema_resource (db : Credentials) (href : string)
    (param : jsval) : M ResourceResult :=
  let* collection :=
    lift match param with JStr s => Return s | _ => to_String param end in
  try_catch
    (let* schema := call_sdk sdk db (Sdk_getSchema collection) in
     let result :=
       match schema with
       | JNull =>
           JObj [("collection", JStr collection); ("schema", JNull);
                 ("message",
                  JStr ("No schema is set for collection '" +:+ collection
                          +:+ "'. Any valid JSON document can be stored."))]
       | _ => JObj [("collection", JStr collection); ("schema", schema)]
       end in
     ret (json_contents href result))
    (fun err =>
       let* e := lift (read_caught "message" err) in
       ret (json_contents href
              (JObj [("error",
                      js_or (e_message e)
                        (JStr ("Failed to fetch schema for collection '"
                                 +:+ collection +:+ "'")))]))).

End Resources.

(** The text a resource answers with, when it answers with one entry. *)
Definition resource_text (r : ResourceResult) : option string :=
  match contents r with
  | [c] => content_text c
  | _ => None
  end.

(** ** JSON values *)

(** No key twice in a property list. *)
Fixpoint unique_keys (ps : list (string * jsval)) : bool :=
  match ps with
  | [] => true
  | (k, _) :: r => negb (obj_has k r) && unique_keys r
  end.

(** [Number::sameValue]. *)
Definition Number_sameValue (x y : number) : bool :=
  match x, y with
  | NaN, NaN => true
  | Infinity a, Infinity b | Zero a, Zero b => Bool.eqb a b
  | Finite a m e, Finite b m' e' => Bool.eqb a b && Pos.eqb m m' && Z.eqb e e'
  | _, _ => false
  end.

(** The numbers a JSON text denotes: zero, and every finite double, held
    by the digits it prints with. *)
Definition json_number (x : number) : bool :=
  match x with
  | NaN | Infinity _ => false
  | Zero negative => negb negative
  | Finite negative m e => Number_sameValue (to_double negative m e) x
  end.

(** The values a JSON text denotes: no [undefined] anywhere, numbers that
    a text denotes, and no object with a key twice. *)
Fixpoint json_value (v : jsval) : bool :=
  match v with
  | JUndef => false
  | JNum x => json_number x
  | JNull | JBool _ | JStr _ => true
  | JArr l =>
      (fix go (l : list jsval) : bool :=
         match l with
         | [] => true
         | x :: r => json_value x && go r
         end) l
  | JObj ps =>
      unique_keys ps
      && (fix go (ps : list (string * jsval)) : bool :=
            match ps with
            | [] => true
            | (_, x) :: r => json_value x && go r
            end) ps
  end.

(** ** JSON.stringify (value), read back *)

(** The compact text, with [undefined] shown as an array shows it. *)
Definition compact (v : jsval) : string :=
  match JSON_stringify v with Some t => t | None => "null" end.

Definition compact_items : list (string * jsval) -> list string :=
  fix go (ps : list (string * jsval)) : list string :=
    match ps with
    | [] => []
    | (k, x) :: r =>
        match JSON_stringify x with
        | Some t => (quote k +:+ ":" +:+ t) :: go r
        | None => go r
        end
    end.

Definition roundtrips_compact (v : jsval) : Prop :=
  forall rest fuel,
    delimited rest = true -> (psize v <= fuel)%nat ->
    parse_value fuel (compact v +:+ rest) = Some (to_json v, rest).

(** ** Registration *)

(** The names under which each [register...Tools] function registers its
    handlers with [server.tool], in the order of the calls. *)
Definition registerDocumentTools : list string :=
  ["create_document"; "get_document"; "list_documents"; "update_document";
   "patch_document"; "delete_document"; "count_documents"; "json_patch_document"].

Definition registerCollectionTools : list string :=
  ["list_collections"; "search_documents"; "import_documents"; "export_collection"].

Definition registerSchemaTools : list string :=
  ["get_schema"; "set_schema"; "remove_schema"; "validate_document"].

Definition registerVersionTools : list string :=
  ["list_versions"; "get_version"; "restore_version"; "diff_versions"].

Definition registerWebhookTools : list string :=
  ["create_webhook"; "list_webhooks"; "get_webhook"; "update_webhook";
   "delete_webhook"; "test_webhook"].

Definition registerVectorTools : list string :=
  ["semantic_search"; "store_with_embedding"].

(** The resources [registerCollectionResources] registers: name and URI
    or URI template. *)
Definition registerCollectionResources : list (string * string) :=
  [("collections-list", "jsondb://collections");
   ("collection-schema", "jsondb://collections/{collection}/schema")].

(** The tools of a server that [createServer] returns. *)
Definition createServer : list string :=
  registerDocumentTools ++ registerCollectionTools ++ registerSchemaTools
  ++ registerVersionTools ++ registerWebhookTools ++ registerVectorTools.

(** The name a tool call is dispatched under. *)
Definition tool_name (c : call) : string :=
  match c with
  | create_document _ _ _ => "create_document"
  | get_document _ _ => "get_document"
  | list_documents _ _ _ _ _ _ => "list_documents"
  | update_document _ _ _ => "update_document"
  | patch_document _ _ _ => "patch_document"
  | delete_document _ _ => "delete_document"
  | count_documents _ _ => "count_documents"
  | json_patch_document _ _ _ => "json_patch_document"
  | list_collections => "list_collections"
  | search_documents _ _ _ _ _ => "search_documents"
  | import_documents _ _ _ _ => "import_documents"
  | export_collection _ _ => "export_collection"
  | get_schema _ => "get_schema"
  | set_schema _ _ => "set_schema"
  | remove_schema _ => "remove_schema"
  | validate_document _ _ => "validate_document"
  | list_versions _ _ => "list_versions"
  | get_version _ _ _ => "get_version"
  | restore_version _ _ _ => "restore_version"
  | diff_versions _ _ _ _ => "diff_versions"
  | create_webhook _ _ _ _ => "create_webhook"
  | list_webhooks _ => "list_webhooks"
  | get_webhook _ _ => "get_webhook"
  | update_webhook _ _ _ _ _ _ => "update_webhook"
  | delete_webhook _ _ => "delete_webhook"
  | test_webhook _ _ => "test_webhook"
  | semantic_search _ _ _ _ _ => "semantic_search"
  | store_with_embedding _ _ _ _ => "store_with_embedding"
  end.

(** Induction over values, through the lists they nest. *)
Section jsval_induction.
Variable P : jsval -> Prop.
Hypothesis Hundef : P JUndef.
Hypothesis Hnull : P JNull.
Hypothesis Hbool : forall b, P (JBool b).
Hypothesis Hnum : forall x, P (JNum x).
Hypothesis Hstr : forall s, P (JStr s).
Hypothesis Harr : forall l, Forall P l -> P (JArr l).
Hypothesis Hobj : forall ps, Forall (fun kv => P kv.2) ps -> P (JObj ps).

Fixpoint jsval_ind (v : jsval) : P v :=
  match v with
  | JUndef => Hundef
  | JNull => Hnull
  | JBool b => Hbool b
  | JNum x => Hnum x
  | JStr s => Hstr s
  | JArr l =>
      Harr l ((fix go (l : list jsval) : Forall P l :=
                 match l with
                 | [] => List.Forall_nil P
                 | x :: r => List.Forall_cons P x r (jsval_ind x) (go r)
                 end) l)
  | JObj ps =>
      Hobj ps ((fix go (ps : list (string * jsval))
                  : Forall (fun kv => P kv.2) ps :=
                  match ps with
                  | [] => List.Forall_nil _
                  | kv :: r =>
                      List.Forall_cons (fun kv => P kv.2) kv r (jsval_ind kv.2) (go r)
                  end) ps)
  end.
End jsval_induction.


(** * Proofs *)

#[local] Arguments String.append !_ _ / : simpl nomatch.

(** ** JSON texts read back *)

Lemma append_assoc (a b c : string) : (a +:+ b) +:+ c = a +:+ (b +:+ c).
Proof. induction a as [|x a IH]; cbn; [reflexivity | congruence]. Qed.

Lemma append_nil_r (a : string) : a +:+ "" = a.
Proof. induction a as [|x a IH]; cbn; [reflexivity | congruence]. Qed.

Lemma length_append (a b : string) :
  String.length (a +:+ b) = (String.length a + String.length b)%nat.
Proof. induction a as [|x a IH]; cbn; [reflexivity | congruence]. Qed.

Lemma skip_ws_app (w s : string) : all_ws w = true -> skip_ws (w +:+ s) = skip_ws s.
Proof.
  induction w as [|c w IH]; simpl; [reflexivity|].
  intros H. apply andb_prop in H as [Hc Hw]. rewrite Hc. auto.
Qed.

Lemma all_ws_app (a b : string) :
  all_ws a = true -> all_ws b = true -> all_ws (a +:+ b) = true.
Proof.
  induction a as [|c a IH]; simpl; [auto|].
  intros H Hb. apply andb_prop in H as [Hc Hw]. rewrite Hc. simpl. auto.
Qed.

Lemma parse_string_escape_char (c : ascii) (x : string) :
  parse_string (escape_char c +:+ x) =
  match parse_string x with
  | Some (t, r) => Some (String c t, r)
  | None => None
  end.
Proof.
  destruct c as [[] [] [] [] [] [] [] []]; reflexivity.
Qed.

Lemma parse_string_quote (s rest : string) :
  parse_string (escape s +:+ String dquote rest) = Some (s, rest).
Proof.
  induction s as [|c s IH]; [reflexivity|].
  cbn [escape]. rewrite append_assoc, parse_string_escape_char, IH. reflexivity.
Qed.

Lemma serialize_arr ind l :
  serialize ind (JArr l) = Some (wrap "[" "]" ind (map (render (ind +:+ "  ")) l)).
Proof. reflexivity. Qed.

Lemma serialize_obj ind ps :
  serialize ind (JObj ps) = Some (wrap "{" "}" ind (member_items (ind +:+ "  ") ps)).
Proof. reflexivity. Qed.

Lemma to_json_obj ps : to_json (JObj ps) = JObj (obj_of_entries (json_entries ps)).
Proof. reflexivity. Qed.

Lemma psize_arr l : psize (JArr l) = S (elements_size l).
Proof. reflexivity. Qed.

Lemma psize_obj ps : psize (JObj ps) = S (members_size ps).
Proof. reflexivity. Qed.

Lemma serialize_none ind v : serialize ind v = None <-> v = JUndef.
Proof.
  split; [|intros ->; reflexivity].
  destruct v as [| |[]|[]| | |]; try discriminate; reflexivity.
Qed.

(** *** Numbers *)

Lemma delimited_span rest : delimited rest = true -> span_digits rest = (Nil, rest).
Proof.
  destruct rest as [|c r]; [reflexivity|].
  destruct c as [[] [] [] [] [] [] [] []]; try discriminate; reflexivity.
Qed.

Lemma span_digits_text d rest :
  span_digits rest = (Nil, rest) ->
  span_digits (NilEmpty.string_of_uint d +:+ rest) = (d, rest).
Proof.
  intros H. induction d; cbn; [exact H|..]; now rewrite IHd.
Qed.

Lemma nzhead_not_D0 u u' : nzhead u <> D0 u'.
Proof. induction u; cbn; try discriminate; assumption. Qed.

Lemma to_uint_head p : forall u, Pos.to_uint p <> D0 u.
Proof.
  intros u Hu.
  pose proof (Unsigned.to_of (Pos.to_uint p)) as H.
  rewrite Unsigned.of_to in H. cbn in H.
  rewrite Hu in H. rewrite unorm_D0 in H.
  unfold unorm in H. destruct (nzhead u) eqn:E;
    try (eapply nzhead_not_D0; rewrite E; symmetry; exact H).
  injection H as ->. apply (Unsigned.to_uint_nonzero p). exact Hu.
Qed.

Lemma of_uint_pos p : Z.of_uint (Pos.to_uint p) = Zpos p.
Proof. unfold Z.of_uint. now rewrite Unsigned.of_to. Qed.

(** *** Digit strings *)

Lemma app_digit :
  forall a b,
    Decimal.app (D0 a) b = D0 (Decimal.app a b)
    /\ Decimal.app (D1 a) b = D1 (Decimal.app a b)
    /\ Decimal.app (D2 a) b = D2 (Decimal.app a b)
    /\ Decimal.app (D3 a) b = D3 (Decimal.app a b)
    /\ Decimal.app (D4 a) b = D4 (Decimal.app a b)
    /\ Decimal.app (D5 a) b = D5 (Decimal.app a b)
    /\ Decimal.app (D6 a) b = D6 (Decimal.app a b)
    /\ Decimal.app (D7 a) b = D7 (Decimal.app a b)
    /\ Decimal.app (D8 a) b = D8 (Decimal.app a b)
    /\ Decimal.app (D9 a) b = D9 (Decimal.app a b).
Proof.
  intros a b.
  repeat split; apply to_list_inj; cbn [to_list]; now rewrite !app_spec.
Qed.

Lemma starts_literal_pos p : starts_literal (Pos.to_uint p).
Proof. split; [apply Unsigned.to_uint_nonnil | apply to_uint_head]. Qed.

Lemma starts_literal_app a b :
  starts_literal (Decimal.app a b) -> a <> Nil -> starts_literal a.
Proof.
  intros [Hn Hz] Ha. split; [exact Ha|].
  intros u' ->. destruct (app_digit u' b) as [E _].
  exact (Hz _ E).
Qed.

Lemma starts_literal_app_l a b :
  starts_literal a -> starts_literal (Decimal.app a b).
Proof.
  intros [Hn Hz].
  destruct a; [congruence | exfalso; eapply Hz; reflexivity |..];
    match goal with
    | |- starts_literal (Decimal.app (?D ?a) ?b) =>
        let H := fresh in
        pose proof (app_digit a b) as H;
        repeat match type of H with _ /\ _ => destruct H as [? H] end;
        match goal with
        | E : Decimal.app (D a) b = _ |- _ => rewrite E
        | _ => rewrite H
        end
    end; split; intros; discriminate.
Qed.

Lemma starts_literal_leading u :
  starts_literal u -> u <> Nil /\ leading_zero u = false.
Proof.
  intros [Hn Hz]. split; [exact Hn|]. destruct u; try reflexivity.
  exfalso. eapply Hz. reflexivity.
Qed.

Lemma nb_digits_pos p : (0 < nb_digits (Pos.to_uint p))%nat.
Proof.
  pose proof (Unsigned.to_uint_nonnil p).
  destruct (Pos.to_uint p); cbn; [congruence|..]; lia.
Qed.

Lemma nb_digits_nonnil u : (0 < nb_digits u)%nat -> u <> Nil.
Proof. intros H ->. cbn in H. lia. Qed.

Lemma split_digits (j : nat) (d : uint) :
  (j <= nb_digits d)%nat ->
  Decimal.app (del_tail (nb_digits d - j) d) (del_head j d) = d
  /\ nb_digits (del_head j d) = (nb_digits d - j)%nat.
Proof.
  intros H. split.
  - pose proof (app_del_tail_head (nb_digits d - j) d ltac:(lia)) as E.
    replace (nb_digits d - (nb_digits d - j))%nat with j in E by lia.
    exact E.
  - pose proof (nb_digits_del_head_sub d (nb_digits d - j) ltac:(lia)) as E.
    replace (nb_digits d - (nb_digits d - j))%nat with j in E by lia.
    exact E.
Qed.

Lemma of_uint_iter_D0 j d : Z.of_uint (Nat.iter j D0 d) = Z.of_uint d.
Proof.
  induction j; [reflexivity|].
  change (Nat.iter (S j) D0 d) with (D0 (Nat.iter j D0 d)). exact IHj.
Qed.

Lemma rev_app_zeros d j :
  Decimal.rev (Decimal.app d (Nat.iter j D0 Nil)) = Nat.iter j D0 (Decimal.rev d).
Proof.
  apply to_list_inj. rewrite rev_spec, app_spec.
  assert (Hz : forall x, to_list (Nat.iter j D0 x) = repeat d0 j ++ to_list x).
  { intros x. induction j; [reflexivity|].
    change (Nat.iter (S j) D0 x) with (D0 (Nat.iter j D0 x)).
    cbn [to_list repeat]. rewrite IHj. reflexivity. }
  rewrite !Hz, rev_spec. cbn [to_list]. rewrite app_nil_r.
  rewrite rev_app_distr, rev_repeat. reflexivity.
Qed.

Lemma of_lu_iter_D0 j d :
  Unsigned.of_lu (Nat.iter j D0 d) = (10 ^ N.of_nat j * Unsigned.of_lu d)%N.
Proof.
  induction j.
  - change (Nat.iter 0 D0 d) with d. change (N.of_nat 0) with 0%N.
    rewrite N.pow_0_r. lia.
  - change (Nat.iter (S j) D0 d) with (D0 (Nat.iter j D0 d)).
    cbn [Unsigned.of_lu]. rewrite IHj, Nat2N.inj_succ, N.pow_succ_r'. lia.
Qed.

Lemma of_uint_app_zeros d j :
  Z.of_uint (Decimal.app d (Nat.iter j D0 Nil)) = Z.of_uint d * 10 ^ Z.of_nat j.
Proof.
  unfold Z.of_uint.
  rewrite !Unsigned.of_uint_alt, rev_app_zeros, of_lu_iter_D0.
  rewrite N2Z.inj_mul, N2Z.inj_pow, nat_N_Z. cbn. lia.
Qed.

(** *** The parts of a literal *)

Lemma parse_fraction_none rest : delimited rest = true -> parse_fraction rest = Some (Nil, rest).
Proof.
  destruct rest as [|c r]; [reflexivity|].
  destruct c as [[] [] [] [] [] [] [] []]; try discriminate; reflexivity.
Qed.

Lemma parse_exponent_none rest : delimited rest = true -> parse_exponent rest = Some (0, rest).
Proof.
  destruct rest as [|c r]; [reflexivity|].
  destruct c as [[] [] [] [] [] [] [] []]; try discriminate; reflexivity.
Qed.

Lemma span_digits_nonnil u rest (P : Type) (a : P) (f : uint -> string -> P) :
  u <> Nil ->
  match (u, rest) with (Nil, _) => a | (x, r) => f x r end = f u rest.
Proof. destruct u; [congruence|..]; reflexivity. Qed.

Lemma parse_fraction_digits frac rest :
  frac <> Nil -> span_digits rest = (Nil, rest) ->
  parse_fraction ("." +:+ NilEmpty.string_of_uint frac +:+ rest) = Some (frac, rest).
Proof.
  intros Hf Hr. cbn. rewrite span_digits_text by exact Hr.
  destruct frac; [congruence|..]; reflexivity.
Qed.

Lemma parse_exponent_digits x rest :
  delimited rest = true ->
  parse_exponent ("e" +:+ (if 0 <=? x then "+" else "-") +:+ Z_to_string (Z.abs x) +:+ rest)
  = Some (x, rest).
Proof.
  intros Hr. pose proof (delimited_span _ Hr) as Hs.
  destruct x as [|p|p]; cbn; unfold Z_to_string, Z.abs.
  - cbn. rewrite Hs. reflexivity.
  - rewrite span_digits_text by exact Hs.
    pose proof (Unsigned.to_uint_nonnil p) as Hn. pose proof (of_uint_pos p) as Hv.
    destruct (Pos.to_uint p); [congruence|..]; now rewrite Hv.
  - rewrite span_digits_text by exact Hs.
    pose proof (Unsigned.to_uint_nonnil p) as Hn. pose proof (of_uint_pos p) as Hv.
    destruct (Pos.to_uint p); [congruence|..]; now rewrite Hv.
Qed.

Lemma parse_unsigned_parts negative int frac ex s s1 s2 s3 x :
  span_digits s = (int, s1) -> int <> Nil /\ leading_zero int = false ->
  parse_fraction s1 = Some (frac, s2) ->
  parse_exponent s2 = Some (ex, s3) ->
  number_of_literal negative int frac ex = x ->
  parse_unsigned negative s = Some (x, s3).
Proof.
  intros Hs [Hn Hl] Hf He <-. unfold parse_unsigned. rewrite Hs.
  rewrite Hl, Hf, He.
  destruct int; [congruence|..]; reflexivity.
Qed.

Lemma no_digit_point s : span_digits ("." +:+ s) = (Nil, "." +:+ s).
Proof. reflexivity. Qed.

Lemma no_digit_e s : span_digits ("e" +:+ s) = (Nil, "e" +:+ s).
Proof. reflexivity. Qed.

(** *** Reading a decimal *)

Lemma to_double_integer negative p :
  Z.pos p <= 2 ^ 53 -> to_double negative p 0 = Finite negative p 0.
Proof.
  intros H. unfold to_double.
  change (400 <? 0) with false. cbn match.
  destruct (0 + Z.of_nat (nb_digits (Pos.to_uint p)) <? -400) eqn:E;
    [apply Z.ltb_lt in E; lia|].
  change (scaled 10 (Z.pos p) 1 (- 0)) with (Z.pos p, 1).
  cbn match. change (1 =? 1) with true. cbn [andb].
  destruct (Z.pos p <=? 2 ^ 53) eqn:E'; [reflexivity|].
  apply Z.leb_gt in E'. lia.
Qed.

Lemma to_double_shift negative m e :
  0 <= e <= 21 ->
  to_double negative (Z.to_pos (Z.pos m * 10 ^ e)) 0 = to_double negative m e.
Proof.
  intros He. unfold to_double.
  change (400 <? 0) with false. cbn match.
  destruct (0 + Z.of_nat (nb_digits (Pos.to_uint (Z.to_pos (Z.pos m * 10 ^ e)))) <? -400) eqn:E;
    [apply Z.ltb_lt in E; lia|].
  destruct (400 <? e) eqn:E1; [apply Z.ltb_lt in E1; lia|].
  destruct (e + Z.of_nat (nb_digits (Pos.to_uint m)) <? -400) eqn:E2;
    [apply Z.ltb_lt in E2; lia|].
  assert (Hp : 0 < Z.pos m * 10 ^ e).
  { apply Z.mul_pos_pos; [lia|]. apply Z.pow_pos_nonneg; lia. }
  assert (Hs : scaled 10 (Z.pos m) 1 (- e) = (Z.pos m * 10 ^ e, 1)).
  { unfold scaled. destruct e as [|q|q]; [|reflexivity|lia].
    cbn. f_equal. lia. }
  rewrite Hs.
  change (scaled 10 (Z.pos (Z.to_pos (Z.pos m * 10 ^ e))) 1 (- 0))
    with (Z.pos (Z.to_pos (Z.pos m * 10 ^ e)), 1).
  rewrite Z2Pos.id by exact Hp. reflexivity.
Qed.

(** The Number that a literal with the digits of [m] denotes. *)
Lemma number_of_literal_digits negative int frac ex m :
  Decimal.app int frac = Pos.to_uint m ->
  number_of_literal negative int frac ex
  = to_double negative m (ex - Z.of_nat (nb_digits frac)).
Proof.
  intros E. unfold number_of_literal. now rewrite E, of_uint_pos.
Qed.

Lemma parse_decimal_text negative m e rest :
  delimited rest = true ->
  parse_unsigned negative (decimal_text m e +:+ rest)
  = Some (to_double negative m e, rest).
Proof.
  intros Hr. pose proof (delimited_span _ Hr) as Hs.
  unfold decimal_text.
  set (d := Pos.to_uint m).
  pose proof (starts_literal_pos m) as Hl. fold d in Hl.
  pose proof (nb_digits_pos m) as Hk. fold d in Hk.
  set (k := Z.of_nat (nb_digits d)).
  assert (Hk' : 0 < k) by (unfold k; lia).
  destruct ((k <=? k + e) && (k + e <=? 21)) eqn:C1.
  { (* the digits and zeros *)
    apply andb_prop in C1 as [Ha Hb].
    apply Z.leb_le in Ha. apply Z.leb_le in Hb.
    replace (k + e - k) with e by lia.
    eapply parse_unsigned_parts.
    - apply span_digits_text, Hs.
    - apply starts_literal_leading, starts_literal_app_l, Hl.
    - apply parse_fraction_none, Hr.
    - apply parse_exponent_none, Hr.
    - rewrite <- (to_double_shift negative m e) by lia.
      unfold number_of_literal. rewrite DecimalFacts.app_nil_r, of_uint_app_zeros.
      rewrite Z2Nat.id by lia. unfold d. rewrite of_uint_pos.
      assert (Hp : 0 < Z.pos m * 10 ^ e).
      { apply Z.mul_pos_pos; [lia|]. apply Z.pow_pos_nonneg; lia. }
      destruct (Z.pos m * 10 ^ e) as [|q|q] eqn:Eq; [lia| |lia].
      reflexivity. }
  destruct ((0 <? k + e) && (k + e <=? 21)) eqn:C2.
  { (* a point inside the digits *)
    apply andb_prop in C2 as [Ha Hb].
    apply Z.ltb_lt in Ha. apply Z.leb_le in Hb.
    apply andb_false_iff in C1.
    assert (He : e < 0).
    { destruct C1 as [C|C]; apply Z.leb_gt in C; lia. }
    destruct (split_digits (Z.to_nat (k + e)) d ltac:(unfold k in *; lia)) as [Hsplit Hnb].
    replace (nb_digits d - Z.to_nat (k + e))%nat with (Z.to_nat (k - (k + e))) in Hsplit
      by (unfold k; lia).
    rewrite !append_assoc.
    eapply parse_unsigned_parts.
    - apply span_digits_text, no_digit_point.
    - eapply starts_literal_leading, starts_literal_app; [rewrite Hsplit; exact Hl|].
      intros E. rewrite E, DecimalFacts.app_nil_l in Hsplit.
      rewrite Hsplit in Hnb. unfold k in *. lia.
    - apply parse_fraction_digits; [|exact Hs].
      apply nb_digits_nonnil. rewrite Hnb. unfold k in *. lia.
    - apply parse_exponent_none, Hr.
    - rewrite (number_of_literal_digits _ _ _ _ m Hsplit), Hnb.
      f_equal. unfold k. lia. }
  destruct ((-6 <? k + e) && (k + e <=? 0)) eqn:C3.
  { (* zeros after the point *)
    apply andb_prop in C3 as [Ha Hb].
    apply Z.ltb_lt in Ha. apply Z.leb_le in Hb.
    change (("0." +:+ ?x) +:+ rest)
      with (NilEmpty.string_of_uint (D0 Nil) +:+ "." +:+ x +:+ rest).
    eapply parse_unsigned_parts.
    - apply span_digits_text, no_digit_point.
    - split; [discriminate | reflexivity].
    - apply parse_fraction_digits; [|exact Hs].
      apply nb_digits_nonnil. rewrite nb_digits_iter_D0. lia.
    - apply parse_exponent_none, Hr.
    - unfold number_of_literal.
      destruct (app_digit Nil (Nat.iter (Z.to_nat (- (k + e))) D0 d)) as [E0 _].
      rewrite E0, DecimalFacts.app_nil_l.
      change (Z.of_uint (D0 ?x)) with (Z.of_uint x).
      rewrite of_uint_iter_D0. unfold d at 1. rewrite of_uint_pos.
      rewrite nb_digits_iter_D0. f_equal. unfold k. lia. }
  (* exponent form *)
  destruct (split_digits 1 d ltac:(lia)) as [Hsplit Hnb].
  replace (nb_digits d - 1)%nat with (Z.to_nat (k - 1)) in Hsplit by (unfold k; lia).
  destruct (k =? 1) eqn:K1.
  - apply Z.eqb_eq in K1.
    assert (Hd : del_head 1 d = Nil).
    { apply nb_digits_0. rewrite Hnb. unfold k in *. lia. }
    rewrite Hd, DecimalFacts.app_nil_r in Hsplit.
    rewrite Hsplit, !append_assoc.
    change ("" +:+ ?x) with x.
    eapply parse_unsigned_parts.
    + apply span_digits_text, no_digit_e.
    + apply starts_literal_leading, Hl.
    + reflexivity.
    + apply parse_exponent_digits, Hr.
    + rewrite (number_of_literal_digits _ _ _ _ m (DecimalFacts.app_nil_r _)).
      f_equal. cbn [nb_digits Z.of_nat]. lia.
  - apply Z.eqb_neq in K1.
    rewrite !append_assoc.
    eapply parse_unsigned_parts.
    + apply span_digits_text, no_digit_point.
    + eapply starts_literal_leading, starts_literal_app; [rewrite Hsplit; exact Hl|].
      intros E. rewrite E, DecimalFacts.app_nil_l in Hsplit.
      rewrite Hsplit in Hnb. unfold k in *. lia.
    + apply parse_fraction_digits; [|apply no_digit_e].
      apply nb_digits_nonnil. rewrite Hnb. unfold k in *. lia.
    + apply parse_exponent_digits, Hr.
    + rewrite (number_of_literal_digits _ _ _ _ m Hsplit), Hnb.
      f_equal. unfold k. lia.
Qed.

Lemma parse_number_unsigned s x r :
  parse_unsigned false s = Some (x, r) -> parse_number s = Some (x, r).
Proof.
  intros H. destruct s as [|c s]; [discriminate|].
  unfold parse_number. destruct (Ascii.eqb c "-") eqn:E; [|exact H].
  apply Ascii.eqb_eq in E. subst c. discriminate.
Qed.

Lemma parse_number_zero rest :
  delimited rest = true -> parse_number ("0" +:+ rest) = Some (Zero false, rest).
Proof.
  intros Hr. apply parse_number_unsigned.
  change ("0" +:+ rest) with (NilEmpty.string_of_uint (D0 Nil) +:+ rest).
  eapply parse_unsigned_parts.
  - apply span_digits_text, delimited_span, Hr.
  - split; [discriminate | reflexivity].
  - apply parse_fraction_none, Hr.
  - apply parse_exponent_none, Hr.
  - reflexivity.
Qed.

(** The text of a finite number reads as the double nearest to it. *)
Lemma parse_number_toString negative m e rest :
  delimited rest = true ->
  parse_number (Number_toString (Finite negative m e) +:+ rest)
  = Some (to_double negative m e, rest).
Proof.
  intros Hr. cbn [Number_toString]. destruct negative.
  - change (("-" +:+ ?x) +:+ rest) with (String "-" (x +:+ rest)).
    change (parse_number (String "-" ?y)) with (parse_unsigned true y).
    apply parse_decimal_text, Hr.
  - change ("" +:+ ?x) with x.
    apply parse_number_unsigned, parse_decimal_text, Hr.
Qed.

(** *** Integers *)

Lemma of_uint_acc_ge l :
  forall acc, Z.pos acc * 10 ^ Z.of_nat (nb_digits l) <= Z.pos (Pos.of_uint_acc l acc).
Proof.
  induction l; intros acc; cbn [nb_digits Pos.of_uint_acc];
    [cbn; lia | ..];
    rewrite Nat2Z.inj_succ, Z.pow_succ_r by lia;
    match goal with
    | |- _ <= Z.pos (Pos.of_uint_acc _ ?a) => specialize (IHl a)
    end;
    pose proof (Z.pow_nonneg 10 (Z.of_nat (nb_digits l)) ltac:(lia));
    nia.
Qed.

Lemma nb_digits_bound p :
  Z.pos p < 10 ^ 21 -> (nb_digits (Pos.to_uint p) <= 21)%nat.
Proof.
  intros H.
  pose proof (Unsigned.of_to p) as E.
  pose proof (to_uint_head p) as Hh.
  destruct (Pos.to_uint p) as [|l|l|l|l|l|l|l|l|l|l];
    [cbn; lia | exfalso; eapply Hh; reflexivity | ..];
    cbn [Pos.of_uint nb_digits] in *; injection E as E;
    match type of E with
    | Pos.of_uint_acc _ ?a = _ => pose proof (of_uint_acc_ge l a) as G
    end;
    rewrite E in G;
    destruct (Nat.le_gt_cases (nb_digits l) 20) as [L|L]; try lia;
    pose proof (Z.pow_le_mono_r 10 21 (Z.of_nat (nb_digits l)) ltac:(lia) ltac:(lia));
    lia.
Qed.

Lemma decimal_text_integer p :
  Z.pos p < 10 ^ 21 ->
  decimal_text p 0 = NilEmpty.string_of_uint (Pos.to_uint p).
Proof.
  intros H. pose proof (nb_digits_bound p H) as Hb.
  unfold decimal_text.
  set (k := Z.of_nat (nb_digits (Pos.to_uint p))).
  assert (C : (k <=? k + 0) && (k + 0 <=? 21) = true).
  { apply andb_true_intro; split; apply Z.leb_le; unfold k; lia. }
  rewrite C. replace (k + 0 - k) with 0 by lia.
  change (Nat.iter (Z.to_nat 0) D0 Nil) with Nil.
  now rewrite DecimalFacts.app_nil_r.
Qed.

(** An integer below [10 ^ 21] prints as its decimal digits. *)
Lemma Number_toString_integer (n : Z) :
  Z.abs n < 10 ^ 21 -> Number_toString n = Z_to_string n.
Proof.
  intros H. destruct n as [|p|p]; [reflexivity|..];
    cbn [of_Z Number_toString Z_to_string];
    rewrite decimal_text_integer by (cbn [Z.abs] in H; exact H); reflexivity.
Qed.

(** An integer of at most [2 ^ 53] in size reads back as itself. *)
Lemma parse_number_integer (n : Z) rest :
  Z.abs n <= 2 ^ 53 -> delimited rest = true ->
  parse_number (Number_toString n +:+ rest) = Some (of_Z n, rest).
Proof.
  intros H Hr. destruct n as [|p|p].
  - apply parse_number_zero, Hr.
  - cbn [of_Z]. rewrite parse_number_toString by exact Hr.
    now rewrite to_double_integer.
  - cbn [of_Z]. rewrite parse_number_toString by exact Hr.
    now rewrite to_double_integer.
Qed.

(** *** The text of a number inside a JSON text *)

Lemma decimal_text_head m e :
  exists c t, decimal_text m e = String c t /\ digit_of c <> None.
Proof.
  pose proof (parse_decimal_text false m e "" eq_refl) as H.
  unfold parse_unsigned in H.
  destruct (decimal_text m e) as [|c t]; [discriminate|].
  exists c, t. split; [reflexivity|].
  intros E. cbn [String.append span_digits] in H. rewrite E in H. discriminate.
Qed.

Lemma digit_not_delimiter c :
  digit_of c <> None -> is_ws c = false /\ Ascii.eqb c "]" = false.
Proof.
  destruct c as [[] [] [] [] [] [] [] []]; intros H; try (now split);
    exfalso; apply H; reflexivity.
Qed.

Lemma number_text_head x :
  exists c t, number_text x = String c t
              /\ is_ws c = false /\ Ascii.eqb c "]" = false.
Proof.
  destruct x as [|negative|negative|negative m e]; cbn [number_text Number_toString];
    eauto.
  destruct (decimal_text_head m e) as (c & t & E & Hc).
  destruct negative; cbn [String.append]; rewrite E; [eauto|].
  destruct (digit_not_delimiter c Hc). eauto.
Qed.

Lemma parse_value_number fuel c t :
  match digit_of c with Some _ => True | None => c = "-"%char end ->
  parse_value (S fuel) (String c t)
  = match parse_number (String c t) with
    | Some (x, r) => Some (JNum x, r)
    | None => None
    end.
Proof.
  destruct c as [[] [] [] [] [] [] [] []]; intros H;
    try discriminate H; reflexivity.
Qed.

Lemma parse_value_number_text fuel x rest :
  delimited rest = true ->
  parse_value (S fuel) (number_text x +:+ rest) = Some (to_json (JNum x), rest).
Proof.
  intros Hr. destruct x as [|negative|negative|negative m e];
    cbn [number_text to_json]; try reflexivity.
  - change (Number_toString (Zero negative) +:+ rest) with (String "0" rest).
    rewrite parse_value_number by exact I.
    change (String "0" rest) with ("0" +:+ rest).
    now rewrite parse_number_zero.
  - pose proof (parse_number_toString negative m e rest Hr) as Hp.
    cbn [Number_toString] in *.
    destruct (decimal_text_head m e) as (c & t & E & Hc).
    rewrite E in *. destruct negative; cbn [String.append] in *.
    + rewrite parse_value_number by reflexivity. now rewrite Hp.
    + rewrite parse_value_number by (destruct (digit_of c); [exact I|congruence]).
      now rewrite Hp.
Qed.

Lemma serialize_num ind x : serialize ind (JNum x) = Some (number_text x).
Proof. reflexivity. Qed.

(** *** Values *)

Lemma quote_app k s : quote k +:+ s = String dquote (escape k +:+ String dquote s).
Proof. unfold quote. cbn. now rewrite append_assoc. Qed.

Lemma uint_string_head p :
  exists c t, NilEmpty.string_of_uint (Pos.to_uint p) = String c t
              /\ is_ws c = false /\ Ascii.eqb c "]" = false.
Proof.
  pose proof (Unsigned.to_uint_nonnil p) as Hn.
  destruct (Pos.to_uint p); [congruence|..]; cbn; eauto.
Qed.

Lemma wrap_head o c ind items :
  exists t, wrap (String o "") c ind items = String o t.
Proof. unfold wrap. destruct items; cbn; eauto. Qed.

Lemma render_head ind v :
  exists c t, render ind v = String c t
              /\ is_ws c = false /\ Ascii.eqb c "]" = false.
Proof.
  destruct v as [| |[]|x|s|l|ps]; unfold render;
    try rewrite serialize_num; cbn [serialize]; eauto.
  - apply number_text_head.
  - edestruct (wrap_head "[" "]") as [t ->]. eauto.
  - edestruct (wrap_head "{" "}") as [t ->]. eauto.
Qed.

Lemma parse_value_ws fuel w s :
  all_ws w = true -> parse_value fuel (w +:+ s) = parse_value fuel s.
Proof.
  intros H. destruct fuel; [reflexivity|].
  cbn [parse_value]. now rewrite skip_ws_app.
Qed.

Lemma parse_elements_ws fuel w s :
  all_ws w = true -> parse_elements fuel (w +:+ s) = parse_elements fuel s.
Proof.
  intros H. destruct fuel; [reflexivity|].
  cbn [parse_elements]. now rewrite parse_value_ws.
Qed.

Lemma parse_members_ws fuel w s :
  all_ws w = true -> parse_members fuel (w +:+ s) = parse_members fuel s.
Proof.
  intros H. destruct fuel; [reflexivity|].
  cbn [parse_members]. now rewrite skip_ws_app.
Qed.

Lemma all_ws_indent ind : all_ws ind = true -> all_ws (nl +:+ ind) = true.
Proof. intros H. cbn. exact H. Qed.

Lemma all_ws_deeper ind : all_ws ind = true -> all_ws (ind +:+ "  ") = true.
Proof. intros H. now apply all_ws_app. Qed.

Lemma skip_ws_close ind c rest :
  all_ws ind = true -> is_ws c = false ->
  skip_ws (nl +:+ ind +:+ String c rest) = String c rest.
Proof.
  intros H Hc. rewrite <- append_assoc.
  rewrite skip_ws_app by now apply all_ws_indent.
  cbn. now rewrite Hc.
Qed.

Lemma parse_elements_more fuel s v r :
  parse_value fuel s = Some (v, String "," r) ->
  parse_elements (S fuel) s =
  match parse_elements fuel r with
  | Some (vs, r') => Some (v :: vs, r')
  | None => None
  end.
Proof. intros H. cbn [parse_elements]. rewrite H. reflexivity. Qed.

Lemma parse_elements_last fuel s v w r :
  all_ws w = true ->
  parse_value fuel s = Some (v, w +:+ String "]" r) ->
  parse_elements (S fuel) s = Some ([v], r).
Proof.
  intros Hw H. cbn [parse_elements]. rewrite H.
  rewrite skip_ws_app by assumption. reflexivity.
Qed.

Lemma parse_elements_join ind ind' rest x l :
  all_ws ind = true -> all_ws ind' = true ->
  Forall roundtrips (x :: l) ->
  forall fuel, (elements_size (x :: l) <= fuel)%nat ->
  parse_elements fuel
    (join ("," +:+ nl +:+ ind') (map (render ind') (x :: l))
       +:+ (nl +:+ ind) +:+ String "]" rest)
  = Some (map to_json (x :: l), rest).
Proof.
  intros Hind Hind'. revert x.
  induction l as [|y l IH]; intros x HF fuel Hfuel.
  - apply Forall_cons_1 in HF as [Hx _].
    destruct fuel as [|fuel]; [cbn in Hfuel; lia|].
    cbn [map join].
    apply parse_elements_last with (w := nl +:+ ind).
    + now apply all_ws_indent.
    + apply Hx; [assumption|reflexivity|cbn in Hfuel; lia].
  - apply Forall_cons_1 in HF as [Hx HF].
    destruct fuel as [|fuel]; [cbn in Hfuel; lia|].
    change (map (render ind') (x :: y :: l))
      with (render ind' x :: map (render ind') (y :: l)).
    change (join ?sep (?a :: map ?f (y :: l)))
      with (a +:+ sep +:+ join sep (map f (y :: l))).
    rewrite (parse_elements_more fuel _ (to_json x)
               ((nl +:+ ind') +:+ join ("," +:+ nl +:+ ind') (map (render ind') (y :: l))
                  +:+ (nl +:+ ind) +:+ String "]" rest)).
    + rewrite parse_elements_ws by now apply all_ws_indent.
      rewrite (IH y HF fuel); [reflexivity|].
      cbn in Hfuel. cbn. lia.
    + rewrite !append_assoc.
      change ("," +:+ ?s) with (String "," s).
      rewrite <- !append_assoc. rewrite !append_assoc.
      apply Hx; [assumption|reflexivity|cbn in Hfuel; lia].
Qed.

Lemma parse_members_more fuel k s v r :
  parse_value fuel s = Some (v, String "," r) ->
  parse_members (S fuel) (quote k +:+ ":" +:+ s) =
  match parse_members fuel r with
  | Some (kvs, r') => Some ((k, v) :: kvs, r')
  | None => None
  end.
Proof.
  intros H. rewrite quote_app. cbn [parse_members skip_ws].
  change (is_ws dquote) with false. cbv iota.
  change (Ascii.eqb dquote dquote) with true. cbv iota.
  rewrite parse_string_quote.
  change (skip_ws (":" +:+ s)) with (String ":" s).
  change (Ascii.eqb ":" ":") with true. cbv iota.
  rewrite H. reflexivity.
Qed.

Lemma parse_members_last fuel k s v w r :
  all_ws w = true ->
  parse_value fuel s = Some (v, w +:+ String "}" r) ->
  parse_members (S fuel) (quote k +:+ ":" +:+ s) = Some ([(k, v)], r).
Proof.
  intros Hw H. rewrite quote_app. cbn [parse_members skip_ws].
  change (is_ws dquote) with false. cbv iota.
  change (Ascii.eqb dquote dquote) with true. cbv iota.
  rewrite parse_string_quote.
  change (skip_ws (":" +:+ s)) with (String ":" s).
  change (Ascii.eqb ":" ":") with true. cbv iota.
  rewrite H. rewrite skip_ws_app by assumption. reflexivity.
Qed.

Lemma member_items_nil ind ps : member_items ind ps = [] -> json_entries ps = [].
Proof.
  induction ps as [|[k x] ps IH]; [reflexivity|].
  cbn [member_items json_entries].
  destruct x as [| |b|x| | |]; cbn [serialize]; try discriminate;
    try (destruct b; discriminate); try (destruct x; discriminate).
  exact IH.
Qed.

Lemma parse_members_join ind ind' rest ps :
  all_ws ind = true -> all_ws ind' = true ->
  Forall (fun kv => roundtrips kv.2) ps ->
  member_items ind' ps <> [] ->
  forall fuel, (members_size ps <= fuel)%nat ->
  parse_members fuel
    (join ("," +:+ nl +:+ ind') (member_items ind' ps)
       +:+ (nl +:+ ind) +:+ String "}" rest)
  = Some (json_entries ps, rest).
Proof.
  intros Hind Hind'.
  induction ps as [|[k x] ps IH]; intros HF Hne fuel Hfuel; [now destruct Hne|].
  apply Forall_cons_1 in HF as [Hx HF]. cbn [snd] in Hx.
  destruct (serialize ind' x) as [t|] eqn:Ex.
  - assert (Hr : render ind' x = t) by (unfold render; now rewrite Ex).
    assert (Hj : json_entries ((k, x) :: ps) = (k, to_json x) :: json_entries ps).
    { destruct x; try reflexivity. discriminate. }
    assert (Hs : (S (psize x + members_size ps) <= fuel)%nat).
    { destruct x; try exact Hfuel. discriminate. }
    rewrite Hj. clear Hj.
    destruct fuel as [|fuel]; [lia|].
    cbn [member_items]. rewrite Ex.
    destruct (member_items ind' ps) as [|i items] eqn:Ei.
    + cbn [join]. rewrite (member_items_nil _ _ Ei).
      rewrite !append_assoc.
      apply parse_members_last with (w := nl +:+ ind).
      * now apply all_ws_indent.
      * change (" " +:+ ?s) with (String " " s).
        rewrite <- Hr.
        change (String " " ?s) with (" " +:+ s).
        rewrite parse_value_ws by reflexivity.
        rewrite !append_assoc.
        apply Hx; [assumption|reflexivity|lia].
    + change (join ?sep (?a :: i :: items))
        with (a +:+ sep +:+ join sep (i :: items)).
      rewrite !append_assoc.
      change (": " +:+ ?s) with (":" +:+ " " +:+ s).
      rewrite (parse_members_more fuel k _ (to_json x)
                 ((nl +:+ ind') +:+ join ("," +:+ nl +:+ ind') (i :: items)
                    +:+ (nl +:+ ind) +:+ String "}" rest)).
      * rewrite parse_members_ws by now apply all_ws_indent.
        rewrite IH; [reflexivity|assumption|congruence|lia].
      * rewrite parse_value_ws by reflexivity.
        rewrite <- Hr.
        change ("," +:+ ?s) with (String "," s).
        rewrite <- !append_assoc. rewrite !append_assoc.
        apply Hx; [assumption|reflexivity|lia].
  - apply serialize_none in Ex. subst x.
    cbn [member_items serialize json_entries] in *.
    apply IH; assumption.
Qed.

Lemma wrap_cons o c ind i items rest :
  wrap o c ind (i :: items) +:+ rest
  = o +:+ ((nl +:+ (ind +:+ "  "))
      +:+ (join ("," +:+ nl +:+ (ind +:+ "  ")) (i :: items)
      +:+ ((nl +:+ ind) +:+ (c +:+ rest)))).
Proof. unfold wrap. now rewrite !append_assoc. Qed.

Theorem parse_value_render : forall v, roundtrips v.
Proof.
  induction v as [| |b|n|s|l IH|ps IH] using jsval_ind;
    intros ind rest fuel Hind Hrest Hfuel;
    (destruct fuel as [|fuel]; [cbn in Hfuel; lia|]).
  - reflexivity.
  - reflexivity.
  - destruct b; reflexivity.
  - unfold render. rewrite serialize_num.
    apply parse_value_number_text, Hrest.
  - unfold render. cbn [serialize to_json]. rewrite quote_app.
    cbn [parse_value skip_ws]. change (is_ws dquote) with false. cbv iota.
    change (Ascii.eqb dquote "n") with false.
    change (Ascii.eqb dquote "t") with false.
    change (Ascii.eqb dquote "f") with false.
    change (Ascii.eqb dquote dquote) with true. cbv iota.
    now rewrite parse_string_quote.
  - unfold render. rewrite serialize_arr. cbn [to_json].
    destruct l as [|x l]; [reflexivity|].
    change (map (render (ind +:+ "  ")) (x :: l))
      with (render (ind +:+ "  ") x :: map (render (ind +:+ "  ")) l).
    rewrite wrap_cons.
    change ("[" +:+ ?s) with (String "[" s).
    cbn [parse_value skip_ws]. change (is_ws "[") with false. cbv iota.
    change (Ascii.eqb "[" "n") with false.
    change (Ascii.eqb "[" "t") with false.
    change (Ascii.eqb "[" "f") with false.
    change (Ascii.eqb "[" dquote) with false.
    change (Ascii.eqb "[" "[") with true. cbv iota.
    rewrite skip_ws_app by (apply all_ws_indent; now apply all_ws_deeper).
    change (join ?sep (?a :: map ?f l)) with (join sep (map f (x :: l))).
    assert (Hh : exists c t,
               join ("," +:+ nl +:+ ind +:+ "  ") (map (render (ind +:+ "  ")) (x :: l))
                 +:+ (nl +:+ ind) +:+ "]" +:+ rest = String c t
               /\ is_ws c = false /\ Ascii.eqb c "]" = false).
    { destruct (render_head (ind +:+ "  ") x) as (c & t & E & Hc & Hb).
      cbn [map]. destruct l; cbn [join map]; rewrite E; cbn; eauto. }
    destruct Hh as (c & t & E & Hc & Hb).
    rewrite E. cbn [skip_ws]. rewrite Hc, Hb. rewrite <- E.
    rewrite parse_elements_ws by (apply all_ws_indent; now apply all_ws_deeper).
    change ("]" +:+ rest) with (String "]" rest).
    rewrite parse_elements_join;
      [reflexivity|assumption|now apply all_ws_deeper|exact IH|].
    rewrite psize_arr in Hfuel. lia.
  - unfold render. rewrite serialize_obj, to_json_obj.
    destruct (member_items (ind +:+ "  ") ps) as [|i items] eqn:Ei.
    + rewrite (member_items_nil _ _ Ei). reflexivity.
    + rewrite wrap_cons.
      change ("{" +:+ ?s) with (String "{" s).
      cbn [parse_value skip_ws]. change (is_ws "{") with false. cbv iota.
      change (Ascii.eqb "{" "n") with false.
      change (Ascii.eqb "{" "t") with false.
      change (Ascii.eqb "{" "f") with false.
      change (Ascii.eqb "{" dquote) with false.
      change (Ascii.eqb "{" "[") with false.
      change (Ascii.eqb "{" "{") with true. cbv iota.
      rewrite skip_ws_app by (apply all_ws_indent; now apply all_ws_deeper).
      assert (Hh : exists t,
                 join ("," +:+ nl +:+ ind +:+ "  ") (i :: items)
                   +:+ (nl +:+ ind) +:+ "}" +:+ rest = String dquote t).
      { assert (Hq : exists t, i = String dquote t).
        { clear -Ei. induction ps as [|[k x] ps IHps]; [discriminate|].
          cbn [member_items] in Ei.
          destruct (serialize (ind +:+ "  ") x); [|now apply IHps].
          injection Ei as <- _. eauto. }
        destruct Hq as [t ->]. destruct items; cbn; eauto. }
      destruct Hh as (t & E).
      rewrite E. cbn [skip_ws]. change (is_ws dquote) with false. cbv iota.
      change (Ascii.eqb dquote "}") with false. cbv iota. rewrite <- E.
      rewrite parse_members_ws by (apply all_ws_indent; now apply all_ws_deeper).
      change ("}" +:+ rest) with (String "}" rest).
      rewrite <- Ei.
      rewrite parse_members_join;
        [reflexivity|assumption|now apply all_ws_deeper|exact IH|congruence|].
      rewrite psize_obj in Hfuel. lia.
Qed.

(** *** Enough fuel *)

Lemma join_length_elements sep (f : jsval -> string) l :
  (1 <= String.length sep)%nat ->
  Forall (fun x => (psize x <= String.length (f x))%nat) l ->
  (elements_size l <= String.length (join sep (map f l)) + 1)%nat.
Proof.
  intros Hsep. induction l as [|x l IH]; intros HF; [cbn; lia|].
  apply Forall_cons_1 in HF as [Hx HF]. specialize (IH HF).
  destruct l as [|y l].
  - cbn in *. lia.
  - change (map f (x :: y :: l)) with (f x :: map f (y :: l)).
    change (join sep (f x :: map f (y :: l)))
      with (f x +:+ sep +:+ join sep (map f (y :: l))).
    rewrite !length_append. cbn [elements_size] in *. lia.
Qed.

Lemma quote_length k : (2 <= String.length (quote k))%nat.
Proof. unfold quote. cbn [String.length]. rewrite length_append. cbn. lia. Qed.

Lemma join_length_members sep ind ps :
  (1 <= String.length sep)%nat ->
  Forall (fun kv => forall i, (psize kv.2 <= String.length (render i kv.2))%nat) ps ->
  (members_size ps <= String.length (join sep (member_items ind ps)) + 1)%nat.
Proof.
  intros Hsep. induction ps as [|[k x] ps IH]; intros HF; [cbn; lia|].
  apply Forall_cons_1 in HF as [Hx HF]. specialize (IH HF). cbn [snd] in Hx.
  cbn [member_items].
  destruct (serialize ind x) as [t|] eqn:Ex.
  - assert (Hr : render ind x = t) by (unfold render; now rewrite Ex).
    assert (Hs : members_size ((k, x) :: ps) = S (psize x + members_size ps)).
    { destruct x; try reflexivity. discriminate. }
    rewrite Hs. specialize (Hx ind). rewrite Hr in Hx.
    pose proof (quote_length k) as Hq.
    destruct (member_items ind ps) as [|i items].
    + cbn [join] in *. rewrite !length_append. cbn in IH |- *. lia.
    + change (join sep (?a :: i :: items))
        with (a +:+ sep +:+ join sep (i :: items)).
      rewrite !length_append. cbn [String.length]. lia.
  - apply serialize_none in Ex. subst x. exact IH.
Qed.

Lemma wrap_length o c ind items :
  (String.length (join ("," +:+ nl +:+ (ind +:+ "  ")) items) + 2
   <= String.length (wrap (String o "") (String c "") ind items))%nat.
Proof.
  unfold wrap. destruct items as [|i items]; [cbn; lia|].
  rewrite !length_append. cbn [String.length]. lia.
Qed.

Lemma psize_le_length v : forall ind, (psize v <= String.length (render ind v))%nat.
Proof.
  induction v as [| |b|n|s|l IH|ps IH] using jsval_ind; intros ind.
  - cbn. lia.
  - cbn. lia.
  - destruct b; cbn; lia.
  - unfold render. rewrite serialize_num. cbn [psize].
    destruct (number_text_head n) as (c & t & E & _). rewrite E. cbn. lia.
  - unfold render. cbn [serialize psize]. pose proof (quote_length s). lia.
  - unfold render. rewrite serialize_arr, psize_arr.
    pose proof (wrap_length "[" "]" ind (map (render (ind +:+ "  ")) l)) as Hw.
    pose proof (join_length_elements ("," +:+ nl +:+ (ind +:+ "  "))
                  (render (ind +:+ "  ")) l) as Hj.
    assert (Hl : (elements_size l
                  <= String.length
                       (join ("," +:+ nl +:+ (ind +:+ "  "))
                          (map (render (ind +:+ "  ")) l)) + 1)%nat).
    { apply Hj; [cbn; lia|].
      eapply Forall_impl; [exact IH|]. intros x Hx. apply Hx. }
    lia.
  - unfold render. rewrite serialize_obj, psize_obj.
    pose proof (wrap_length "{" "}" ind (member_items (ind +:+ "  ") ps)) as Hw.
    pose proof (join_length_members ("," +:+ nl +:+ (ind +:+ "  "))
                  (ind +:+ "  ") ps) as Hj.
    assert (Hl : (members_size ps
                  <= String.length
                       (join ("," +:+ nl +:+ (ind +:+ "  "))
                          (member_items (ind +:+ "  ") ps)) + 1)%nat).
    { apply Hj; [cbn; lia|exact IH]. }
    lia.
Qed.

(** [JSON.parse] reads back what [JSON.stringify] wrote. *)
Theorem JSON_parse_stringify v t :
  JSON_stringify_2 v = Some t -> JSON_parse t = Some (to_json v).
Proof.
  unfold JSON_stringify_2, JSON_parse. intros H.
  assert (Hr : render "" v = t) by (unfold render; now rewrite H).
  pose proof (psize_le_length v "") as Hs. rewrite Hr in Hs.
  pose proof (parse_value_render v "" "" (S (String.length t))
                eq_refl eq_refl) as Hp.
  rewrite Hr, append_nil_r in Hp. rewrite Hp by lia. reflexivity.
Qed.

(** ** JSON values *)

Lemma obj_has_In k ps : obj_has k ps = true <-> In k (map fst ps).
Proof.
  induction ps as [|[k' v] ps IH]; cbn; [split; [discriminate|tauto]|].
  rewrite orb_true_iff, String.eqb_eq, IH. intuition congruence.
Qed.

Lemma obj_set_fresh k v ps : obj_has k ps = false -> obj_set k v ps = ps ++ [(k, v)].
Proof.
  induction ps as [|[k' v'] ps IH]; [reflexivity|].
  cbn. intros H. apply orb_false_elim in H as [H1 H2].
  rewrite H1. now rewrite IH.
Qed.

Lemma obj_has_app k a b : obj_has k (a ++ b) = obj_has k a || obj_has k b.
Proof.
  induction a as [|[k' v] a IH]; [reflexivity|]. cbn. rewrite IH.
  now rewrite orb_assoc.
Qed.

Lemma fold_obj_set_unique ps : forall acc,
  unique_keys ps = true ->
  (forall k, obj_has k ps = true -> obj_has k acc = false) ->
  fold_left (fun acc kv => obj_set kv.1 kv.2 acc) ps acc = acc ++ ps.
Proof.
  induction ps as [|[k v] ps IH]; intros acc Hu Hd; [now rewrite app_nil_r|].
  cbn in Hu. apply andb_prop in Hu as [Hk Hu]. apply negb_true_iff in Hk.
  cbn [fold_left fst snd].
  rewrite obj_set_fresh by (apply Hd; cbn; now rewrite String.eqb_refl).
  rewrite IH; [now rewrite <- app_assoc|exact Hu|].
  intros k' Hk'. rewrite obj_has_app. cbn.
  rewrite Hd by (cbn; rewrite Hk'; apply orb_true_r).
  destruct (String.eqb k' k) eqn:E; [|reflexivity].
  apply String.eqb_eq in E. subst k'. congruence.
Qed.

Lemma obj_of_entries_unique ps : unique_keys ps = true -> obj_of_entries ps = ps.
Proof.
  intros H. unfold obj_of_entries. now rewrite fold_obj_set_unique.
Qed.

Lemma json_value_arr l : json_value (JArr l) = forallb json_value l.
Proof. reflexivity. Qed.

Lemma json_value_obj ps :
  json_value (JObj ps) = unique_keys ps && forallb (fun kv => json_value kv.2) ps.
Proof.
  cbn [json_value]. f_equal.
  induction ps as [|[k x] ps IH]; [reflexivity|]. cbn. now rewrite IH.
Qed.

(** A JSON value is its own normal form. *)
Lemma Number_sameValue_eq x y : Number_sameValue x y = true -> x = y.
Proof.
  destruct x as [|a|a|a m e], y as [|b|b|b m' e']; cbn; try discriminate;
    try reflexivity.
  - intros H. apply Bool.eqb_prop in H. now subst.
  - intros H. apply Bool.eqb_prop in H. now subst.
  - intros H. apply andb_prop in H as [H He]. apply andb_prop in H as [Hs Hm].
    apply Bool.eqb_prop in Hs. apply Pos.eqb_eq in Hm. apply Z.eqb_eq in He.
    now subst.
Qed.

Lemma to_json_number x : json_number x = true -> to_json (JNum x) = JNum x.
Proof.
  destruct x as [|a|a|a m e]; cbn [json_number to_json]; try discriminate.
  - destruct a; [discriminate|reflexivity].
  - intros H. now rewrite (Number_sameValue_eq _ _ H).
Qed.

(** Every integer of at most [2 ^ 53] in size is a number of JSON. *)
Lemma json_number_integer (n : Z) : Z.abs n <= 2 ^ 53 -> json_number n = true.
Proof.
  intros H. destruct n as [|p|p]; [reflexivity|..]; cbn [of_Z json_number];
    rewrite to_double_integer by (cbn [Z.abs] in H; exact H); cbn;
    now rewrite Pos.eqb_refl.
Qed.

Lemma to_json_value v : json_value v = true -> to_json v = v.
Proof.
  induction v as [| |b|n|s|l IH|ps IH] using jsval_ind; try reflexivity.
  - discriminate.
  - apply to_json_number.
  - rewrite json_value_arr. intros H. cbn [to_json]. f_equal.
    induction l as [|x l IHl]; [reflexivity|].
    cbn in H. apply andb_prop in H as [Hx Hl].
    apply Forall_cons_1 in IH as [IHx IH].
    cbn [map]. rewrite (IHx Hx), (IHl IH Hl). reflexivity.
  - rewrite json_value_obj. intros H. apply andb_prop in H as [Hu Hv].
    rewrite to_json_obj.
    assert (He : json_entries ps = ps).
    { clear Hu. induction ps as [|[k x] ps IHps]; [reflexivity|].
      cbn in Hv. apply andb_prop in Hv as [Hx Hv].
      apply Forall_cons_1 in IH as [IHx IH]. cbn [snd] in IHx.
      cbn [json_entries]. rewrite (IHps IH Hv).
      destruct x; try discriminate Hx; rewrite <- (IHx Hx) at 2; reflexivity. }
    rewrite He. now rewrite obj_of_entries_unique.
Qed.

(** ** The two response shapes *)

Lemma stringify_2_obj ps : exists t, JSON_stringify_2 (JObj ps) = Some t.
Proof. unfold JSON_stringify_2. rewrite serialize_obj. eauto. Qed.

Lemma to_json_error_payload code m sug :
  m <> JUndef ->
  to_json (error_payload code m sug) = error_payload code (to_json m) sug.
Proof. intros Hm. destruct m; try reflexivity. congruence. Qed.

Lemma truthy_defined m : truthy m = true -> m <> JUndef.
Proof. intros H ->. discriminate. Qed.

Lemma js_or_truthy a b : truthy b = true -> truthy (js_or a b) = true.
Proof. intros H. unfold js_or. destruct (truthy a) eqn:E; assumption. Qed.

Lemma success_shape d :
  List.length (content (success d)) = 1%nat /\ isError (success d) = None.
Proof. split; reflexivity. Qed.

Lemma error_shape code m sug :
  m <> JUndef ->
  List.length (content (error code m sug)) = 1%nat
  /\ isError (error code m sug) = Some true
  /\ decoded (error code m sug) = Some (error_payload code (to_json m) sug).
Proof.
  intros Hm. split; [reflexivity|]. split; [reflexivity|].
  unfold decoded, response_text, error. cbn [content text].
  destruct (stringify_2_obj
              [("error",
                JObj [("code", JStr code); ("message", m);
                      ("suggestion", JStr sug)])]) as [t Ht].
  unfold error_payload. rewrite Ht.
  rewrite (JSON_parse_stringify _ _ Ht).
  f_equal. now apply to_json_error_payload.
Qed.

(** A success response decodes to the value it was given. *)
Lemma success_decodes d : d <> JUndef -> decoded (success d) = Some (to_json d).
Proof.
  intros Hd. unfold decoded, response_text, success. cbn [content text].
  destruct (JSON_stringify_2 d) as [t|] eqn:E.
  - now apply JSON_parse_stringify.
  - apply serialize_none in E. contradiction.
Qed.

Lemma error_code_payload code m sug :
  error_code (error_payload code m sug) = JStr code.
Proof. reflexivity. Qed.

(** ** Catch clauses *)

Ltac by_status :=
  repeat match goal with
         | |- context [status_is ?e ?n] => destruct (status_is e n)
         end.

Ltac error_found :=
  do 2 eexists; split; [reflexivity|];
  first [reflexivity | apply js_or_truthy; reflexivity].

Lemma recover_expected c e :
  exists m sug, recover c e = error (expected_code c e) m sug /\ truthy m = true.
Proof.
  destruct c; unfold expected_code; cbn [recover decision_table fallback_code find fst snd];
    unfold create_document_catch, get_document_catch, list_documents_catch,
      update_document_catch, patch_document_catch, delete_document_catch,
      count_documents_catch, json_patch_document_catch, list_collections_catch,
      search_documents_catch, import_documents_catch, export_collection_catch,
      get_schema_catch, set_schema_catch, remove_schema_catch,
      validate_document_catch, list_versions_catch, get_version_catch,
      restore_version_catch, diff_versions_catch, create_webhook_catch,
      list_webhooks_catch, get_webhook_catch, update_webhook_catch,
      delete_webhook_catch, test_webhook_catch, semantic_search_catch,
      store_with_embedding_catch, webhook_not_found;
    by_status; error_found.
Qed.

Lemma Number_equal_of_Z (a b : Z) : Number_equal a b = (a =? b).
Proof.
  destruct a, b; cbn; try reflexivity; now rewrite andb_true_r.
Qed.

Lemma status_is_eq e (s : Z) n : e_status e = JNum s -> status_is e n = (s =? n).
Proof. unfold status_is. intros ->. apply Number_equal_of_Z. Qed.


Lemma expected_code_fallback c e :
  classified c e = false -> expected_code c e = fallback_code c.
Proof.
  unfold classified, expected_code. intros H.
  destruct (find _ _) as [sc|] eqn:E; [|reflexivity].
  apply find_some in E as [Hin Hsc].
  assert (existsb (fun sc => status_is e sc.1) (decision_table c) = true).
  { apply existsb_exists. eauto. }
  congruence.
Qed.

(** ** try and catch *)

Lemma handle_outcome fetch sdk db env c :
  outcome (handle fetch sdk db env c) =
  match outcome (attempt fetch sdk db env c) with
  | Return r => Return r
  | Throw x =>
      match read_caught (first_read c) x with
      | Return e => Return (recover c e)
      | Throw y => Throw y
      end
  end.
Proof.
  unfold handle, try_catch, outcome.
  destruct (attempt fetch sdk db env c) as [t [r|[| |e]]]; reflexivity.
Qed.

Lemma handle_return fetch sdk db env c r :
  outcome (attempt fetch sdk db env c) = Return r ->
  outcome (handle fetch sdk db env c) = Return r.
Proof. intros H. now rewrite handle_outcome, H. Qed.

Lemma handle_caught fetch sdk db env c (e : thrown) :
  outcome (attempt fetch sdk db env c) = Throw e ->
  outcome (handle fetch sdk db env c) = Return (recover c e).
Proof. intros H. now rewrite handle_outcome, H. Qed.

Lemma handle_recovered fetch sdk db env c x :
  outcome (attempt fetch sdk db env c) = Throw x ->
  recovered c x (outcome (handle fetch sdk db env c)).
Proof.
  intros Ht. rewrite handle_outcome, Ht.
  destruct x as [| |e]; cbn [recovered read_caught]; try reflexivity.
  destruct (recover_expected c e) as (m & sug & Hr & Hm).
  destruct (error_shape (expected_code c e) m sug (truthy_defined m Hm))
    as (Hlen & Hflag & Hdec).
  exists (recover c e), (error_payload (expected_code c e) (to_json m) sug).
  rewrite Hr. split; [reflexivity|]. split; [exact Hflag|].
  split; [exact Hdec|]. rewrite error_code_payload.
  destruct (classified c e) eqn:Hc; [reflexivity|].
  now rewrite expected_code_fallback.
Qed.

Lemma handle_issued fetch sdk db env c :
  issued (handle fetch sdk db env c) = issued (attempt fetch sdk db env c).
Proof.
  unfold handle, try_catch, issued.
  destruct (attempt fetch sdk db env c) as [t [r|[| |e]]]; cbn;
    [reflexivity|apply app_nil_r..].
Qed.

Lemma formats_ret d : formats_success (ret (success d)).
Proof. intros r [= <-]. eauto. Qed.

Lemma formats_bind {A} (m : M A) k :
  (forall a, formats_success (k a)) -> formats_success (bind m k).
Proof.
  intros Hk r. unfold bind, outcome. destruct m as [t [a|e]]; [|discriminate].
  specialize (Hk a r). unfold outcome in Hk.
  destruct (k a) as [t' o]. exact Hk.
Qed.

Lemma attempt_formats fetch sdk db env c :
  formats_success (attempt fetch sdk db env c).
Proof.
  destruct c; cbn [attempt];
    unfold create_document_try, get_document_try, list_documents_try,
      update_document_try, patch_document_try, delete_document_try,
      count_documents_try, json_patch_document_try, list_collections_try,
      search_documents_try, import_documents_try, export_collection_try,
      get_schema_try, set_schema_try, remove_schema_try, validate_document_try,
      list_versions_try, get_version_try, restore_version_try,
      diff_versions_try, create_webhook_try, list_webhooks_try,
      get_webhook_try, update_webhook_try, delete_webhook_try,
      test_webhook_try, semantic_search_try, store_with_embedding_try;
    repeat (apply formats_bind; intros ?);
    try apply formats_ret.
  match goal with |- formats_success (match ?a with _ => _ end) =>
    destruct a; apply formats_ret end.
Qed.

(** ** Error classification *)



(** C2. Every response a handler produces has exactly one content block and
    comes from one of the two formatters: from [success], and then the error
    flag is unset, or from [error], and then the flag is set and the block
    decodes to [{error: {code, message, suggestion}}].  A handler does
    produce a response unless its try block throws [null] or [undefined].
    The same holds of whatever the formatters are applied to. *)
Theorem one_block_responses :
  (forall fetch sdk db env c r,
      outcome (handle fetch sdk db env c) = Return r ->
      List.length (content r) = 1%nat
      /\ ((exists d, r = success d) /\ isError r = None
          \/ (exists code message suggestion,
                 decoded r = Some (error_payload code message suggestion))
             /\ isError r = Some true))
  /\ (forall fetch sdk db env c,
         throws_nullish (outcome (attempt fetch sdk db env c)) = false ->
         exists r, outcome (handle fetch sdk db env c) = Return r)
  /\ (forall d,
         List.length (content (success d)) = 1%nat /\ isError (success d) = None)
  /\ (forall code message suggestion,
         List.length (content (error code message suggestion)) = 1%nat
         /\ isError (error code message suggestion) = Some true).
Proof.
  split; [|split; [|split; [apply success_shape|split; reflexivity]]].
  - intros fetch sdk db env c r. rewrite handle_outcome.
    destruct (outcome (attempt fetch sdk db env c)) as [a|[| |e]] eqn:E;
      try discriminate.
    + intros [= <-]. destruct (attempt_formats fetch sdk db env c a E) as [d ->].
      split; [reflexivity|]. left. eauto.
    + cbn [read_caught]. intros [= <-].
      destruct (recover_expected c e) as (m & sug & Hr & Hm).
      destruct (error_shape (expected_code c e) m sug (truthy_defined m Hm))
        as (Hlen & Hflag & Hdec).
      rewrite Hr. split; [exact Hlen|]. right. split; [eauto|exact Hflag].
  - intros fetch sdk db env c. rewrite handle_outcome.
    destruct (outcome (attempt fetch sdk db env c)) as [a|[| |e]];
      try discriminate; eauto.
Qed.

Lemma one_block_responses_witness :
  exists r,
    outcome (handle no_fetch no_sdk test_db test_env (get_document "users" "u1"))
    = Return r
    /\ List.length (content r) = 1%nat.
Proof.
  destruct (proj1 (proj2 one_block_responses) no_fetch no_sdk test_db test_env
              (get_document "users" "u1") eq_refl) as [r Hr].
  exists r. split; [exact Hr|].
  apply (proj1 (proj1 one_block_responses _ _ _ _ _ r Hr)).
Defined.

(** ** Outbound requests *)

Lemma upstream_failure_issued {A} res : issued (@upstream_failure A res) = [].
Proof.
  unfold upstream_failure, issued, bind, lift, raise.
  destruct (js_get _ "error"); reflexivity.
Qed.

Lemma apiFetch_issued fetch url apiKey method b :
  issued (apiFetch fetch url apiKey method b)
  = [Fetched (fetch_request url apiKey method b)].
Proof.
  unfold apiFetch, bind, do_fetch. fold (fetch_request url apiKey method b).
  destruct (fetch (fetch_request url apiKey method b)) as [e|res]; [reflexivity|].
  destruct (negb (res_ok res)).
  - pose proof (@upstream_failure_issued jsval res) as H.
    destruct (upstream_failure res) as [t o]. cbn in *. now subst t.
  - destruct (res_status res =? 204); [reflexivity|].
    unfold lift. reflexivity.
Qed.

Lemma webhookFetch_eq fetch url apiKey method b :
  webhookFetch fetch url apiKey method b = apiFetch fetch url apiKey method b.
Proof. reflexivity. Qed.

Lemma JSON_stringify_defined b : b <> JUndef -> is_Some (JSON_stringify b).
Proof. destruct b as [| |[]|[]| | |]; cbn; eauto. congruence. Qed.

Lemma sends_body_spec method :
  sends_body method = true <-> method = "POST" \/ method = "PUT" \/ method = "PATCH".
Proof.
  unfold sends_body. rewrite !orb_true_iff, !String.eqb_eq. tauto.
Qed.

(** C5, counterexample: a DELETE with a body goes out without it. *)
Lemma body_sent_as_specified_fails : ~ body_sent_as_specified.
Proof.
  intros H.
  specialize (H no_fetch
                "https://api.jsondb.cloud/v1/users/u1" "jdb_sk_test_abc" "DELETE"
                (JObj [("reason", JStr "cleanup")]) _ eq_refl).
  destruct H as [_ H]. cbn in H.
  destruct H as [x Hx]; [|discriminate].
  split; [discriminate|]. unfold spec_sends_body. auto.
Qed.

(** C5, amended. [apiFetch] and [webhookFetch] issue one request, with the
    method and URL they are given; it carries the serialized body exactly
    when a body is supplied and the method is POST, PUT or PATCH, and no
    body otherwise: a DELETE never carries one. *)
Theorem body_sent_with_post_put_patch :
  forall fetch target apiKey verb b,
  exists rq,
    issued (apiFetch fetch target apiKey verb b) = [Fetched rq]
    /\ issued (webhookFetch fetch target apiKey verb b) = [Fetched rq]
    /\ url rq = target
    /\ method rq = verb
    /\ body rq = (if negb (is_undefined b) && sends_body verb
                  then JSON_stringify b else None)
    /\ (is_Some (body rq)
        <-> b <> JUndef /\ (verb = "POST" \/ verb = "PUT" \/ verb = "PATCH"))
    /\ (verb = "DELETE" -> body rq = None).
Proof.
  intros fetch target apiKey verb b. exists (fetch_request target apiKey verb b).
  change (webhookFetch fetch target apiKey verb b)
    with (apiFetch fetch target apiKey verb b).
  rewrite apiFetch_issued.
  repeat (split; [reflexivity|]). split.
  - cbn [fetch_request body]. rewrite <- sends_body_spec.
    destruct (sends_body verb); [|rewrite andb_false_r; split;
      [intros [x [=]]|intros [_ [=]]]].
    rewrite andb_true_r. split.
    + intros Hb. split; [|reflexivity]. intros ->. destruct Hb as [x [=]].
    + intros [Hb _]. destruct b; try congruence; cbn [is_undefined negb];
        apply JSON_stringify_defined; discriminate.
  - intros ->. cbn. now rewrite andb_false_r.
Qed.

Lemma body_sent_with_post_put_patch_witness :
  exists rq,
    issued (webhookFetch no_fetch "https://api.jsondb.cloud/v1/users/_webhooks/w1"
              "jdb_sk_test_abc" "DELETE" (JObj [("reason", JStr "cleanup")]))
    = [Fetched rq]
    /\ method rq = "DELETE"
    /\ body rq = None.
Proof.
  destruct (body_sent_with_post_put_patch no_fetch
              "https://api.jsondb.cloud/v1/users/_webhooks/w1" "jdb_sk_test_abc"
              "DELETE" (JObj [("reason", JStr "cleanup")]))
    as (rq & _ & Hw & _ & Hm & _ & _ & Hd).
  exists rq. split; [exact Hw|]. split; [exact Hm|]. apply Hd. reflexivity.
Defined.

Lemma bind_lift_return {A B} (a : A) (k : A -> M B) :
  bind (lift (Return a)) k = k a.
Proof. unfold bind, lift. now destruct (k a). Qed.

Lemma bind_lift_throw {A B} x (k : A -> M B) :
  bind (lift (Throw x)) k = raise x.
Proof. reflexivity. Qed.

Lemma issued_bind_ret {A B} (m : M A) (f : A -> B) :
  issued (bind m (fun a => ret (f a))) = issued m.
Proof. destruct m as [t [a|e]]; cbn; [apply app_nil_r|reflexivity]. Qed.

Lemma outcome_bind_ret {A B} (m : M A) (f : A -> B) :
  outcome (bind m (fun a => ret (f a)))
  = match outcome m with Return a => Return (f a) | Throw e => Throw e end.
Proof. destruct m as [t [a|e]]; reflexivity. Qed.

Lemma apiFetch_outcome fetch url apiKey method b res :
  fetch (fetch_request url apiKey method b) = Resolved res ->
  res_ok res = true ->
  outcome (apiFetch fetch url apiKey method b)
  = if res_status res =? 204 then Return (JObj [("ok", JBool true)])
    else res_json res.
Proof.
  intros Hf Hok. unfold apiFetch, bind, do_fetch.
  fold (fetch_request url apiKey method b). rewrite Hf, Hok. cbn [negb].
  destruct (res_status res =? 204); [reflexivity|].
  unfold lift. reflexivity.
Qed.

(** A non-2xx response is thrown with its status, unless its body is the
    JSON text [null], whose [error] property cannot be read. *)
Lemma apiFetch_upstream_failure fetch url apiKey method b res :
  fetch (fetch_request url apiKey method b) = Resolved res ->
  res_ok res = false ->
  res_json res <> Return JNull -> res_json res <> Return JUndef ->
  exists m,
    outcome (apiFetch fetch url apiKey method b)
    = Throw {| e_status := JNum (res_status res); e_message := m |}.
Proof.
  intros Hf Hok Hnull Hundef. unfold apiFetch, bind, do_fetch.
  fold (fetch_request url apiKey method b). rewrite Hf, Hok. cbn [negb].
  unfold upstream_failure, bind, lift, raise.
  destruct (res_json res) as [[]|e]; try congruence; cbn; eauto.
Qed.

(** ** store_with_embedding *)

(** C7, counterexample: an empty id is a supplied id, and the call goes out
    as a POST to the collection. *)
Lemma put_when_id_supplied_fails : ~ put_when_id_supplied.
Proof.
  intros H.
  specialize (H no_fetch no_sdk test_db test_env
                "articles" [("title", JStr "Test")] "title" "" _ eq_refl).
  discriminate H.
Qed.

Lemma obj_lookup_set k k' v ps :
  obj_lookup k (obj_set k' v ps)
  = if String.eqb k k' then v else obj_lookup k ps.
Proof.
  induction ps as [|[k0 v0] ps IH]; cbn.
  - destruct (String.eqb k k'); reflexivity.
  - destruct (String.eqb k' k0) eqn:E0; cbn.
    + apply String.eqb_eq in E0. subst k0.
      destruct (String.eqb k k'); reflexivity.
    + rewrite IH. destruct (String.eqb k k0) eqn:E1; [|reflexivity].
      apply String.eqb_eq in E1. subst k0.
      rewrite String.eqb_sym in E0. now rewrite E0.
Qed.

(** C7, amended. [store_with_embedding] issues one request whose body is the
    caller's data with the property [$embed] set to the name of the field
    to embed, every other property as the caller gave it.  With an id that
    is not the empty string the request is a PUT to the collection path
    followed by the id; with no id, or with the empty id, it is a POST to
    the collection path. *)
Theorem store_with_embedding_request :
  forall fetch sdk db env collection data embed_field id,
  exists rq,
    issued (handle fetch sdk db env
              (store_with_embedding collection data embed_field id))
    = [Fetched rq]
    /\ body rq = JSON_stringify (embedding_payload data embed_field)
    /\ (forall k,
           js_get (embedding_payload data embed_field) k
           = Return (if String.eqb k "$embed" then JStr embed_field
                     else obj_lookup k (obj_of_entries data)))
    /\ match id with
       | Some i =>
           if String.eqb i "" then
             method rq = "POST"
             /\ url rq = baseUrl (resolveEnv env) +:+ "/" +:+ project (resolveEnv env)
                           +:+ "/" +:+ collection
           else
             method rq = "PUT"
             /\ url rq = baseUrl (resolveEnv env) +:+ "/" +:+ project (resolveEnv env)
                           +:+ "/" +:+ collection +:+ "/" +:+ i
       | None =>
           method rq = "POST"
           /\ url rq = baseUrl (resolveEnv env) +:+ "/" +:+ project (resolveEnv env)
                         +:+ "/" +:+ collection
       end.
Proof.
  intros fetch sdk db env collection data embed_field id.
  rewrite handle_issued. cbn [attempt]. unfold store_with_embedding_try.
  rewrite issued_bind_ret.
  assert (Hget : forall k,
             js_get (embedding_payload data embed_field) k
             = Return (if String.eqb k "$embed" then JStr embed_field
                       else obj_lookup k (obj_of_entries data))).
  { intros k. unfold embedding_payload. cbn [js_get]. now rewrite obj_lookup_set. }
  destruct id as [i|]; cbn [opt_string truthy].
  - destruct (String.eqb i "") eqn:E; cbn [negb to_String];
      rewrite ?bind_lift_return, apiFetch_issued;
      eexists; (split; [reflexivity|]); cbn [fetch_request body method url];
      (split; [reflexivity|]); (split; [exact Hget|]); split; reflexivity.
  - rewrite apiFetch_issued.
    eexists; (split; [reflexivity|]); cbn [fetch_request body method url];
      (split; [reflexivity|]); (split; [exact Hget|]); split; reflexivity.
Qed.

(** ** update_webhook *)

Lemma update_webhook_body_supplied webhookUrl events description webhookStatus :
  update_webhook_body webhookUrl events description webhookStatus
  = supplied_fields webhookUrl events description webhookStatus.
Proof.
  destruct webhookUrl, events, description, webhookStatus; reflexivity.
Qed.

(** C10, counterexample: a 200 whose body does not read as JSON is
    answered with an error, as [res.json ()] rejects inside the try block. *)
Lemma update_webhook_succeeds_on_2xx_fails : ~ update_webhook_succeeds_on_2xx.
Proof.
  intros H.
  destruct (H (respond empty_ok_response) no_sdk test_db test_env
              "users" "w1" None None None None _ empty_ok_response
              eq_refl eq_refl eq_refl) as [d Hd].
  apply (f_equal (fun o => match o with
                           | Return r => isError r
                           | Throw _ => None
                           end)) in Hd.
  discriminate Hd.
Qed.

(** C10, amended. [update_webhook] always issues one PUT to the path of the
    webhook; its body is the JSON text of the object holding exactly the
    optional arguments that were supplied, so [{}] when none was.  When the
    remote API answers that request with 204, or with another 2xx status
    and a body that reads as JSON, the handler returns a success response.
    When it answers with a 2xx status other than 204 and a body that does
    not read as JSON, the handler answers as its catch clause does for the
    rejection of [res.json ()]. *)
Theorem update_webhook_request :
  forall fetch sdk db env collection webhookId webhookUrl events description
         webhookStatus,
  exists rq,
    issued (handle fetch sdk db env
              (update_webhook collection webhookId webhookUrl events description
                 webhookStatus))
    = [Fetched rq]
    /\ method rq = "PUT"
    /\ url rq = webhooks_url (resolveEnv env) collection +:+ "/" +:+ webhookId
    /\ body rq
       = JSON_stringify
           (JObj (supplied_fields webhookUrl events description webhookStatus))
    /\ (webhookUrl = None -> events = None -> description = None ->
        webhookStatus = None -> body rq = Some "{}")
    /\ (forall res,
           fetch rq = Resolved res -> res_ok res = true ->
           res_status res = 204 \/ (exists v, res_json res = Return v) ->
           exists d,
             outcome (handle fetch sdk db env
                        (update_webhook collection webhookId webhookUrl events
                           description webhookStatus))
             = Return (success d))
    /\ (forall res x,
           fetch rq = Resolved res -> res_ok res = true ->
           res_status res <> 204 -> res_json res = Throw x ->
           recovered
             (update_webhook collection webhookId webhookUrl events description
                webhookStatus)
             x
             (outcome (handle fetch sdk db env
                         (update_webhook collection webhookId webhookUrl events
                            description webhookStatus)))).
Proof.
  intros fetch sdk db env collection webhookId webhookUrl events description
    webhookStatus.
  exists (fetch_request (webhooks_url (resolveEnv env) collection +:+ "/" +:+ webhookId)
            (apiKey (resolveEnv env)) "PUT"
            (JObj (supplied_fields webhookUrl events description webhookStatus))).
  assert (Ho : forall res,
             fetch (fetch_request
                      (webhooks_url (resolveEnv env) collection +:+ "/" +:+ webhookId)
                      (apiKey (resolveEnv env)) "PUT"
                      (JObj (supplied_fields webhookUrl events description
                               webhookStatus)))
             = Resolved res ->
             res_ok res = true ->
             outcome (attempt fetch sdk db env
                        (update_webhook collection webhookId webhookUrl events
                           description webhookStatus))
             = match (if res_status res =? 204
                      then Return (JObj [("ok", JBool true)])
                      else res_json res) with
               | Return a => Return (success a)
               | Throw x => Throw x
               end).
  { intros res Hf Hok. cbn [attempt]. unfold update_webhook_try.
    rewrite outcome_bind_ret, update_webhook_body_supplied.
    change (webhookFetch fetch ?u ?k ?m ?b) with (apiFetch fetch u k m b).
    now rewrite (apiFetch_outcome _ _ _ _ _ res Hf Hok). }
  rewrite handle_issued. cbn [attempt].
  unfold update_webhook_try. rewrite issued_bind_ret.
  rewrite update_webhook_body_supplied.
  change (webhookFetch fetch ?u ?k ?m ?b) with (apiFetch fetch u k m b).
  rewrite apiFetch_issued.
  split; [reflexivity|]. split; [reflexivity|]. split; [reflexivity|].
  split; [reflexivity|]. split; [|split].
  - intros -> -> -> ->. reflexivity.
  - intros res Hf Hok Hbody. specialize (Ho res Hf Hok).
    destruct (res_status res =? 204) eqn:E.
    + eexists. apply handle_return. exact Ho.
    + destruct Hbody as [H204|[v Hv]]; [apply Z.eqb_neq in E; contradiction|].
      rewrite Hv in Ho. eexists. apply handle_return. exact Ho.
  - intros res x Hf Hok H204 Hx. specialize (Ho res Hf Hok).
    apply Z.eqb_neq in H204. rewrite H204, Hx in Ho.
    now apply handle_recovered.
Qed.

Lemma update_webhook_request_witness :
  exists rq d,
    issued (handle (respond (ok_response (JObj [("_id", JStr "w1")]))) no_sdk
              test_db test_env (update_webhook "users" "w1" None None None None))
    = [Fetched rq]
    /\ method rq = "PUT"
    /\ body rq = Some "{}"
    /\ outcome (handle (respond (ok_response (JObj [("_id", JStr "w1")]))) no_sdk
                  test_db test_env (update_webhook "users" "w1" None None None None))
       = Return (success d).
Proof.
  destruct (update_webhook_request (respond (ok_response (JObj [("_id", JStr "w1")])))
              no_sdk test_db test_env "users" "w1" None None None None)
    as (rq & Hi & Hm & _ & _ & Hb & Hok & _).
  destruct (Hok (ok_response (JObj [("_id", JStr "w1")])) eq_refl eq_refl)
    as [d Hd].
  - right. eexists. reflexivity.
  - exists rq, d. auto.
Defined.

(** ** export_collection *)

(** C8, counterexample: under [{"data": 5}] the result has no count, and
    under [null] the handler answers with the error EXPORT_FAILED. *)
Lemma export_as_specified_fails :
  ~ export_as_specified (JObj [("data", JNum 5)]) /\ ~ export_as_specified JNull.
Proof.
  split; intros H.
  - destruct (H (respond (ok_response (JObj [("data", JNum 5)]))) no_sdk test_db
                test_env "users" None [] _ eq_refl eq_refl eq_refl eq_refl)
      as (n & Hn & _).
    destruct n; vm_compute in Hn; discriminate Hn.
  - destruct (H (respond (ok_response JNull)) no_sdk test_db
                test_env "users" None [] _ eq_refl eq_refl eq_refl eq_refl)
      as (n & Hn & _).
    destruct n; vm_compute in Hn; discriminate Hn.
Qed.

Lemma and_then_throw {A B} (x : Exc A) (k : A -> Exc B) y :
  and_then x k = Throw y ->
  x = Throw y \/ exists a, x = Return a /\ k a = Throw y.
Proof. destruct x as [a|e]; cbn; [eauto|intros [= ->]; auto]. Qed.

Lemma to_String_throws v x : to_String v = Throw x -> x = Thrown conversion_error.
Proof.
  revert x.
  induction v as [| |b|n|s|l IH|ps IH] using jsval_ind; intros x;
    try discriminate.
  - destruct b; discriminate.
  - cbn [to_String]. intros H.
    apply and_then_throw in H as [H|(ts & _ & H)]; [|discriminate H].
    induction IH as [|y l Hy Hl IHl]; [discriminate H|].
    apply and_then_throw in H as [H|(t & _ & H)].
    + destruct y; try discriminate H; now apply Hy.
    + apply and_then_throw in H as [H|(ts & _ & H)]; [|discriminate H].
      now apply IHl.
  - cbn [to_String]. destruct (obj_has "toString" ps); [|discriminate].
    now intros [= <-].
Qed.

Lemma export_filter_operator_throws fld ovs : forall acc x,
  (forall y, acc = Throw y -> y = Thrown conversion_error) ->
  fold_left (export_filter_operator fld) ovs acc = Throw x ->
  x = Thrown conversion_error.
Proof.
  induction ovs as [|ov ovs IH]; intros acc x Hacc; cbn [fold_left].
  - apply Hacc.
  - apply IH. intros y Hy. unfold export_filter_operator in Hy.
    apply and_then_throw in Hy as [Hy|(ps & _ & Hy)]; [now apply Hacc|].
    apply and_then_throw in Hy as [Hy|(t & _ & Hy)]; [|discriminate Hy].
    now apply to_String_throws in Hy.
Qed.

Lemma export_params_throws filter x :
  export_params filter = Throw x -> x = Thrown conversion_error.
Proof.
  destruct filter as [ps|]; [|discriminate]. cbn [export_params].
  assert (H : forall acc,
             (forall y, acc = Throw y -> y = Thrown conversion_error) ->
             fold_left export_filter_entry ps acc = Throw x ->
             x = Thrown conversion_error).
  { induction ps as [|[fld v] ps IH]; intros acc Hacc; cbn [fold_left].
    - apply Hacc.
    - apply IH. intros y. cbn [export_filter_entry].
      destruct (is_object v).
      + now apply export_filter_operator_throws.
      + intros Hy.
        apply and_then_throw in Hy as [Hy|(qs & _ & Hy)]; [now apply Hacc|].
        apply and_then_throw in Hy as [Hy|(t & _ & Hy)]; [|discriminate Hy].
        now apply to_String_throws in Hy. }
  apply H. discriminate.
Qed.

Lemma export_issued fetch sdk db env collection filter :
  issued (handle fetch sdk db env (export_collection collection filter))
  = match export_params filter with
    | Return params => [Fetched (export_request env collection params)]
    | Throw _ => []
    end.
Proof.
  rewrite handle_issued. cbn [attempt]. unfold export_collection_try.
  destruct (export_params filter) as [params|x]; [|reflexivity].
  rewrite bind_lift_return. unfold bind, do_fetch.
  fold (export_request env collection params).
  destruct (fetch (export_request env collection params)) as [e|res]; [reflexivity|].
  unfold read_json.
  destruct (negb (res_ok res)).
  - pose proof (@upstream_failure_issued jsval res) as H.
    destruct (upstream_failure res) as [t [a|e]]; cbn in *; subst t; [|reflexivity].
    unfold lift. destruct (export_documents a); [|reflexivity].
    destruct (js_get a0 "length"); reflexivity.
  - unfold lift. destruct (res_json res) as [a|e]; [|reflexivity].
    destruct (export_documents a); [|reflexivity].
    destruct (js_get a0 "length"); reflexivity.
Qed.

Lemma export_documents_list payload docs :
  export_list payload = Some docs -> export_documents payload = Return (JArr docs).
Proof.
  unfold export_list, export_documents.
  destruct payload as [| |b|n|s|l|ps]; cbn; try discriminate;
    try (intros [= <-]; reflexivity).
  destruct (obj_lookup "data" ps) as [| | | | |l|]; try discriminate;
    intros [= <-]; reflexivity.
Qed.

(** C8, amended. [export_collection] issues its one request when every
    value of the filter converts to a string.  When the remote API
    answers that request with a 2xx status and a payload that is an array,
    or a value other than [null] whose [data] property is an array, or a
    value other than [null] whose [data] property is absent or [null], the
    handler returns the success response of [{collection, count,
    documents}]: [documents] is the array, the array under [data], or the
    empty list, and [count] is its length.  When a value of the filter
    does not convert, no request goes out, no payload comes back, and the
    handler answers with the error EXPORT_FAILED. *)
Theorem export_normalizes :
  forall fetch sdk db env collection filter,
    match export_params filter with
    | Return params =>
        issued (handle fetch sdk db env (export_collection collection filter))
        = [Fetched (export_request env collection params)]
        /\ forall res payload docs,
             fetch (export_request env collection params) = Resolved res ->
             res_ok res = true ->
             res_json res = Return payload ->
             export_list payload = Some docs ->
             outcome (handle fetch sdk db env (export_collection collection filter))
             = Return (success (export_result collection docs))
    | Throw _ =>
        issued (handle fetch sdk db env (export_collection collection filter)) = []
        /\ exists r payload,
             outcome (handle fetch sdk db env (export_collection collection filter))
             = Return r
             /\ isError r = Some true
             /\ decoded r = Some payload
             /\ error_code payload = JStr "EXPORT_FAILED"
    end.
Proof.
  intros fetch sdk db env collection filter.
  pose proof (export_issued fetch sdk db env collection filter) as Hi.
  pose proof (export_params_throws filter) as Hx.
  destruct (export_params filter) as [params|x] eqn:Ep.
  - split; [exact Hi|]. intros res payload docs Hf Hok Hjson Hlist.
    apply handle_return. cbn [attempt]. unfold export_collection_try.
    rewrite Ep, bind_lift_return. unfold bind, do_fetch.
    fold (export_request env collection params). rewrite Hf.
    unfold read_json. rewrite Hok. cbn [negb]. unfold lift. rewrite Hjson.
    rewrite (export_documents_list _ _ Hlist). reflexivity.
  - split; [exact Hi|].
    assert (Ht : outcome (attempt fetch sdk db env (export_collection collection filter))
                 = Throw conversion_error).
    { cbn [attempt]. unfold export_collection_try.
      now rewrite Ep, (Hx x eq_refl). }
    rewrite (handle_caught _ _ _ _ _ _ Ht).
    destruct (error_shape "EXPORT_FAILED"
                (JStr "Cannot convert object to primitive value")
                "Verify the collection name is correct. Use list_collections to see available collections.")
      as (_ & Hflag & Hdec); [discriminate|].
    do 2 eexists. split; [reflexivity|]. split; [exact Hflag|].
    split; [exact Hdec|]. apply error_code_payload.
Qed.

Lemma export_normalizes_witness :
  issued (handle (respond (ok_response (JObj [("data", JArr [JObj [("_id", JStr "a")]])])))
            no_sdk test_db test_env (export_collection "users" None))
  = [Fetched (export_request test_env "users" [])]
  /\ outcome (handle (respond (ok_response (JObj [("data", JArr [JObj [("_id", JStr "a")]])])))
                no_sdk test_db test_env (export_collection "users" None))
     = Return (success (export_result "users" [JObj [("_id", JStr "a")]])).
Proof.
  destruct (export_normalizes
              (respond (ok_response (JObj [("data", JArr [JObj [("_id", JStr "a")]])])))
              no_sdk test_db test_env "users" None) as [Hi Ho].
  split; [exact Hi|].
  apply (Ho (ok_response (JObj [("data", JArr [JObj [("_id", JStr "a")]])]))
            (JObj [("data", JArr [JObj [("_id", JStr "a")]])])
            [JObj [("_id", JStr "a")]]);
    reflexivity.
Defined.

(** ** Credentials *)

(** C6, counterexample: [list_webhooks] before and after the API key
    variable changes sends two different Authorization headers. *)
Lemma credentials_fixed_at_startup_fails : ~ credentials_fixed_at_startup.
Proof.
  intros H.
  specialize (H (respond (ok_response (JArr []))) no_sdk test_env test_db
                test_env (<["JSONDB_API_KEY" := "jdb_sk_test_xyz"]> test_env)
                (list_webhooks "users") eq_refl).
  vm_compute in H. discriminate H.
Qed.

Lemma resolveEnv_agree (env1 env2 : environment) :
  (forall name, In name credential_variables -> env1 !! name = env2 !! name) ->
  resolveEnv env1 = resolveEnv env2.
Proof.
  intros H. unfold resolveEnv, env_or.
  rewrite (H "JSONDB_API_KEY"), (H "JSONDB_PROJECT"), (H "JSONDB_NAMESPACE"),
    (H "JSONDB_BASE_URL"); [reflexivity|cbn; tauto..].
Qed.

Lemma attempt_resolveEnv fetch sdk db env1 env2 c :
  resolveEnv env1 = resolveEnv env2 ->
  attempt fetch sdk db env1 c = attempt fetch sdk db env2 c.
Proof.
  intros H. destruct c; cbn [attempt]; try reflexivity;
    unfold list_collections_try, import_documents_try, export_collection_try,
      list_versions_try, get_version_try, restore_version_try,
      diff_versions_try, create_webhook_try, list_webhooks_try,
      get_webhook_try, update_webhook_try, delete_webhook_try,
      test_webhook_try, semantic_search_try, store_with_embedding_try;
    now rewrite H.
Qed.

Lemma attempt_sdk fetch sdk db env1 env2 c :
  uses_sdk c = true ->
  attempt fetch sdk db env1 c = attempt fetch sdk db env2 c.
Proof. destruct c; try discriminate; reflexivity. Qed.

Lemma issued_bind_call {B} sdk db k (f : jsval -> M B) :
  (forall a, issued (f a) = []) ->
  issued (bind (call_sdk sdk db k) f) = [Called db k].
Proof.
  intros Hf. unfold bind, call_sdk. destruct (sdk db k) as [a|e]; [|reflexivity].
  specialize (Hf a). destruct (f a) as [t o]. cbn in *. now subst t.
Qed.

Lemma attempt_sdk_issued fetch sdk db env c :
  uses_sdk c = true ->
  exists k, issued (attempt fetch sdk db env c) = [Called db k].
Proof.
  destruct c; try discriminate; intros _; cbn [attempt];
    unfold create_document_try, get_document_try, list_documents_try,
      update_document_try, patch_document_try, delete_document_try,
      count_documents_try, json_patch_document_try, search_documents_try,
      get_schema_try, set_schema_try, remove_schema_try, validate_document_try;
    eexists; apply issued_bind_call; intros a; try reflexivity.
  destruct a; reflexivity.
Qed.

Lemma versionFetch_issued fetch url apiKey verb :
  issued (versionFetch fetch url apiKey verb)
  = [Fetched {| url := url; method := default "GET" verb;
                headers := json_headers apiKey; body := None |}].
Proof.
  unfold versionFetch, bind, do_fetch.
  destruct (fetch _) as [e|res]; [reflexivity|].
  destruct (negb (res_ok res)).
  - pose proof (@upstream_failure_issued jsval res) as H.
    destruct (upstream_failure res) as [t o]. cbn in *. now subst t.
  - destruct (res_status res =? 204); [reflexivity|].
    unfold lift. reflexivity.
Qed.

Lemma read_json_issued res : issued (read_json res) = [].
Proof.
  unfold read_json. destruct (negb (res_ok res)); [|reflexivity].
  apply upstream_failure_issued.
Qed.

Lemma issued_fetch_read fetch rq (f : jsval -> ToolResponse) :
  issued (bind (do_fetch fetch rq)
            (fun res => bind (read_json res) (fun data => ret (f data))))
  = [Fetched rq].
Proof.
  unfold bind at 1, do_fetch. destruct (fetch rq) as [e|res]; [reflexivity|].
  pose proof (issued_bind_ret (read_json res) f) as H.
  rewrite read_json_issued in H.
  destruct (bind (read_json res) _) as [t o]. cbn in *. now subst t.
Qed.

Lemma attempt_rest_issued fetch sdk db env c :
  uses_sdk c = false ->
  (exists rq, issued (attempt fetch sdk db env c) = [Fetched rq]
              /\ built_from (resolveEnv env) rq)
  \/ (issued (attempt fetch sdk db env c) = [] /\ unconvertible c).
Proof.
  destruct c; try discriminate; intros _; cbn [attempt];
    try (match goal with
         | |- context [export_collection_try] => idtac
         | _ => left
         end);
    unfold list_collections_try, import_documents_try,
      list_versions_try, get_version_try, restore_version_try,
      diff_versions_try, create_webhook_try, list_webhooks_try,
      get_webhook_try, update_webhook_try, delete_webhook_try,
      test_webhook_try, semantic_search_try, store_with_embedding_try,
      webhooks_url;
    try change (webhookFetch fetch ?u ?k ?m ?b) with (apiFetch fetch u k m b);
    try (rewrite issued_bind_ret);
    try (rewrite apiFetch_issued);
    try (rewrite versionFetch_issued);
    try (rewrite issued_fetch_read);
    try (eexists; split; [reflexivity|]; split; [cbn; auto|];
         cbn [url fetch_request]; rewrite ?append_assoc; eauto;
         exists ""; now rewrite append_nil_r).
  - pose proof (export_issued fetch sdk db env collection filter) as H.
    rewrite handle_issued in H. cbn [attempt] in H.
    destruct (export_params filter) as [params|x] eqn:Ep.
    + left. eexists. split; [exact H|].
      split; [cbn; auto|]. cbn [url export_request]. rewrite ?append_assoc. eauto.
    + right. split; [exact H|]. unfold unconvertible. eauto.
  - destruct id as [i|]; cbn [opt_string truthy to_String];
      [destruct (String.eqb i ""); cbn [negb]|];
      rewrite ?bind_lift_return, apiFetch_issued;
      (eexists; split; [reflexivity|]; split; [cbn; auto|];
       cbn [url fetch_request]; rewrite ?append_assoc; eauto).
Qed.

(** C6, amended.  In a process whose SDK client [main] built from the
    environment at startup, a handler that goes through the SDK issues its
    call with the credentials of that client, whatever the environment is
    at the time of the call; a handler that calls the REST API itself
    resolves the triple from the environment at the time of the call and
    builds its request from it (an export whose filter holds a value that
    does not convert to a string issues no request at all).  So two
    invocations of a handler behave alike when the handler goes through the
    SDK, or when the four variables the triple is resolved from are the
    same at both invocations. *)
Theorem credentials_follow_environment :
  forall fetch sdk env0 db env1 env2 c,
    main_credentials env0 = Some db ->
    uses_sdk c = true
    \/ (forall name, In name credential_variables -> env1 !! name = env2 !! name) ->
    handle fetch sdk db env1 c = handle fetch sdk db env2 c
    /\ if uses_sdk c
       then exists k, issued (handle fetch sdk db env1 c) = [Called db k]
       else (exists rq, issued (handle fetch sdk db env1 c) = [Fetched rq]
                        /\ built_from (resolveEnv env1) rq)
            \/ (issued (handle fetch sdk db env1 c) = [] /\ unconvertible c).
Proof.
  intros fetch sdk env0 db env1 env2 c _ H. split.
  - unfold handle. f_equal.
    destruct H as [H|H]; [now apply attempt_sdk|].
    apply attempt_resolveEnv. now apply resolveEnv_agree.
  - rewrite handle_issued. destruct (uses_sdk c) eqn:E.
    + now apply attempt_sdk_issued.
    + now apply attempt_rest_issued.
Qed.

Lemma credentials_follow_environment_witness :
  handle (respond (ok_response (JArr []))) no_sdk test_db test_env
    (list_webhooks "users")
  = handle (respond (ok_response (JArr []))) no_sdk test_db
      (<["JSONDB_MCP_PORT" := "3200"]> test_env) (list_webhooks "users")
  /\ exists rq,
      issued (handle (respond (ok_response (JArr []))) no_sdk test_db test_env
                (list_webhooks "users")) = [Fetched rq]
      /\ built_from (resolveEnv test_env) rq.
Proof.
  assert (Hsame : forall name, In name credential_variables ->
            test_env !! name = (<["JSONDB_MCP_PORT" := "3200"]> test_env) !! name).
  { intros name Hin. cbn in Hin.
    destruct Hin as [<-|[<-|[<-|[<-|[]]]]]; reflexivity. }
  destruct (credentials_follow_environment (respond (ok_response (JArr []))) no_sdk
              test_env test_db test_env (<["JSONDB_MCP_PORT" := "3200"]> test_env)
              (list_webhooks "users") eq_refl (or_intror Hsame)) as [He Hi].
  split; [exact He|]. destruct Hi as [Hi|[Hi _]]; [exact Hi|discriminate Hi].
Defined.

(** ** Startup *)

Lemma missing_key_message_directive :
  exists rest,
    missing_key_message
    = "Error: JSONDB_API_KEY environment variable is required." +:+ rest.
Proof. eexists. reflexivity. Qed.

(** C9. With JSONDB_API_KEY absent the process prints the message that
    tells how to set it and exits with status 1, and that is all it does:
    no SDK client, protocol session or listener comes into being. *)
Theorem refuses_to_start_without_key :
  forall env connect listen,
    env !! "JSONDB_API_KEY" = None ->
    main env connect listen = [console_error missing_key_message; process_exit 1]
    /\ exit_status (main env connect listen) = Some 1
    /\ 1 <> 0
    /\ Forall (fun ev => opens_session ev = false) (main env connect listen).
Proof.
  intros env connect listen H. unfold main, main_credentials. rewrite H.
  repeat split; [discriminate|]. repeat constructor.
Qed.

Lemma refuses_to_start_without_key_witness :
  main ∅ None node_listen = [console_error missing_key_message; process_exit 1]
  /\ exit_status (main ∅ None node_listen) = Some 1
  /\ 1 <> 0
  /\ Forall (fun ev => opens_session ev = false) (main ∅ None node_listen).
Proof. apply (refuses_to_start_without_key ∅ None node_listen). reflexivity. Defined.

(** With a key the process does open a session or a listener. *)
Lemma main_opens_session env connect listen db :
  main_credentials env = Some db ->
  Exists (fun ev => opens_session ev = true) (main env connect listen).
Proof.
  intros H. unfold main. rewrite H.
  apply Exists_cons_tl.
  destruct (String.eqb _ "http"); apply Exists_cons_hd; reflexivity.
Qed.

(** ** The filter compiler *)

Lemma obj_set_to_map k v ps :
  (list_to_map (obj_set k v ps) : gmap string jsval) = <[k := v]> (list_to_map ps).
Proof.
  induction ps as [|[k' v'] ps IH]; [reflexivity|].
  cbn [obj_set]. destruct (String.eqb k k') eqn:E.
  - apply String.eqb_eq in E. subst k'. cbn [list_to_map foldr uncurry].
    cbn. now rewrite insert_insert_eq.
  - apply String.eqb_neq in E. cbn. rewrite IH.
    now apply insert_insert_ne.
Qed.

Lemma assoc_none k l : ~ In k (map fst l) -> assoc k l = None.
Proof.
  induction l as [|[k' v] l IH]; [reflexivity|].
  cbn. intros H. destruct (String.eqb k k') eqn:E.
  - apply String.eqb_eq in E. subst. tauto.
  - apply IH. tauto.
Qed.

Lemma opMap_recognized op :
  String.eqb op "eq" = false ->
  assoc op opMap
  = if existsb (String.eqb op) recognized_operators then Some ("$" +:+ op) else None.
Proof.
  intros Heq. cbn [assoc opMap existsb recognized_operators]. rewrite Heq.
  repeat match goal with
         | |- context [String.eqb op ?s] =>
             let E := fresh "E" in
             destruct (String.eqb op s) eqn:E;
             [apply String.eqb_eq in E; subst op; reflexivity|]
         end.
  reflexivity.
Qed.

Lemma filter_step_plain o f :
  plain_filter f ->
  filter_step o f
  = {| own := obj_set (field f) (compile_entry f) (own o); proto := proto o |}.
Proof.
  intros [Hfield Hop]. unfold filter_step, compile_entry, js_assign.
  apply String.eqb_neq in Hfield. rewrite Hfield. cbn [andb].
  destruct (String.eqb (operator f) "eq") eqn:Heq; [reflexivity|].
  unfold opMap_get. rewrite (opMap_recognized _ Heq).
  destruct (existsb (String.eqb (operator f)) recognized_operators);
    [reflexivity|].
  rewrite assoc_none by (intros H; apply Hop; right; exact H).
  assert (Hp : String.eqb (operator f) "__proto__" = false).
  { apply String.eqb_neq. intros H. apply Hop. left. now rewrite H. }
  now rewrite Hp.
Qed.

Lemma fold_filter_step_plain filters : forall o,
  Forall plain_filter filters ->
  proto (fold_left filter_step filters o) = proto o
  /\ (list_to_map (own (fold_left filter_step filters o)) : gmap string jsval)
     = fold_left (fun m f => <[field f := compile_entry f]> m) filters
         (list_to_map (own o)).
Proof.
  induction filters as [|f filters IH]; intros o HF; [split; reflexivity|].
  apply Forall_cons_1 in HF as [Hf HF]. cbn [fold_left].
  rewrite (filter_step_plain o f Hf).
  destruct (IH {| own := obj_set (field f) (compile_entry f) (own o);
                  proto := proto o |} HF) as [Hp Hm].
  split; [exact Hp|]. rewrite Hm. cbn [own]. now rewrite obj_set_to_map.
Qed.

(** On filters that stay clear of the names [Object.prototype] holds,
    [buildFilterObject] is the compiler of the specification. *)
Lemma buildFilterObject_plain filters :
  Forall plain_filter filters ->
  proto (buildFilterObject filters) = Object_prototype
  /\ list_to_map (own (buildFilterObject filters)) = compile filters.
Proof. intros H. apply (fold_filter_step_plain filters empty_object H). Qed.

Lemma buildFilterObject_plain_witness :
  proto (buildFilterObject
           [ {| field := "status"; operator := "eq"; value := JStr "active" |};
             {| field := "age"; operator := "gte"; value := JNum 21 |};
             {| field := "status"; operator := "unknown_op"; value := JNum 42 |} ])
  = Object_prototype
  /\ list_to_map
       (own (buildFilterObject
               [ {| field := "status"; operator := "eq"; value := JStr "active" |};
                 {| field := "age"; operator := "gte"; value := JNum 21 |};
                 {| field := "status"; operator := "unknown_op"; value := JNum 42 |} ]))
     = compile
         [ {| field := "status"; operator := "eq"; value := JStr "active" |};
           {| field := "age"; operator := "gte"; value := JNum 21 |};
           {| field := "status"; operator := "unknown_op"; value := JNum 42 |} ].
Proof.
  apply buildFilterObject_plain.
  repeat constructor; cbn; try discriminate;
    intros H; repeat (destruct H as [H|H]; [discriminate H|]); destruct H.
Defined.

(** C4, on the code: two inputs at which [buildFilterObject] leaves the
    compiler of the specification.  A filter on the field [__proto__]
    leaves no entry behind, where the specification maps the field to the
    value, and [search_documents] then lists with an empty filter; the
    operator [constructor], which is not one of the nine, does not fall
    back to the raw value but wraps it under the source text of a built-in
    function. *)
Theorem buildFilterObject_inherited_names :
  own (buildFilterObject
         [ {| field := "__proto__"; operator := "eq"; value := JStr "x" |} ]) = []
  /\ compile [ {| field := "__proto__"; operator := "eq"; value := JStr "x" |} ]
       !! "__proto__" = Some (JStr "x")
  /\ (forall fetch sdk db env,
         issued (handle fetch sdk db env
                   (search_documents "users" [("__proto__", f_eq, JStr "x")]
                      None None None))
         = [Called db
              (Sdk_list "users"
                 (JObj [("filter", JObj []); ("sort", JUndef); ("limit", JUndef);
                        ("offset", JUndef)]))])
  /\ own (buildFilterObject
            [ {| field := "x"; operator := "constructor"; value := JNum 42 |} ])
     = [("x", JObj [("function Object() { [native code] }", JNum 42)])]
  /\ compile [ {| field := "x"; operator := "constructor"; value := JNum 42 |} ]
       !! "x" = Some (JNum 42).
Proof.
  split; [reflexivity|]. split; [reflexivity|]. split.
  - intros fetch sdk db env. rewrite handle_issued. cbn [attempt].
    unfold search_documents_try. apply issued_bind_call. reflexivity.
  - split; reflexivity.
Qed.

(** * Further properties *)

Lemma upstream_failure_raise {A} res :
  @upstream_failure A res = raise (thrown_for res).
Proof.
  unfold upstream_failure, thrown_for, bind, lift, raise.
  destruct (res_json res) as [b|e]; [|reflexivity].
  destruct (js_get b "error"); reflexivity.
Qed.

Lemma fetched_inj rq rq' : [Fetched rq] = [Fetched rq'] -> rq = rq'.
Proof. now intros [= ->]. Qed.

Lemma apiFetch_failure fetch url apiKey method b rq res :
  issued (apiFetch fetch url apiKey method b) = [Fetched rq] ->
  fetch rq = Resolved res ->
  res_ok res = false ->
  outcome (apiFetch fetch url apiKey method b) = Throw (thrown_for res).
Proof.
  rewrite apiFetch_issued. intros Hi Hf Hok. apply fetched_inj in Hi. subst rq.
  unfold apiFetch, bind, do_fetch.
  fold (fetch_request url apiKey method b). rewrite Hf, Hok. cbn [negb].
  rewrite upstream_failure_raise. reflexivity.
Qed.

Lemma versionFetch_failure fetch url apiKey verb rq res :
  issued (versionFetch fetch url apiKey verb) = [Fetched rq] ->
  fetch rq = Resolved res ->
  res_ok res = false ->
  outcome (versionFetch fetch url apiKey verb) = Throw (thrown_for res).
Proof.
  rewrite versionFetch_issued. intros Hi Hf Hok. apply fetched_inj in Hi. subst rq.
  unfold versionFetch, bind, do_fetch.
  rewrite Hf, Hok. cbn [negb]. rewrite upstream_failure_raise. reflexivity.
Qed.

Lemma fetch_read_failure {B} fetch rq0 rq res (k : jsval -> M B) :
  [Fetched rq0] = [Fetched rq] ->
  fetch rq = Resolved res -> res_ok res = false ->
  outcome (bind (do_fetch fetch rq0) (fun res => bind (read_json res) k))
  = Throw (thrown_for res).
Proof.
  intros Hi Hf Hok. apply fetched_inj in Hi. subst rq0.
  unfold bind at 1, do_fetch. rewrite Hf.
  unfold read_json. rewrite Hok. cbn [negb].
  rewrite upstream_failure_raise. reflexivity.
Qed.

Ltac unfold_rest :=
  unfold list_collections_try, import_documents_try, export_collection_try,
    list_versions_try, get_version_try, restore_version_try,
    diff_versions_try, create_webhook_try, list_webhooks_try,
    get_webhook_try, update_webhook_try, delete_webhook_try,
    test_webhook_try, semantic_search_try, store_with_embedding_try in *.

Lemma sdk_not_fetched fetch sdk db env c rq :
  issued (attempt fetch sdk db env c) = [Fetched rq] -> uses_sdk c = false.
Proof.
  intros H. destruct (uses_sdk c) eqn:E; [|reflexivity].
  destruct (attempt_sdk_issued fetch sdk db env c E) as [k Hk].
  rewrite Hk in H. discriminate H.
Qed.

(** A REST handler whose request is answered with a non-2xx status throws
    what the non-2xx branch builds. *)
Lemma attempt_rest_failure fetch sdk db env c rq res :
  issued (attempt fetch sdk db env c) = [Fetched rq] ->
  fetch rq = Resolved res ->
  res_ok res = false ->
  outcome (attempt fetch sdk db env c) = Throw (thrown_for res).
Proof.
  intros Hi Hf Hok. pose proof (sdk_not_fetched _ _ _ _ _ _ Hi) as Hu.
  destruct c; try discriminate Hu; cbn [attempt] in *; unfold_rest;
    try change (webhookFetch fetch ?u ?k ?m ?b) with (apiFetch fetch u k m b) in *;
    try (rewrite issued_bind_ret in Hi; rewrite outcome_bind_ret;
         first [ now rewrite (apiFetch_failure _ _ _ _ _ _ _ Hi Hf Hok)
               | now rewrite (versionFetch_failure _ _ _ _ _ _ Hi Hf Hok) ]).
  - rewrite issued_fetch_read in Hi. now apply (fetch_read_failure _ _ rq).
  - rewrite issued_fetch_read in Hi. now apply (fetch_read_failure _ _ rq).
  - pose proof (export_issued fetch sdk db env collection filter) as H.
    rewrite handle_issued in H. cbn [attempt] in H. unfold export_collection_try in H.
    rewrite H in Hi. destruct (export_params filter) as [params|x]; [|discriminate Hi].
    rewrite bind_lift_return. unfold export_request in Hi.
    now apply (fetch_read_failure _ _ rq).
  - rewrite issued_bind_ret in Hi. rewrite outcome_bind_ret.
    destruct id as [i|]; cbn [opt_string truthy to_String] in *;
      [destruct (String.eqb i ""); cbn [negb] in *|];
      rewrite ?bind_lift_return in *;
      now rewrite (apiFetch_failure _ _ _ _ _ _ _ Hi Hf Hok).
Qed.

Lemma find_status e (s : Z) (l : list (Z * string)) :
  e_status e = JNum s ->
  find (fun sc => status_is e sc.1) l = find (fun sc => s =? sc.1) l.
Proof.
  intros Hs. induction l as [|sc l IH]; [reflexivity|].
  cbn [find]. rewrite (status_is_eq e s _ Hs), IH. reflexivity.
Qed.

Lemma expected_code_status c e (s : Z) :
  e_status e = JNum s -> expected_code c e = status_code c s.
Proof.
  intros Hs. unfold expected_code, status_code. now rewrite (find_status e s _ Hs).
Qed.

Lemma thrown_for_status res :
  res_json res <> Return JNull -> res_json res <> Return JUndef ->
  exists e : thrown,
    thrown_for res = e /\ e_status e = JNum (res_status res).
Proof.
  unfold thrown_for. intros Hn Hu.
  destruct (res_json res) as [[]|e]; try congruence; cbn; eauto.
Qed.

Ltac catches :=
  unfold create_document_catch, get_document_catch, list_documents_catch,
    update_document_catch, patch_document_catch, delete_document_catch,
    count_documents_catch, json_patch_document_catch, list_collections_catch,
    search_documents_catch, import_documents_catch, export_collection_catch,
    get_schema_catch, set_schema_catch, remove_schema_catch,
    validate_document_catch, list_versions_catch, get_version_catch,
    restore_version_catch, diff_versions_catch, create_webhook_catch,
    list_webhooks_catch, get_webhook_catch, update_webhook_catch,
    delete_webhook_catch, test_webhook_catch, semantic_search_catch,
    store_with_embedding_catch, webhook_not_found.


(** Past the table, a catch clause passes the message of the thrown value
    on, and has a message of its own for a value without one. *)
Lemma recover_fallback c e :
  classified c e = false ->
  exists dflt sug,
    recover c e = error (fallback_code c) (js_or (e_message e) (JStr dflt)) sug
    /\ dflt <> "".
Proof.
  unfold classified. destruct c;
    cbn [recover decision_table fallback_code existsb fst snd]; catches;
    intros H;
    repeat match goal with
           | H : _ || _ = false |- _ =>
               let H1 := fresh "H" in
               apply orb_false_elim in H as [H1 H]; rewrite H1; clear H1
           end;
    (do 2 eexists; split; [reflexivity|cbn; discriminate]).
Qed.

(** ** Failures of the backing call *)










(** ** REST failures, end to end *)

(** X1. A REST-backed tool whose request the remote API answers with a
    non-2xx status, and with a body that is not the JSON text [null],
    answers with the error whose code is that of the first row of the
    tool's table with that HTTP status, and with the tool's fallback code
    when the table has no such row. *)
Theorem rest_status_to_code :
  forall fetch sdk db env c rq res,
    issued (handle fetch sdk db env c) = [Fetched rq] ->
    fetch rq = Resolved res ->
    res_ok res = false ->
    res_json res <> Return JNull -> res_json res <> Return JUndef ->
    exists r payload,
      outcome (handle fetch sdk db env c) = Return r
      /\ isError r = Some true
      /\ decoded r = Some payload
      /\ error_code payload = JStr (status_code c (res_status res)).
Proof.
  intros fetch sdk db env c rq res Hi Hf Hok Hn Hu.
  rewrite handle_issued in Hi.
  pose proof (attempt_rest_failure _ _ _ _ _ _ _ Hi Hf Hok) as Ht.
  destruct (thrown_for_status res Hn Hu) as (e & He & Hs). rewrite He in Ht.
  destruct (recover_expected c e) as (m & sug & Hr & Hm).
  rewrite (expected_code_status c _ _ Hs) in Hr.
  destruct (error_shape (status_code c (res_status res)) m sug (truthy_defined m Hm))
    as (_ & Hflag & Hdec).
  exists (recover c e),
    (error_payload (status_code c (res_status res)) (to_json m) sug).
  rewrite (handle_caught _ _ _ _ _ _ Ht), Hr. auto using error_code_payload.
Qed.

Lemma rest_status_to_code_witness :
  exists r payload,
    outcome (handle (respond (failing_response 404 "Not Found" "no such webhook"))
               no_sdk test_db test_env (get_webhook "users" "w1"))
    = Return r
    /\ isError r = Some true
    /\ decoded r = Some payload
    /\ error_code payload = JStr "WEBHOOK_NOT_FOUND".
Proof.
  eapply (rest_status_to_code
            (respond (failing_response 404 "Not Found" "no such webhook"))
            no_sdk test_db test_env (get_webhook "users" "w1") _
            (failing_response 404 "Not Found" "no such webhook"));
    [reflexivity | reflexivity | reflexivity | discriminate | discriminate].
Defined.

(** X2. When the body of a non-2xx reply is the JSON text [null], reading
    its [error] property throws before the status is recorded: the tool
    answers with its fallback code whatever the status, also for a status
    its table has a row for. *)
Theorem null_error_body_loses_status :
  forall fetch sdk db env c rq res,
    issued (handle fetch sdk db env c) = [Fetched rq] ->
    fetch rq = Resolved res ->
    res_ok res = false ->
    res_json res = Return JNull ->
    exists r payload,
      outcome (handle fetch sdk db env c) = Return r
      /\ isError r = Some true
      /\ decoded r = Some payload
      /\ error_code payload = JStr (fallback_code c).
Proof.
  intros fetch sdk db env c rq res Hi Hf Hok Hn.
  rewrite handle_issued in Hi.
  pose proof (attempt_rest_failure _ _ _ _ _ _ _ Hi Hf Hok) as Ht.
  assert (He : thrown_for res
               = Thrown
                   (type_error "Cannot read properties of null (reading 'error')")).
  { unfold thrown_for. now rewrite Hn. }
  rewrite He in Ht. clear He.
  set (e := type_error _) in *.
  assert (Hc : classified c e = false).
  { unfold classified. destruct c; reflexivity. }
  destruct (recover_fallback c e Hc) as (dflt & sug & Hr & _).
  assert (Hm : js_or (e_message e) (JStr dflt) <> JUndef) by discriminate.
  destruct (error_shape (fallback_code c) _ sug Hm) as (_ & Hflag & Hdec).
  do 2 eexists. rewrite (handle_caught _ _ _ _ _ _ Ht), Hr.
  split; [reflexivity|]. split; [exact Hflag|]. split; [exact Hdec|].
  apply error_code_payload.
Qed.

Lemma null_error_body_loses_status_witness :
  exists r payload,
    outcome (handle (respond (json_response 404 "Not Found" JNull))
               no_sdk test_db test_env (get_webhook "users" "w1"))
    = Return r
    /\ isError r = Some true
    /\ decoded r = Some payload
    /\ error_code payload = JStr "GET_WEBHOOK_FAILED".
Proof.
  eapply (null_error_body_loses_status
            (respond (json_response 404 "Not Found" JNull))
            no_sdk test_db test_env (get_webhook "users" "w1") _
            (json_response 404 "Not Found" JNull));
    reflexivity.
Defined.

(** X3. A failure that matches no row of the tool's table is reported under
    the tool's fallback code with the message of the thrown value passed
    on unchanged, for every tool. *)
Theorem unclassified_failure_keeps_message :
  forall fetch sdk db env c (e : thrown) msg,
    outcome (attempt fetch sdk db env c) = Throw e ->
    classified c e = false ->
    e_message e = JStr msg -> msg <> "" ->
    exists r suggestion,
      outcome (handle fetch sdk db env c) = Return r
      /\ isError r = Some true
      /\ decoded r
         = Some (error_payload (fallback_code c) (JStr msg) suggestion).
Proof.
  intros fetch sdk db env c e msg Ht Hc Hmsg Hne.
  destruct (recover_fallback c e Hc) as (dflt & sug & Hr & _).
  assert (Hor : js_or (e_message e) (JStr dflt) = JStr msg).
  { rewrite Hmsg. unfold js_or. cbn [truthy].
    apply String.eqb_neq in Hne. now rewrite Hne. }
  rewrite Hor in Hr.
  destruct (error_shape (fallback_code c) (JStr msg) sug) as (_ & Hflag & Hdec);
    [discriminate|].
  exists (recover c e), sug. rewrite (handle_caught _ _ _ _ _ _ Ht), Hr. auto.
Qed.

Lemma unclassified_failure_keeps_message_witness :
  exists r suggestion,
    outcome (handle no_fetch
               (rejecting_sdk {| e_status := JNum 500; e_message := JStr "boom" |})
               test_db test_env (get_document "users" "u1"))
    = Return r
    /\ isError r = Some true
    /\ decoded r = Some (error_payload "GET_FAILED" (JStr "boom") suggestion).
Proof.
  apply (unclassified_failure_keeps_message no_fetch
           (rejecting_sdk {| e_status := JNum 500; e_message := JStr "boom" |})
           test_db test_env (get_document "users" "u1")
           {| e_status := JNum 500; e_message := JStr "boom" |} "boom");
    [reflexivity | reflexivity | reflexivity | discriminate].
Defined.



(** ** Successful calls *)

Lemma apiFetch_success fetch url apiKey method b rq res :
  issued (apiFetch fetch url apiKey method b) = [Fetched rq] ->
  fetch rq = Resolved res ->
  res_ok res = true ->
  outcome (apiFetch fetch url apiKey method b)
  = if res_status res =? 204 then Return (JObj [("ok", JBool true)])
    else res_json res.
Proof.
  rewrite apiFetch_issued. intros Hi Hf Hok. apply fetched_inj in Hi. subst rq.
  now apply apiFetch_outcome.
Qed.

Lemma versionFetch_success fetch url apiKey verb rq res :
  issued (versionFetch fetch url apiKey verb) = [Fetched rq] ->
  fetch rq = Resolved res ->
  res_ok res = true ->
  outcome (versionFetch fetch url apiKey verb)
  = if res_status res =? 204 then Return (JObj [("ok", JBool true)])
    else res_json res.
Proof.
  rewrite versionFetch_issued. intros Hi Hf Hok. apply fetched_inj in Hi. subst rq.
  unfold versionFetch, bind, do_fetch. rewrite Hf, Hok. cbn [negb].
  destruct (res_status res =? 204); [reflexivity|].
  unfold lift. reflexivity.
Qed.

Lemma fetch_read_success {B} fetch rq0 rq res (k : jsval -> M B) :
  [Fetched rq0] = [Fetched rq] ->
  fetch rq = Resolved res -> res_ok res = true ->
  outcome (bind (do_fetch fetch rq0) (fun res => bind (read_json res) k))
  = match res_json res with
    | Return d => outcome (k d)
    | Throw e => Throw e
    end.
Proof.
  intros Hi Hf Hok. apply fetched_inj in Hi. subst rq0.
  unfold bind at 1, do_fetch. rewrite Hf.
  unfold read_json. rewrite Hok. cbn [negb]. unfold lift, bind, outcome.
  destruct (res_json res) as [d|e]; [|reflexivity].
  destruct (k d) as [t o]. reflexivity.
Qed.

Lemma no_content_ok res : res_status res = 204 -> res_ok res = true.
Proof. unfold res_ok. intros ->. reflexivity. Qed.

(** What the try block of a REST handler does with a 2xx reply. *)
Lemma attempt_rest_success fetch sdk db env c rq res :
  issued (attempt fetch sdk db env c) = [Fetched rq] ->
  fetch rq = Resolved res ->
  res_ok res = true ->
  (via_helper c = true ->
   outcome (attempt fetch sdk db env c)
   = if res_status res =? 204 then Return (success (no_content_payload c))
     else match res_json res with
          | Return d =>
              Return (success
                        (if passes_reply_on c then d else no_content_payload c))
          | Throw e => Throw e
          end)
  /\ (via_helper c = false -> passes_reply_on c = true ->
      outcome (attempt fetch sdk db env c)
      = match res_json res with
        | Return d => Return (success d)
        | Throw e => Throw e
        end)
  /\ (via_helper c = false ->
      forall e, res_json res = Throw e ->
                outcome (attempt fetch sdk db env c) = Throw e).
Proof.
  intros Hi Hf Hok. pose proof (sdk_not_fetched _ _ _ _ _ _ Hi) as Hu.
  destruct c; try discriminate Hu; cbn [attempt via_helper passes_reply_on] in *;
    unfold_rest;
    try change (webhookFetch fetch ?u ?k ?m ?b) with (apiFetch fetch u k m b) in *;
    (split; [intros Hv; try discriminate Hv
            |split; [intros Hv; try discriminate Hv; intros Hp; try discriminate Hp
                    |intros Hv; try discriminate Hv; intros e He]]);
    try (rewrite issued_bind_ret in Hi; rewrite outcome_bind_ret;
         first [ rewrite (apiFetch_success _ _ _ _ _ _ _ Hi Hf Hok)
               | rewrite (versionFetch_success _ _ _ _ _ _ Hi Hf Hok) ];
         destruct (res_status res =? 204); [reflexivity|];
         destruct (res_json res); reflexivity).
  - rewrite issued_fetch_read in Hi.
    rewrite (fetch_read_success _ _ rq res _ Hi Hf Hok).
    destruct (res_json res); reflexivity.
  - rewrite issued_fetch_read in Hi.
    rewrite (fetch_read_success _ _ rq res _ Hi Hf Hok). now rewrite He.
  - rewrite issued_fetch_read in Hi.
    rewrite (fetch_read_success _ _ rq res _ Hi Hf Hok).
    destruct (res_json res); reflexivity.
  - rewrite issued_fetch_read in Hi.
    rewrite (fetch_read_success _ _ rq res _ Hi Hf Hok). now rewrite He.
  - pose proof (export_issued fetch sdk db env collection filter) as H.
    rewrite handle_issued in H. cbn [attempt] in H. unfold export_collection_try in H.
    rewrite H in Hi. destruct (export_params filter) as [params|x]; [|discriminate Hi].
    rewrite bind_lift_return. unfold export_request in Hi.
    rewrite (fetch_read_success _ _ rq res _ Hi Hf Hok). now rewrite He.
  - rewrite issued_bind_ret in Hi. rewrite outcome_bind_ret.
    destruct id as [i|]; cbn [opt_string truthy to_String] in *;
      [destruct (String.eqb i ""); cbn [negb] in *|];
      rewrite ?bind_lift_return in *;
      rewrite (apiFetch_success _ _ _ _ _ _ _ Hi Hf Hok);
      (destruct (res_status res =? 204); [reflexivity|]);
      destruct (res_json res); reflexivity.
Qed.

(** X5. A 204 reply needs no body where the call goes through [apiFetch],
    [webhookFetch] or [versionFetch]: the tool answers with the success of
    [{ok: true}] ([delete_webhook] with its deletion record), whether or not
    the reply has a body that reads as JSON.  The three tools that call
    [fetch] inline read the body of every 2xx reply, so a 204 without one is
    answered with an error. *)
Theorem no_content_answers :
  forall fetch sdk db env c rq res,
    issued (handle fetch sdk db env c) = [Fetched rq] ->
    fetch rq = Resolved res ->
    res_status res = 204 ->
    if via_helper c
    then outcome (handle fetch sdk db env c)
         = Return (success (no_content_payload c))
    else forall e : thrown, res_json res = Throw e ->
                   outcome (handle fetch sdk db env c) = Return (recover c e)
                   /\ isError (recover c e) = Some true.
Proof.
  intros fetch sdk db env c rq res Hi Hf Hs.
  rewrite handle_issued in Hi.
  destruct (attempt_rest_success _ _ _ _ _ _ _ Hi Hf (no_content_ok res Hs))
    as (Hh & _ & Hin).
  destruct (via_helper c).
  - rewrite handle_outcome, (Hh eq_refl), Hs. reflexivity.
  - intros e He. rewrite (handle_caught _ _ _ _ _ _ (Hin eq_refl e He)).
    split; [reflexivity|].
    destruct (recover_expected c e) as (m & sug & -> & _). reflexivity.
Qed.

Lemma no_content_answers_witness :
  outcome (handle (respond no_content) no_sdk test_db test_env
             (delete_webhook "users" "w1"))
  = Return (success (JObj [("deleted", JBool true); ("webhookId", JStr "w1");
                           ("collection", JStr "users")])).
Proof.
  eapply (no_content_answers (respond no_content) no_sdk test_db test_env
            (delete_webhook "users" "w1") _ no_content);
    reflexivity.
Defined.

(** X6. The REST-backed tools other than [export_collection] and
    [delete_webhook] are transparent on success: when the remote API answers
    the tool's request with a 2xx status and a JSON body (and not with a 204
    where the call goes through a fetch helper), the tool answers with the
    success of exactly that body, and the text of its content block parses
    back to it: to the body itself when it is a JSON value, numbers with
    fractions and exponents included. *)
Theorem rest_reply_passed_on :
  forall fetch sdk db env c rq res payload,
    passes_reply_on c = true ->
    issued (handle fetch sdk db env c) = [Fetched rq] ->
    fetch rq = Resolved res ->
    res_ok res = true ->
    (via_helper c = true -> res_status res <> 204) ->
    res_json res = Return payload ->
    payload <> JUndef ->
    outcome (handle fetch sdk db env c) = Return (success payload)
    /\ decoded (success payload) = Some (to_json payload)
    /\ (json_value payload = true -> decoded (success payload) = Some payload).
Proof.
  intros fetch sdk db env c rq res payload Hp Hi Hf Hok H204 Hj Hd.
  split; [|split; [now apply success_decodes|]];
    [|intros Hv; rewrite <- (to_json_value payload Hv) at 2;
      now apply success_decodes].
  rewrite handle_issued in Hi.
  destruct (attempt_rest_success _ _ _ _ _ _ _ Hi Hf Hok) as (Hh & Hin & _).
  rewrite handle_outcome. destruct (via_helper c) eqn:Hv.
  - rewrite (Hh eq_refl). specialize (H204 eq_refl). apply Z.eqb_neq in H204.
    rewrite H204, Hj, Hp. reflexivity.
  - rewrite (Hin eq_refl Hp), Hj. reflexivity.
Qed.

Lemma rest_reply_passed_on_witness :
  outcome (handle (respond (ok_response search_hits))
             no_sdk test_db test_env
             (semantic_search "articles" "hello" None None None))
  = Return (success search_hits)
  /\ decoded (success search_hits) = Some search_hits.
Proof.
  destruct (rest_reply_passed_on
              (respond (ok_response search_hits))
              no_sdk test_db test_env
              (semantic_search "articles" "hello" None None None) _
              (ok_response search_hits) search_hits
              eq_refl eq_refl eq_refl eq_refl
              ltac:(intros _; discriminate) eq_refl ltac:(discriminate))
    as (Ho & _ & Hd).
  split; [exact Ho|]. apply Hd. reflexivity.
Defined.

Lemma called_inj db k db' k' : [Called db k] = [Called db' k'] -> db = db' /\ k = k'.
Proof. now intros [= -> ->]. Qed.

(** X7. The document tools that read or write documents, and
    [search_documents], are transparent on success: the tool answers with
    the success of exactly the value the SDK call returned. *)
Theorem sdk_result_passed_on :
  forall fetch sdk db env c db' k v,
    passes_result_on c = true ->
    issued (handle fetch sdk db env c) = [Called db' k] ->
    sdk db' k = Return v ->
    v <> JUndef ->
    db' = db
    /\ outcome (handle fetch sdk db env c) = Return (success v)
    /\ decoded (success v) = Some (to_json v).
Proof.
  intros fetch sdk db env c db' k v Hp Hi Hs Hv.
  rewrite handle_issued in Hi. rewrite handle_outcome.
  destruct c; try discriminate Hp; cbn [attempt] in *;
    unfold create_document_try, get_document_try, list_documents_try,
      update_document_try, patch_document_try, json_patch_document_try,
      search_documents_try in *;
    rewrite issued_bind_ret in Hi; unfold issued, call_sdk in Hi; cbn [fst] in Hi;
    apply called_inj in Hi as [<- <-];
    rewrite outcome_bind_ret; unfold outcome, call_sdk; cbn [snd];
    rewrite Hs; auto using success_decodes.
Qed.

Lemma sdk_result_passed_on_witness :
  test_db = test_db
  /\ outcome (handle no_fetch (fun _ _ => Return mock_doc) test_db test_env
                (get_document "users" "abc"))
     = Return (success mock_doc)
  /\ decoded (success mock_doc) = Some (to_json mock_doc).
Proof.
  eapply (sdk_result_passed_on no_fetch (fun _ _ => Return mock_doc) test_db
            test_env (get_document "users" "abc"));
    try reflexivity; discriminate.
Defined.

(** ** The environment *)

Lemma strip_trailing_slash_app s : strip_trailing_slash (s +:+ "/") = s.
Proof.
  induction s as [|c s IH]; [reflexivity|].
  cbn [String.append strip_trailing_slash]. rewrite IH.
  destruct s; reflexivity.
Qed.

Lemma strip_trailing_slash_cases s :
  s = strip_trailing_slash s \/ s = strip_trailing_slash s +:+ "/".
Proof.
  induction s as [|c s IH]; [left; reflexivity|].
  destruct s as [|c' s'].
  - cbn. destruct (Ascii.eqb c "/") eqn:E; [|left; reflexivity].
    apply Ascii.eqb_eq in E. subst c. right. reflexivity.
  - change (strip_trailing_slash (String c (String c' s')))
      with (String c (strip_trailing_slash (String c' s'))).
    destruct IH as [IH|IH]; [left|right]; cbn [String.append]; congruence.
Qed.

Lemma env_or_insert_empty (env : environment) name n fb :
  env_or (<[name := ""]> env) n fb = env_or (delete name env) n fb.
Proof.
  unfold env_or. destruct (decide (name = n)) as [->|Hne].
  - now rewrite lookup_insert_eq, lookup_delete_eq.
  - now rewrite lookup_insert_ne, lookup_delete_ne.
Qed.

(** X8. The REST-backed tools and the SDK client built at startup use the
    same credentials when the environment is the same: the same API key and
    project, and a base URL that differs at most by the one trailing slash
    that [resolveEnv] removes and [main] keeps. *)
Theorem rest_and_sdk_credentials :
  forall env db,
    main_credentials env = Some db ->
    apiKey (resolveEnv env) = apiKey db
    /\ project (resolveEnv env) = project db
    /\ baseUrl (resolveEnv env) = strip_trailing_slash (baseUrl db)
    /\ (baseUrl db = baseUrl (resolveEnv env)
        \/ baseUrl db = baseUrl (resolveEnv env) +:+ "/").
Proof.
  intros env db. unfold main_credentials, resolveEnv, env_or.
  destruct (env !! "JSONDB_API_KEY") as [key|]; [|discriminate].
  destruct (String.eqb key "") eqn:E; [discriminate|].
  intros [= <-]. cbn [apiKey project baseUrl].
  repeat split. apply strip_trailing_slash_cases.
Qed.

Lemma rest_and_sdk_credentials_witness :
  apiKey (resolveEnv test_env) = apiKey test_db
  /\ project (resolveEnv test_env) = project test_db
  /\ baseUrl (resolveEnv test_env) = strip_trailing_slash (baseUrl test_db)
  /\ (baseUrl test_db = baseUrl (resolveEnv test_env)
      \/ baseUrl test_db = baseUrl (resolveEnv test_env) +:+ "/").
Proof. apply (rest_and_sdk_credentials test_env test_db). reflexivity. Defined.

(** X9. One trailing slash of JSONDB_BASE_URL makes no difference to the
    REST-backed tools: a base URL configured as [u] followed by a slash is
    resolved to [u], and the resolved URL is always the configured one (or
    the default) with at most one final slash taken off. *)
Theorem base_url_trailing_slash :
  forall (env : environment) u,
    baseUrl (resolveEnv (<["JSONDB_BASE_URL" := u +:+ "/"]> env)) = u
    /\ (env_or env "JSONDB_BASE_URL" "https://api.jsondb.cloud"
        = baseUrl (resolveEnv env)
        \/ env_or env "JSONDB_BASE_URL" "https://api.jsondb.cloud"
           = baseUrl (resolveEnv env) +:+ "/").
Proof.
  intros env u. split; [|apply strip_trailing_slash_cases].
  unfold resolveEnv, env_or. cbn [baseUrl]. rewrite lookup_insert_eq.
  destruct (String.eqb (u +:+ "/") "") eqn:E.
  - apply String.eqb_eq in E. destruct u; discriminate E.
  - apply strip_trailing_slash_app.
Qed.

(** X10. A variable set to the empty string counts as unset, for every
    variable the bridge reads: the credentials the REST-backed tools
    resolve, what the process does at startup, and every tool call are the
    same as with the variable removed. *)
Theorem empty_variable_is_unset :
  forall (env : environment) name,
    resolveEnv (<[name := ""]> env) = resolveEnv (delete name env)
    /\ (forall connect listen,
           main (<[name := ""]> env) connect listen
           = main (delete name env) connect listen)
    /\ (forall fetch sdk db c,
           handle fetch sdk db (<[name := ""]> env) c
           = handle fetch sdk db (delete name env) c).
Proof.
  intros env name.
  assert (Hr : resolveEnv (<[name := ""]> env) = resolveEnv (delete name env)).
  { unfold resolveEnv. now rewrite !env_or_insert_empty. }
  split; [exact Hr|]. split.
  - intros connect listen. unfold main.
    assert (Hc : main_credentials (<[name := ""]> env)
                 = main_credentials (delete name env)).
    { unfold main_credentials. rewrite !env_or_insert_empty.
      destruct (decide (name = "JSONDB_API_KEY")) as [->|Hne].
      - now rewrite lookup_insert_eq, lookup_delete_eq.
      - now rewrite lookup_insert_ne, lookup_delete_ne. }
    rewrite Hc, !env_or_insert_empty. reflexivity.
  - intros fetch sdk db c. unfold handle. f_equal.
    now apply attempt_resolveEnv.
Qed.

(** ** The filter object *)

Lemma filter_step_assign o f :
  filter_step o f = js_assign o (field f) (entry_value f).
Proof.
  unfold filter_step, entry_value.
  destruct (String.eqb (operator f) "eq"); [reflexivity|].
  destruct (opMap_get (operator f)); reflexivity.
Qed.

Lemma filter_step_own o f :
  field f <> "__proto__" ->
  filter_step o f
  = {| own := obj_set (field f) (entry_value f) (own o); proto := proto o |}.
Proof.
  intros H. rewrite filter_step_assign. unfold js_assign.
  apply String.eqb_neq in H. now rewrite H.
Qed.

Lemma obj_set_keys k v ps k' :
  In k' (map fst (obj_set k v ps)) <-> k' = k \/ In k' (map fst ps).
Proof.
  induction ps as [|[k0 v0] ps IH]; cbn.
  - intuition congruence.
  - destruct (String.eqb k k0) eqn:E; cbn.
    + apply String.eqb_eq in E. subst k0. intuition congruence.
    + rewrite IH. intuition congruence.
Qed.

Lemma obj_set_NoDup k v ps :
  NoDup (map fst ps) -> NoDup (map fst (obj_set k v ps)).
Proof.
  induction ps as [|[k0 v0] ps IH]; cbn; intros H.
  - apply NoDup_singleton.
  - apply NoDup_cons_1_1 in H as Hk0. apply NoDup_cons_1_2 in H as Hps.
    destruct (String.eqb k k0) eqn:E; cbn.
    + apply String.eqb_eq in E. subst k0. now apply NoDup_cons_2.
    + apply NoDup_cons_2; [|auto].
      rewrite list_elem_of_In, obj_set_keys. rewrite list_elem_of_In in Hk0.
      apply String.eqb_neq in E. intros [->|Hin]; [congruence|].
      now apply Hk0.
Qed.

Lemma buildFilterObject_snoc filters f :
  buildFilterObject (filters ++ [f]) = filter_step (buildFilterObject filters) f.
Proof. unfold buildFilterObject. now rewrite fold_left_app. Qed.

(** X11. On entries none of which names the field [__proto__], the object
    [buildFilterObject] returns is an ordinary object with one own property
    per distinct field of the entries: no key twice, every key the field of
    some entry, and every field a key. *)
Theorem buildFilterObject_keys :
  forall filters,
    Forall (fun f => field f <> "__proto__") filters ->
    proto (buildFilterObject filters) = Object_prototype
    /\ NoDup (map fst (own (buildFilterObject filters)))
    /\ (forall k, In k (map fst (own (buildFilterObject filters)))
                  <-> In k (map field filters)).
Proof.
  induction filters as [|f filters IH] using rev_ind; intros HF.
  - split; [reflexivity|]. split; [constructor|]. intros k. reflexivity.
  - apply Forall_app in HF as [HF Hf]. apply Forall_cons_1 in Hf as [Hf _].
    destruct (IH HF) as (Hp & Hn & Hk).
    rewrite buildFilterObject_snoc, (filter_step_own _ f Hf). cbn [own proto].
    split; [exact Hp|]. split; [now apply obj_set_NoDup|].
    intros k. rewrite obj_set_keys, Hk, map_app, in_app_iff. cbn. intuition.
Qed.

Lemma buildFilterObject_keys_witness :
  proto (buildFilterObject
           [ {| field := "age"; operator := "gte"; value := JNum 21 |};
             {| field := "age"; operator := "lt"; value := JNum 65 |} ])
  = Object_prototype
  /\ NoDup (map fst (own (buildFilterObject
           [ {| field := "age"; operator := "gte"; value := JNum 21 |};
             {| field := "age"; operator := "lt"; value := JNum 65 |} ])))
  /\ (forall k, In k (map fst (own (buildFilterObject
           [ {| field := "age"; operator := "gte"; value := JNum 21 |};
             {| field := "age"; operator := "lt"; value := JNum 65 |} ])))
                <-> In k (map field
           [ {| field := "age"; operator := "gte"; value := JNum 21 |};
             {| field := "age"; operator := "lt"; value := JNum 65 |} ])).
Proof.
  apply (buildFilterObject_keys
           [ {| field := "age"; operator := "gte"; value := JNum 21 |};
             {| field := "age"; operator := "lt"; value := JNum 65 |} ]).
  repeat constructor; discriminate.
Defined.

(** X12. Entries are applied in order, and a later entry whose field is not
    [__proto__] replaces an earlier one on the same field, whole, whatever
    the entries before it are: after one more such entry, its field holds
    the value of that entry alone (two operators on one field are not
    merged) and every other field holds what it held before.  For the nine
    operators the [search_documents] schema admits, the value of an entry
    is the raw value under [eq] and the value wrapped under the operator's
    [$] name otherwise. *)
Theorem buildFilterObject_later_entry_wins :
  (forall filters f k,
      field f <> "__proto__" ->
      obj_lookup k (own (buildFilterObject (filters ++ [f])))
      = if String.eqb k (field f) then entry_value f
        else obj_lookup k (own (buildFilterObject filters)))
  /\ (forall fld o v,
         entry_value (search_entry (fld, o, v))
         = match o with
           | f_eq => v
           | _ => JObj [("$" +:+ filter_operator_name o, v)]
           end).
Proof.
  split.
  - intros filters f k Hf.
    rewrite buildFilterObject_snoc, (filter_step_own _ f Hf). cbn [own].
    apply obj_lookup_set.
  - intros fld o v. destruct o; reflexivity.
Qed.

Lemma buildFilterObject_later_entry_wins_witness :
  obj_lookup "age"
    (own (buildFilterObject
            ([ {| field := "age"; operator := "gte"; value := JNum 21 |} ]
             ++ [ {| field := "age"; operator := "lt"; value := JNum 65 |} ])))
  = JObj [("$lt", JNum 65)].
Proof.
  apply (proj1 buildFilterObject_later_entry_wins
           [ {| field := "age"; operator := "gte"; value := JNum 21 |} ]
           {| field := "age"; operator := "lt"; value := JNum 65 |} "age").
  discriminate.
Defined.

(** ** Query strings *)

Lemma count_char_app c a b :
  count_char c (a +:+ b) = (count_char c a + count_char c b)%nat.
Proof. induction a as [|x a IH]; cbn; [reflexivity|]. rewrite IH. lia. Qed.

Lemma urlencode_byte_safe x c :
  query_safe x = false -> count_char x (urlencode_byte c) = O.
Proof.
  intros Hx.
  assert (H : forallb query_safe (list_ascii_of_string (urlencode_byte c)) = true).
  { destruct c as [[] [] [] [] [] [] [] []]; reflexivity. }
  revert H. generalize (urlencode_byte c). intros s.
  induction s as [|y s IH]; [reflexivity|].
  cbn. intros H. apply andb_prop in H as [Hy Hs]. rewrite (IH Hs).
  destruct (Ascii.eqb y x) eqn:E; [|reflexivity].
  apply Ascii.eqb_eq in E. congruence.
Qed.

Lemma urlencode_safe x s : query_safe x = false -> count_char x (urlencode s) = O.
Proof.
  intros Hx. induction s as [|c s IH]; [reflexivity|].
  cbn [urlencode]. now rewrite count_char_app, IH, urlencode_byte_safe.
Qed.

Lemma count_char_pair x (p : string * string) :
  query_safe x = false ->
  count_char x (urlencode p.1 +:+ "=" +:+ urlencode p.2)
  = if Ascii.eqb "=" x then 1%nat else O.
Proof.
  intros Hx. rewrite !count_char_app, !urlencode_safe by exact Hx.
  cbn [count_char]. destruct (Ascii.eqb "=" x); reflexivity.
Qed.

Lemma count_char_params x ps :
  query_safe x = false ->
  count_char x (params_toString ps)
  = ((if Ascii.eqb "=" x then List.length ps else O)
     + (if Ascii.eqb "&" x then pred (List.length ps) else O))%nat.
Proof.
  intros Hx. unfold params_toString.
  induction ps as [|p ps IH];
    [cbn [map join count_char List.length pred];
     now destruct (Ascii.eqb "=" x), (Ascii.eqb "&" x)|].
  destruct ps as [|q ps].
  - cbn [map join List.length pred]. rewrite (count_char_pair x p Hx).
    destruct (Ascii.eqb "=" x), (Ascii.eqb "&" x); reflexivity.
  - change (join "&" (map (fun p => urlencode p.1 +:+ "=" +:+ urlencode p.2)
                        (p :: q :: ps)))
      with ((urlencode p.1 +:+ "=" +:+ urlencode p.2) +:+ "&"
            +:+ join "&" (map (fun p => urlencode p.1 +:+ "=" +:+ urlencode p.2)
                            (q :: ps))).
    rewrite count_char_app, (count_char_pair x p Hx), count_char_app, IH.
    cbn [count_char List.length pred].
    destruct (Ascii.eqb "=" x), (Ascii.eqb "&" x); lia.
Qed.

(** X13. Names and values cannot break out of a query string: whatever they
    contain, the text of [n] parameters has exactly [n] equals signs and
    [n - 1] ampersands, and besides those only letters, digits and the
    characters [* - . _ + %]. *)
Theorem query_string_well_formed :
  forall ps,
    count_char "=" (params_toString ps) = List.length ps
    /\ count_char "&" (params_toString ps) = pred (List.length ps)
    /\ (forall x, query_safe x = false -> x <> "="%char -> x <> "&"%char ->
                  count_char x (params_toString ps) = O).
Proof.
  intros ps. split; [|split].
  - rewrite count_char_params by reflexivity.
    change (Ascii.eqb "=" "=") with true. change (Ascii.eqb "&" "=") with false.
    cbv iota. lia.
  - rewrite count_char_params by reflexivity. reflexivity.
  - intros x Hx He Ha. rewrite (count_char_params x ps Hx).
    apply Ascii.eqb_neq in He, Ha. rewrite Ascii.eqb_sym in He, Ha.
    now rewrite He, Ha.
Qed.

Lemma query_string_well_formed_witness :
  count_char "#" (params_toString [("filter[name]", "a#b&c=d e")]) = O.
Proof.
  apply (proj2 (proj2 (query_string_well_formed [("filter[name]", "a#b&c=d e")]))
           "#"%char); [reflexivity | discriminate | discriminate].
Defined.










(** ** The version tools *)

Lemma urlencode_uint u :
  urlencode (NilEmpty.string_of_uint u) = NilEmpty.string_of_uint u.
Proof.
  induction u; [reflexivity|..];
    cbn [NilEmpty.string_of_uint];
    match goal with
    | |- urlencode (String ?c ?r) = _ =>
        change (urlencode (String c r)) with (urlencode_byte c +:+ urlencode r)
    end; rewrite IHu; reflexivity.
Qed.

Lemma show_digits p :
  Z.pos p <= 9007199254740991 -> show p = NilEmpty.string_of_uint (Pos.to_uint p).
Proof.
  intros H. unfold show. rewrite Number_toString_integer by (cbn [Z.abs]; lia).
  reflexivity.
Qed.

Lemma urlencode_show p :
  Z.pos p <= 9007199254740991 -> urlencode (show p) = show p.
Proof. intros H. rewrite show_digits by exact H. apply urlencode_uint. Qed.

(** X15. Each version tool issues one request that never carries a body:
    [list_versions], [get_version] and [diff_versions] a GET,
    [restore_version] a POST, to the document's [versions] path.  Version
    numbers (safe integers, which JavaScript prints in full) go into the
    path and into the query of [diff_versions] in plain decimal, in the
    order [from], [to]. *)
Theorem version_tool_requests :
  forall fetch sdk db env collection id version from to,
    Z.pos version <= 9007199254740991 ->
    Z.pos from <= 9007199254740991 ->
    Z.pos to <= 9007199254740991 ->
    let c := resolveEnv env in
    let doc := baseUrl c +:+ "/" +:+ project c +:+ "/" +:+ collection
               +:+ "/" +:+ id in
    issued (handle fetch sdk db env (list_versions collection id))
    = [Fetched {| url := doc +:+ "/versions"; method := "GET";
                  headers := json_headers (apiKey c); body := None |}]
    /\ issued (handle fetch sdk db env (get_version collection id version))
       = [Fetched {| url := doc +:+ "/versions/" +:+ show version; method := "GET";
                     headers := json_headers (apiKey c); body := None |}]
    /\ issued (handle fetch sdk db env (restore_version collection id version))
       = [Fetched {| url := doc +:+ "/versions/" +:+ show version +:+ "/restore";
                     method := "POST";
                     headers := json_headers (apiKey c); body := None |}]
    /\ issued (handle fetch sdk db env (diff_versions collection id from to))
       = [Fetched {| url := doc +:+ "/versions/diff?from=" +:+ show from
                              +:+ "&to=" +:+ show to;
                     method := "GET";
                     headers := json_headers (apiKey c); body := None |}].
Proof.
  intros fetch sdk db env collection id version from to Hv Hf Ht c doc. subst c doc.
  rewrite !handle_issued. cbn [attempt].
  unfold list_versions_try, get_version_try, restore_version_try,
    diff_versions_try.
  rewrite !issued_bind_ret, !versionFetch_issued. cbn [default].
  unfold params_toString. cbn [map join fst snd].
  rewrite (urlencode_show from Hf), (urlencode_show to Ht).
  change (urlencode "from") with "from". change (urlencode "to") with "to".
  rewrite !append_assoc. repeat split.
Qed.

Lemma version_tool_requests_witness :
  issued (handle no_fetch no_sdk test_db test_env (diff_versions "orders" "o1" 2 5))
  = [Fetched {| url := "https://api.jsondb.cloud/test-project/orders/o1/versions/diff?from=2&to=5";
                method := "GET";
                headers := json_headers "jdb_sk_test_abc";
                body := None |}].
Proof.
  refine (proj2 (proj2 (proj2 (version_tool_requests no_fetch no_sdk test_db
                                 test_env "orders" "o1" 1 2 5 _ _ _))));
    lia.
Defined.

(** ** Startup over HTTP *)

Lemma uint_string_digit p :
  exists c t, NilEmpty.string_of_uint (Pos.to_uint p) = String c t
              /\ digit_of c <> None.
Proof.
  pose proof (Unsigned.to_uint_nonnil p) as Hn.
  destruct (Pos.to_uint p); [congruence|..]; cbn; eauto 10.
Qed.

Lemma span_digits_pos p :
  span_digits (NilEmpty.string_of_uint (Pos.to_uint p)) = (Pos.to_uint p, "").
Proof.
  pose proof (span_digits_text (Pos.to_uint p) "" eq_refl) as H.
  now rewrite append_nil_r in H.
Qed.

Lemma trim_start_none fuel s : space_length s = 0%nat -> trim_start fuel s = s.
Proof. intros H. destruct fuel; [reflexivity|]. cbn [trim_start]. now rewrite H. Qed.

Lemma space_length_digit c t :
  match digit_of c with Some _ => True | None => c = "-"%char end ->
  space_length (String c t) = 0%nat
  /\ (digit_of c <> None -> Ascii.eqb c "-" = false /\ Ascii.eqb c "+" = false).
Proof.
  destruct c as [[] [] [] [] [] [] [] []]; intros H; try discriminate H;
    (split; [reflexivity|]); intros Hd; try (now split);
    exfalso; apply Hd; reflexivity.
Qed.

Lemma parseInt_digits (negative : bool) p :
  parseInt ((if negative then "-" else "") +:+ NilEmpty.string_of_uint (Pos.to_uint p))
  = to_double negative p 0.
Proof.
  destruct (uint_string_digit p) as (c & t & Hs & Hc).
  pose proof (Unsigned.to_uint_nonnil p) as Hn.
  unfold parseInt. destruct negative.
  - change ("-" +:+ ?x) with (String "-" x).
    rewrite trim_start_none by reflexivity.
    change (Ascii.eqb "-" "-") with true. cbv iota.
    rewrite span_digits_pos, of_uint_pos.
    destruct (Pos.to_uint p); [contradiction|reflexivity..].
  - change ("" +:+ ?x) with x. rewrite Hs.
    destruct (space_length_digit c t) as [Hsp Hsign];
      [destruct (digit_of c); [exact I|congruence]|].
    destruct (Hsign Hc) as [Hm Hp].
    rewrite trim_start_none by exact Hsp. rewrite Hm, Hp.
    rewrite <- Hs, span_digits_pos, of_uint_pos.
    destruct (Pos.to_uint p); [contradiction|reflexivity..].
Qed.

(** [parseInt] reads the decimal text of an integer back. *)
Lemma parseInt_Z_to_string (n : Z) :
  Z.abs n <= 2 ^ 53 -> parseInt (Z_to_string n) = n.
Proof.
  intros H. destruct n as [|p|p]; [reflexivity|..]; cbn [Z_to_string of_Z].
  - pose proof (parseInt_digits false p) as E. cbn [String.append] in E.
    rewrite E. now apply to_double_integer.
  - pose proof (parseInt_digits true p) as E. cbn [String.append] in E.
    rewrite E. now apply to_double_integer.
Qed.

Lemma Z_to_string_nonempty n : String.eqb (Z_to_string n) "" = false.
Proof.
  destruct n as [|p|p]; [reflexivity| |reflexivity].
  destruct (uint_string_digit p) as (c & t & Hs & _).
  cbn [Z_to_string]. now rewrite Hs.
Qed.

Lemma env_or_some (env : environment) n v fb :
  env !! n = Some v -> String.eqb v "" = false -> env_or env n fb = v.
Proof. unfold env_or. now intros -> ->. Qed.

Lemma env_or_none (env : environment) n fb : env !! n = None -> env_or env n fb = fb.
Proof. unfold env_or. now intros ->. Qed.

(** X16. With a key and JSONDB_MCP_TRANSPORT set to [http] the process
    builds the SDK client and the HTTP listener and no stdio session (so
    a failing stdio connection plays no part), and asks the listener to
    listen on the port number (0 to 65535) that JSONDB_MCP_PORT spells in
    decimal, 3100 when the variable is unset, at JSONDB_MCP_HOST, the
    loopback address 127.0.0.1 when that is unset.  Once the server
    listens, the process logs [MCP HTTP server listening on host:port] and
    does nothing more; when [listen] throws, it logs the fatal error and
    exits with status 1. *)
Theorem http_listens_on_configured_port :
  forall (env : environment) db connect (listen : number -> string -> listen_result),
    main_credentials env = Some db ->
    env !! "JSONDB_MCP_TRANSPORT" = Some "http" ->
    let host := env_or env "JSONDB_MCP_HOST" "127.0.0.1" in
    (forall n : Z,
        0 <= n <= 65535 ->
        env !! "JSONDB_MCP_PORT" = Some (Z_to_string n) ->
        (listen n host = listening ->
         main env connect listen
         = [new_JsonDB db; http_create_server; http_listen n host;
            console_error ("MCP HTTP server listening on " +:+ host +:+ ":"
                             +:+ Z_to_string n)])
        /\ (forall err,
               listen n host = listen_throws err ->
               main env connect listen
               = [new_JsonDB db; http_create_server; http_listen n host;
                  console_error_value "Fatal error starting MCP server:" err;
                  process_exit 1]))
    /\ (env !! "JSONDB_MCP_PORT" = None ->
        env !! "JSONDB_MCP_HOST" = None ->
        listen 3100 "127.0.0.1" = listening ->
        main env connect listen
        = [new_JsonDB db; http_create_server; http_listen 3100 "127.0.0.1";
           console_error "MCP HTTP server listening on 127.0.0.1:3100"])
    /\ Forall (fun ev => ev <> create_server /\ ev <> stdio_connect)
         (main env connect listen).
Proof.
  intros env db connect listen Hdb Ht host. unfold main. rewrite Hdb.
  rewrite (env_or_some env "JSONDB_MCP_TRANSPORT" "http" "stdio" Ht eq_refl).
  change (String.eqb "http" "http") with true. cbv iota. cbv zeta. fold host.
  split; [|split].
  - intros n Hn Hp.
    rewrite (env_or_some env "JSONDB_MCP_PORT" _ "3100" Hp (Z_to_string_nonempty n)).
    rewrite parseInt_Z_to_string by lia.
    split.
    + intros ->. rewrite Number_toString_integer by lia. reflexivity.
    + intros err ->. reflexivity.
  - intros Hp Hh Hl. subst host.
    rewrite (env_or_none env _ "3100" Hp), (env_or_none env _ _ Hh).
    change (parseInt "3100") with (of_Z 3100). rewrite Hl. reflexivity.
  - repeat (apply List.Forall_cons; [split; discriminate|]).
    destruct (listen _ host);
      repeat (apply List.Forall_cons; [split; discriminate|]);
      apply List.Forall_nil.
Qed.

Lemma http_listens_on_configured_port_witness :
  main (<["JSONDB_MCP_TRANSPORT" := "http"]>
          (<["JSONDB_MCP_PORT" := "8080"]> test_env)) None node_listen
  = [new_JsonDB test_db; http_create_server; http_listen 8080 "127.0.0.1";
     console_error "MCP HTTP server listening on 127.0.0.1:8080"].
Proof.
  refine (proj1 (proj1 (http_listens_on_configured_port
                   (<["JSONDB_MCP_TRANSPORT" := "http"]>
                      (<["JSONDB_MCP_PORT" := "8080"]> test_env))
                   test_db None node_listen _ _) 8080 _ _) _);
    [reflexivity | reflexivity | lia | reflexivity | reflexivity].
Defined.

(** X17. The HTTP listener serves three routes and matches them on the whole
    request URL: [/mcp] under every method goes to a server made for that
    request, [/health] under GET is answered 200 with [{"status":"ok"}],
    and everything else is answered 404 with [{"error":"Not found"}]:
    [/health] under another method, and either path followed by a query
    string or a slash.  Both answers are JSON texts. *)
Theorem http_routes :
  (forall req,
      http_handler req = serve_mcp
      <-> req_url req = "/mcp"
          /\ ~ (req_method req = "GET" /\ req_url req = "/health"))
  /\ (forall req,
         (exists h b, http_handler req = respond_json 200 h b)
         <-> req_method req = "GET" /\ req_url req = "/health")
  /\ (forall req,
         (exists h b, http_handler req = respond_json 404 h b)
         <-> req_url req <> "/mcp"
             /\ ~ (req_method req = "GET" /\ req_url req = "/health"))
  /\ (forall req status h b,
         http_handler req = respond_json status h b ->
         h = [("Content-Type", "application/json")]
         /\ exists t, b = Some t
                      /\ JSON_parse t
                         = Some (if status =? 200 then JObj [("status", JStr "ok")]
                                 else JObj [("error", JStr "Not found")]))
  /\ (forall m rest,
         rest <> "" ->
         exists h b,
           http_handler {| req_method := m; req_url := "/mcp" +:+ rest |}
           = respond_json 404 h b
           /\ http_handler {| req_method := m; req_url := "/health" +:+ rest |}
              = respond_json 404 h b).
Proof.
  assert (Hcases : forall req,
             (req_method req = "GET" /\ req_url req = "/health"
              /\ http_handler req
                 = respond_json 200 [("Content-Type", "application/json")]
                     (JSON_stringify (JObj [("status", JStr "ok")])))
             \/ (~ (req_method req = "GET" /\ req_url req = "/health")
                 /\ req_url req = "/mcp" /\ http_handler req = serve_mcp)
             \/ (~ (req_method req = "GET" /\ req_url req = "/health")
                 /\ req_url req <> "/mcp"
                 /\ http_handler req
                    = respond_json 404 [("Content-Type", "application/json")]
                        (JSON_stringify (JObj [("error", JStr "Not found")])))).
  { intros req. unfold http_handler.
    destruct (String.eqb (req_method req) "GET") eqn:Em;
      destruct (String.eqb (req_url req) "/health") eqn:Eh;
      destruct (String.eqb (req_url req) "/mcp") eqn:Ec;
      cbn [andb];
      rewrite ?String.eqb_eq, ?String.eqb_neq in *;
      intuition congruence. }
  split; [|split; [|split; [|split]]].
  - intros req. destruct (Hcases req) as [H|[H|H]];
      destruct H as (H1 & H2 & ->); split; try discriminate; try tauto.
  - intros req. destruct (Hcases req) as [H|[H|H]];
      destruct H as (H1 & H2 & ->); split; eauto; try tauto;
      intros (h & b & [=]).
  - intros req. destruct (Hcases req) as [H|[H|H]];
      destruct H as (H1 & H2 & ->); split; eauto; try tauto;
      try (intros (h & b & [=])); try (intros [? ?]; tauto).
  - intros req status h b. destruct (Hcases req) as [H|[H|H]];
      destruct H as (H1 & H2 & ->); intros [= <- <- <-]; split; try reflexivity;
      eexists; split; reflexivity.
  - intros m rest Hrest.
    assert (Hm : String.eqb ("/mcp" +:+ rest) "/mcp" = false).
    { destruct rest; [congruence|reflexivity]. }
    assert (Hh : String.eqb ("/health" +:+ rest) "/health" = false).
    { destruct rest; [congruence|reflexivity]. }
    assert (Hmh : String.eqb ("/mcp" +:+ rest) "/health" = false) by reflexivity.
    assert (Hhm : String.eqb ("/health" +:+ rest) "/mcp" = false) by reflexivity.
    do 2 eexists. unfold http_handler. cbn [req_method req_url].
    rewrite Hm, Hh, Hmh, Hhm, !andb_false_r. split; reflexivity.
Qed.

Lemma http_routes_witness :
  exists h b,
    http_handler {| req_method := "POST"; req_url := "/mcp" +:+ "?session=1" |}
    = respond_json 404 h b
    /\ http_handler {| req_method := "POST"; req_url := "/health" +:+ "?session=1" |}
       = respond_json 404 h b.
Proof.
  apply (proj2 (proj2 (proj2 (proj2 http_routes))) "POST" "?session=1").
  discriminate.
Defined.

(** ** Resources *)


Lemma collections_list_resource_eq fetch env :
  collections_list_resource fetch env
  = try_catch
      (bind (do_fetch fetch {| url := baseUrl (resolveEnv env) +:+ "/"
                                        +:+ project (resolveEnv env);
                               method := "GET";
                               headers := json_headers (apiKey (resolveEnv env));
                               body := None |})
         (fun res =>
            if negb (res_ok res) then
              ret (json_contents "jsondb://collections"
                     (JObj [("error",
                             JStr ("Failed to fetch collections: "
                                     +:+ res_statusText res))]))
            else
              bind (lift (res_json res))
                (fun data => ret (json_contents "jsondb://collections" data))))
      (fun err =>
         bind (lift (read_caught "message" err))
           (fun e =>
              ret (json_contents "jsondb://collections"
                     (JObj [("error",
                             js_or (e_message e)
                               (JStr "Failed to fetch collections"))])))).
Proof. reflexivity. Qed.



(** X19. The resource [jsondb://collections] issues the very request of the
    [list_collections] tool, and on a 2xx reply with a JSON body it
    answers with the same text as the tool.  On a non-2xx reply the two
    differ: the resource does not read the body, and answers with
    [{error: "Failed to fetch collections: " + statusText}] whatever the
    body says. *)
Theorem collections_resource_follows_tool :
  forall fetch sdk db env,
    issued (collections_list_resource fetch env)
    = issued (handle fetch sdk db env list_collections)
    /\ (forall rq res,
           issued (collections_list_resource fetch env) = [Fetched rq] ->
           fetch rq = Resolved res ->
           (res_ok res = true ->
            forall d, res_json res = Return d ->
              outcome (collections_list_resource fetch env)
              = Return (json_contents "jsondb://collections" d)
              /\ outcome (handle fetch sdk db env list_collections)
                 = Return (success d)
              /\ resource_text (json_contents "jsondb://collections" d)
                 = response_text (success d))
           /\ (res_ok res = false ->
               outcome (collections_list_resource fetch env)
               = Return (json_contents "jsondb://collections"
                           (JObj [("error",
                                   JStr ("Failed to fetch collections: "
                                           +:+ res_statusText res))])))).
Proof.
  intros fetch sdk db env.
  assert (Hi : issued (collections_list_resource fetch env)
               = [Fetched {| url := baseUrl (resolveEnv env) +:+ "/"
                                      +:+ project (resolveEnv env);
                             method := "GET";
                             headers := json_headers (apiKey (resolveEnv env));
                             body := None |}]).
  { rewrite collections_list_resource_eq. unfold try_catch, bind, do_fetch.
    destruct (fetch _) as [[| |e]|res]; [reflexivity..|].
    destruct (negb (res_ok res)); [reflexivity|].
    unfold lift. destruct (res_json res) as [d|[| |e]]; reflexivity. }
  split.
  - rewrite Hi, handle_issued. cbn [attempt]. unfold list_collections_try.
    now rewrite issued_fetch_read.
  - intros rq res Hrq Hf. rewrite Hi in Hrq. apply fetched_inj in Hrq. subst rq.
    split.
    + intros Hok d Hd. split; [|split; [|reflexivity]].
      * rewrite collections_list_resource_eq. unfold try_catch, bind, do_fetch.
        rewrite Hf, Hok. cbn [negb]. unfold lift. now rewrite Hd.
      * apply handle_return. cbn [attempt]. unfold list_collections_try.
        rewrite (fetch_read_success fetch _ _ res _ eq_refl Hf Hok), Hd.
        reflexivity.
    + intros Hok. rewrite collections_list_resource_eq.
      unfold try_catch, bind, do_fetch. rewrite Hf, Hok. reflexivity.
Qed.

Lemma collections_resource_follows_tool_witness :
  outcome (collections_list_resource
             (respond (failing_response 401 "Unauthorized" "invalid API key"))
             test_env)
  = Return (json_contents "jsondb://collections"
              (JObj [("error",
                      JStr "Failed to fetch collections: Unauthorized")])).
Proof.
  destruct (collections_resource_follows_tool
              (respond (failing_response 401 "Unauthorized" "invalid API key"))
              no_sdk test_db test_env) as [_ H].
  edestruct H as [_ Hfail]; [reflexivity|reflexivity|].
  apply Hfail. reflexivity.
Defined.

Lemma to_String_names names :
  to_String (JArr (map JStr names)) = Return (join "," names).
Proof.
  cbn [to_String].
  assert (H : (fix go (l : list jsval) : Exc (list string) :=
                 match l with
                 | [] => Return []
                 | x :: r =>
                     and_then
                       match x with
                       | JUndef | JNull => Return ""
                       | _ => to_String x
                       end
                       (fun t => and_then (go r) (fun ts => Return (t :: ts)))
                 end) (map JStr names) = Return names).
  { induction names as [|n names IH]; [reflexivity|].
    cbn [map]. cbn [to_String and_then]. rewrite IH. reflexivity. }
  rewrite H. reflexivity.
Qed.

(** X20. The schema resource reads the schema through the same SDK call as
    the [get_schema] tool, and when the call returns it answers with the
    text the tool answers with: the schema under [schema], or [null] and
    a note that none is set.  A collection parameter that is a list of
    strings is read as their comma-joined text. *)
Theorem schema_resource_follows_tool :
  forall fetch sdk db env href collection,
    issued (collection_schema_resource sdk db href (JStr collection))
    = [Called db (Sdk_getSchema collection)]
    /\ issued (handle fetch sdk db env (get_schema collection))
       = [Called db (Sdk_getSchema collection)]
    /\ (forall v,
           sdk db (Sdk_getSchema collection) = Return v ->
           exists payload,
             outcome (collection_schema_resource sdk db href (JStr collection))
             = Return (json_contents href payload)
             /\ outcome (handle fetch sdk db env (get_schema collection))
                = Return (success payload)
             /\ resource_text (json_contents href payload)
                = response_text (success payload)
             /\ js_get payload "collection" = Return (JStr collection)
             /\ js_get payload "schema" = Return v)
    /\ (forall names,
           issued (collection_schema_resource sdk db href (JArr (map JStr names)))
           = [Called db (Sdk_getSchema (join "," names))]).
Proof.
  intros fetch sdk db env href collection.
  assert (Hi : forall param name,
             match param with JStr s => Return s | _ => to_String param end
             = Return name ->
             issued (collection_schema_resource sdk db href param)
             = [Called db (Sdk_getSchema name)]).
  { intros param name Hn. unfold collection_schema_resource.
    rewrite Hn, bind_lift_return. unfold try_catch, bind, call_sdk.
    destruct (sdk db _) as [v|[| |e]]; reflexivity. }
  split; [now apply Hi|]. split; [|split].
  - rewrite handle_issued. cbn [attempt]. unfold get_schema_try.
    apply issued_bind_call. intros a. destruct a; reflexivity.
  - intros v Hv.
    exists (match v with
            | JNull =>
                JObj [("collection", JStr collection); ("schema", JNull);
                      ("message",
                       JStr ("No schema is set for collection '" +:+ collection
                               +:+ "'. Any valid JSON document can be stored."))]
            | _ => JObj [("collection", JStr collection); ("schema", v)]
            end).
    split; [|split; [|split; [reflexivity|]]].
    + unfold collection_schema_resource. rewrite bind_lift_return.
      unfold try_catch, bind, call_sdk. rewrite Hv. reflexivity.
    + apply handle_return. cbn [attempt].
      unfold get_schema_try, bind, call_sdk, outcome. rewrite Hv.
      destruct v; reflexivity.
    + destruct v; split; reflexivity.
  - intros names. apply Hi.
    destruct names; [reflexivity|]. apply to_String_names.
Qed.

Lemma schema_resource_follows_tool_witness :
  exists payload,
    outcome (collection_schema_resource (fun _ _ => Return JNull) test_db
               "jsondb://collections/users/schema" (JStr "users"))
    = Return (json_contents "jsondb://collections/users/schema" payload)
    /\ outcome (handle no_fetch (fun _ _ => Return JNull) test_db test_env
                  (get_schema "users"))
       = Return (success payload)
    /\ resource_text (json_contents "jsondb://collections/users/schema" payload)
       = response_text (success payload)
    /\ js_get payload "collection" = Return (JStr "users")
    /\ js_get payload "schema" = Return JNull.
Proof.
  apply (proj1 (proj2 (proj2 (schema_resource_follows_tool no_fetch
                                (fun _ _ => Return JNull) test_db test_env
                                "jsondb://collections/users/schema" "users")))
           JNull).
  reflexivity.
Defined.

(** ** Success texts *)

(** X21. The text of a success response is a faithful copy of the payload:
    for every JSON value (no [undefined] in it, every number a finite
    double other than [-0], integer or not, and no key twice in an object:
    whatever [res.json ()] gives) the response has one content block whose
    text parses back to exactly that value.  Of a payload that is
    [undefined] nothing is left: the block has no text at all. *)
Theorem success_text_round_trip :
  (forall d, json_value d = true ->
             exists t, response_text (success d) = Some t
                       /\ JSON_parse t = Some d)
  /\ response_text (success JUndef) = None.
Proof.
  split; [|reflexivity].
  intros d Hd.
  assert (Hn : d <> JUndef) by (intros ->; discriminate).
  pose proof (success_decodes d Hn) as H. unfold decoded in H.
  destruct (response_text (success d)) as [t|]; [|discriminate].
  exists t. split; [reflexivity|]. now rewrite H, to_json_value.
Qed.

Lemma success_text_round_trip_witness :
  exists t, response_text (success search_hits) = Some t
            /\ JSON_parse t = Some search_hits.
Proof. apply (proj1 success_text_round_trip search_hits). reflexivity. Defined.

(** ** validate_document *)

Lemma fold_obj_set_lookup k kvs : forall acc,
  unique_keys kvs = true ->
  obj_lookup k (fold_left (fun acc kv => obj_set kv.1 kv.2 acc) kvs acc)
  = if obj_has k kvs then obj_lookup k kvs else obj_lookup k acc.
Proof.
  induction kvs as [|[k0 v0] kvs IH]; intros acc Hu; [reflexivity|].
  cbn in Hu. apply andb_prop in Hu as [Hk Hu]. apply negb_true_iff in Hk.
  cbn [fold_left fst snd]. rewrite (IH _ Hu), obj_lookup_set. cbn.
  destruct (String.eqb k k0) eqn:E; [|reflexivity].
  apply String.eqb_eq in E. subst k0. now rewrite Hk.
Qed.

(** X22. [validate_document] answers with the properties of the validation
    result, and adds the collection name only when the result has no
    property [collection] of its own: the result is spread over the name,
    so a [collection] in it replaces the name the tool was called with. *)
Theorem validate_document_merges :
  forall fetch sdk db env collection data ps,
    sdk db (Sdk_validate collection (JObj data)) = Return (JObj ps) ->
    unique_keys ps = true ->
    exists payload,
      outcome (handle fetch sdk db env (validate_document collection data))
      = Return (success (JObj payload))
      /\ forall k,
          obj_lookup k payload
          = if obj_has k ps then obj_lookup k ps
            else if String.eqb k "collection" then JStr collection else JUndef.
Proof.
  intros fetch sdk db env collection data ps Hs Hu.
  eexists. split.
  - rewrite handle_outcome. cbn [attempt].
    unfold validate_document_try, bind, call_sdk, outcome. rewrite Hs.
    reflexivity.
  - intros k. cbn [entries]. rewrite (fold_obj_set_lookup k ps _ Hu).
    reflexivity.
Qed.

Lemma validate_document_merges_witness :
  exists payload,
    outcome (handle no_fetch
               (fun _ _ => Return (JObj [("valid", JBool true);
                                         ("collection", JStr "other")]))
               test_db test_env (validate_document "users" [("name", JStr "a")]))
    = Return (success (JObj payload))
    /\ forall k,
        obj_lookup k payload
        = if obj_has k [("valid", JBool true); ("collection", JStr "other")]
          then obj_lookup k [("valid", JBool true); ("collection", JStr "other")]
          else if String.eqb k "collection" then JStr "users" else JUndef.
Proof.
  apply (validate_document_merges no_fetch
           (fun _ _ => Return (JObj [("valid", JBool true);
                                     ("collection", JStr "other")]))
           test_db test_env "users" [("name", JStr "a")]
           [("valid", JBool true); ("collection", JStr "other")]);
    reflexivity.
Defined.

(** ** Statuses *)

(** X23. Only a numeric status is ever classified: the catch clauses compare
    with [===], so a thrown value whose status is absent, or is the text
    of a number, matches no row, and the tool answers with its fallback
    code. *)
Lemma Number_equal_integer x (n : Z) :
  Number_equal x n = true -> n <> 0 -> x = n.
Proof.
  destruct x as [|a|a|a m e], n as [|p|p]; cbn; try discriminate; try congruence;
    intros H _; apply andb_prop in H as [H He]; apply andb_prop in H as [Hs Hm];
    apply Bool.eqb_prop in Hs; apply Pos.eqb_eq in Hm; apply Z.eqb_eq in He;
    now subst.
Qed.

Lemma decision_table_nonzero c sc : In sc (decision_table c) -> sc.1 <> 0.
Proof.
  destruct c; cbn [decision_table];
    repeat (intros [<-|H]; [discriminate|revert H]); intros [].
Qed.

Theorem only_numeric_status_classified :
  forall fetch sdk db env c (e : thrown),
    outcome (attempt fetch sdk db env c) = Throw e ->
    (forall n : Z, e_status e <> JNum n) ->
    classified c e = false
    /\ exists r payload,
        outcome (handle fetch sdk db env c) = Return r
        /\ decoded r = Some payload
        /\ error_code payload = JStr (fallback_code c).
Proof.
  intros fetch sdk db env c e Ht Hs.
  assert (Hc : classified c e = false).
  { unfold classified. apply not_true_is_false. intros H.
    apply existsb_exists in H as (sc & Hin & H). unfold status_is in H.
    destruct (e_status e) as [| | |x| | |] eqn:E; try discriminate.
    apply (Hs sc.1). f_equal.
    exact (Number_equal_integer _ _ H (decision_table_nonzero c sc Hin)). }
  split; [exact Hc|].
  destruct (recover_expected c e) as (m & sug & Hr & Hm).
  rewrite (expected_code_fallback c e Hc) in Hr.
  destruct (error_shape (fallback_code c) m sug (truthy_defined m Hm))
    as (_ & _ & Hdec).
  do 2 eexists. rewrite (handle_caught _ _ _ _ _ _ Ht), Hr.
  split; [reflexivity|]. split; [exact Hdec|]. apply error_code_payload.
Qed.

Lemma only_numeric_status_classified_witness :
  classified (get_document "users" "u1")
    {| e_status := JStr "404"; e_message := JStr "not found" |} = false
  /\ exists r payload,
      outcome (handle no_fetch
                 (rejecting_sdk {| e_status := JStr "404";
                                   e_message := JStr "not found" |})
                 test_db test_env (get_document "users" "u1"))
      = Return r
      /\ decoded r = Some payload
      /\ error_code payload = JStr "GET_FAILED".
Proof.
  apply (only_numeric_status_classified no_fetch
           (rejecting_sdk {| e_status := JStr "404"; e_message := JStr "not found" |})
           test_db test_env (get_document "users" "u1")
           {| e_status := JStr "404"; e_message := JStr "not found" |}).
  - reflexivity.
  - discriminate.
Defined.

(** ** Request bodies read back *)

Lemma stringify_arr l :
  JSON_stringify (JArr l) = Some ("[" +:+ join "," (map compact l) +:+ "]").
Proof. reflexivity. Qed.

Lemma stringify_obj ps :
  JSON_stringify (JObj ps) = Some ("{" +:+ join "," (compact_items ps) +:+ "}").
Proof. reflexivity. Qed.

Lemma stringify_none v : JSON_stringify v = None <-> v = JUndef.
Proof.
  split; [|intros ->; reflexivity].
  destruct v as [| |[]|[]| | |]; try discriminate; reflexivity.
Qed.

Lemma compact_head v :
  exists c t, compact v = String c t
              /\ is_ws c = false /\ Ascii.eqb c "]" = false.
Proof.
  destruct v as [| |[]|x|s|l|ps]; unfold compact; cbn [JSON_stringify]; eauto.
  exact (render_head "" (JNum x)).
Qed.

Lemma compact_items_nil ps : compact_items ps = [] -> json_entries ps = [].
Proof.
  induction ps as [|[k x] ps IH]; [reflexivity|].
  cbn [compact_items json_entries].
  destruct x as [| |b|x| | |]; cbn [JSON_stringify]; try discriminate;
    try (destruct b; discriminate); try (destruct x; discriminate).
  exact IH.
Qed.

Lemma parse_elements_compact rest x l :
  Forall roundtrips_compact (x :: l) ->
  forall fuel, (elements_size (x :: l) <= fuel)%nat ->
  parse_elements fuel (join "," (map compact (x :: l)) +:+ String "]" rest)
  = Some (map to_json (x :: l), rest).
Proof.
  revert x. induction l as [|y l IH]; intros x HF fuel Hfuel.
  - apply Forall_cons_1 in HF as [Hx _].
    destruct fuel as [|fuel]; [cbn in Hfuel; lia|].
    cbn [map join].
    apply parse_elements_last with (w := ""); [reflexivity|].
    apply Hx; [reflexivity|cbn in Hfuel; lia].
  - apply Forall_cons_1 in HF as [Hx HF].
    destruct fuel as [|fuel]; [cbn in Hfuel; lia|].
    change (map compact (x :: y :: l)) with (compact x :: map compact (y :: l)).
    change (join ?sep (?a :: map ?f (y :: l)))
      with (a +:+ sep +:+ join sep (map f (y :: l))).
    rewrite (parse_elements_more fuel _ (to_json x)
               (join "," (map compact (y :: l)) +:+ String "]" rest)).
    + rewrite (IH y HF fuel); [reflexivity|]. cbn in Hfuel. cbn. lia.
    + rewrite !append_assoc. change ("," +:+ ?s) with (String "," s).
      apply Hx; [reflexivity|cbn in Hfuel; lia].
Qed.

Lemma parse_members_compact rest ps :
  Forall (fun kv => roundtrips_compact kv.2) ps ->
  compact_items ps <> [] ->
  forall fuel, (members_size ps <= fuel)%nat ->
  parse_members fuel (join "," (compact_items ps) +:+ String "}" rest)
  = Some (json_entries ps, rest).
Proof.
  induction ps as [|[k x] ps IH]; intros HF Hne fuel Hfuel; [now destruct Hne|].
  apply Forall_cons_1 in HF as [Hx HF]. cbn [snd] in Hx.
  destruct (JSON_stringify x) as [t|] eqn:Ex.
  - assert (Hr : compact x = t) by (unfold compact; now rewrite Ex).
    assert (Hj : json_entries ((k, x) :: ps) = (k, to_json x) :: json_entries ps).
    { destruct x; try reflexivity. discriminate. }
    assert (Hs : (S (psize x + members_size ps) <= fuel)%nat).
    { destruct x; try exact Hfuel. discriminate. }
    rewrite Hj. clear Hj.
    destruct fuel as [|fuel]; [lia|].
    cbn [compact_items]. rewrite Ex.
    destruct (compact_items ps) as [|i items] eqn:Ei.
    + cbn [join]. rewrite (compact_items_nil _ Ei).
      rewrite !append_assoc.
      apply parse_members_last with (w := ""); [reflexivity|].
      rewrite <- Hr. apply Hx; [reflexivity|lia].
    + change (join ?sep (?a :: i :: items))
        with (a +:+ sep +:+ join sep (i :: items)).
      rewrite !append_assoc.
      rewrite (parse_members_more fuel k _ (to_json x)
                 (join "," (i :: items) +:+ String "}" rest)).
      * rewrite IH; [reflexivity|assumption|congruence|lia].
      * rewrite <- Hr. change ("," +:+ ?s) with (String "," s).
        apply Hx; [reflexivity|lia].
  - apply stringify_none in Ex. subst x.
    cbn [compact_items JSON_stringify json_entries] in *.
    apply IH; assumption.
Qed.

Theorem parse_value_compact : forall v, roundtrips_compact v.
Proof.
  induction v as [| |b|n|s|l IH|ps IH] using jsval_ind;
    intros rest fuel Hrest Hfuel;
    (destruct fuel as [|fuel]; [cbn in Hfuel; lia|]).
  - reflexivity.
  - reflexivity.
  - destruct b; reflexivity.
  - exact (parse_value_render (JNum n) "" rest (S fuel) eq_refl Hrest Hfuel).
  - exact (parse_value_render (JStr s) "" rest (S fuel) eq_refl Hrest Hfuel).
  - unfold compact. rewrite stringify_arr. cbn [to_json].
    destruct l as [|x l]; [reflexivity|].
    rewrite !append_assoc.
    change ("[" +:+ ?s) with (String "[" s).
    cbn [parse_value skip_ws]. change (is_ws "[") with false. cbv iota.
    change (Ascii.eqb "[" "n") with false.
    change (Ascii.eqb "[" "t") with false.
    change (Ascii.eqb "[" "f") with false.
    change (Ascii.eqb "[" dquote) with false.
    change (Ascii.eqb "[" "[") with true. cbv iota.
    assert (Hh : exists c t,
               join "," (map compact (x :: l)) +:+ "]" +:+ rest = String c t
               /\ is_ws c = false /\ Ascii.eqb c "]" = false).
    { destruct (compact_head x) as (c & t & E & Hc & Hb).
      cbn [map]. destruct l; cbn [join map]; rewrite E; cbn; eauto. }
    destruct Hh as (c & t & E & Hc & Hb).
    rewrite E. cbn [skip_ws]. rewrite Hc, Hb. rewrite <- E.
    change ("]" +:+ rest) with (String "]" rest).
    rewrite parse_elements_compact; [reflexivity|exact IH|].
    rewrite psize_arr in Hfuel. lia.
  - unfold compact. rewrite stringify_obj, to_json_obj.
    destruct (compact_items ps) as [|i items] eqn:Ei.
    + rewrite (compact_items_nil _ Ei). reflexivity.
    + rewrite !append_assoc.
      change ("{" +:+ ?s) with (String "{" s).
      cbn [parse_value skip_ws]. change (is_ws "{") with false. cbv iota.
      change (Ascii.eqb "{" "n") with false.
      change (Ascii.eqb "{" "t") with false.
      change (Ascii.eqb "{" "f") with false.
      change (Ascii.eqb "{" dquote) with false.
      change (Ascii.eqb "{" "[") with false.
      change (Ascii.eqb "{" "{") with true. cbv iota.
      assert (Hh : exists t,
                 join "," (i :: items) +:+ "}" +:+ rest = String dquote t).
      { assert (Hq : exists t, i = String dquote t).
        { clear -Ei. induction ps as [|[k x] ps IHps]; [discriminate|].
          cbn [compact_items] in Ei.
          destruct (JSON_stringify x); [|now apply IHps].
          injection Ei as <- _. eauto. }
        destruct Hq as [t ->]. destruct items; cbn; eauto. }
      destruct Hh as (t & E).
      rewrite E. cbn [skip_ws]. change (is_ws dquote) with false. cbv iota.
      change (Ascii.eqb dquote "}") with false. cbv iota. rewrite <- E.
      change ("}" +:+ rest) with (String "}" rest).
      rewrite <- Ei.
      rewrite parse_members_compact; [reflexivity|exact IH|congruence|].
      rewrite psize_obj in Hfuel. lia.
Qed.

Lemma join_length_compact sep ps :
  (1 <= String.length sep)%nat ->
  Forall (fun kv => (psize kv.2 <= String.length (compact kv.2))%nat) ps ->
  (members_size ps <= String.length (join sep (compact_items ps)) + 1)%nat.
Proof.
  intros Hsep. induction ps as [|[k x] ps IH]; intros HF; [cbn; lia|].
  apply Forall_cons_1 in HF as [Hx HF]. specialize (IH HF). cbn [snd] in Hx.
  cbn [compact_items].
  destruct (JSON_stringify x) as [t|] eqn:Ex.
  - assert (Hr : compact x = t) by (unfold compact; now rewrite Ex).
    assert (Hs : members_size ((k, x) :: ps) = S (psize x + members_size ps)).
    { destruct x; try reflexivity. discriminate. }
    rewrite Hs. rewrite Hr in Hx.
    pose proof (quote_length k) as Hq.
    destruct (compact_items ps) as [|i items].
    + cbn [join] in *. rewrite !length_append. cbn in IH |- *. lia.
    + change (join sep (?a :: i :: items))
        with (a +:+ sep +:+ join sep (i :: items)).
      rewrite !length_append. cbn [String.length]. lia.
  - apply stringify_none in Ex. subst x. exact IH.
Qed.

Lemma psize_le_compact v : (psize v <= String.length (compact v))%nat.
Proof.
  induction v as [| |b|n|s|l IH|ps IH] using jsval_ind.
  - cbn. lia.
  - cbn. lia.
  - destruct b; cbn; lia.
  - exact (psize_le_length (JNum n) "").
  - exact (psize_le_length (JStr s) "").
  - unfold compact. rewrite stringify_arr, psize_arr.
    pose proof (join_length_elements "," compact l) as Hj.
    rewrite !length_append. cbn [String.length].
    assert (Hl : (elements_size l
                  <= String.length (join "," (map compact l)) + 1)%nat).
    { apply Hj; [cbn; lia|exact IH]. }
    lia.
  - unfold compact. rewrite stringify_obj, psize_obj.
    pose proof (join_length_compact "," ps) as Hj.
    rewrite !length_append. cbn [String.length].
    assert (Hl : (members_size ps
                  <= String.length (join "," (compact_items ps)) + 1)%nat).
    { apply Hj; [cbn; lia|exact IH]. }
    lia.
Qed.

(** [JSON.parse] reads back what [JSON.stringify (v)] wrote. *)
Lemma JSON_parse_compact v t :
  JSON_stringify v = Some t -> JSON_parse t = Some (to_json v).
Proof.
  unfold JSON_parse. intros H.
  assert (Hr : compact v = t) by (unfold compact; now rewrite H).
  pose proof (psize_le_compact v) as Hs. rewrite Hr in Hs.
  pose proof (parse_value_compact v "" (S (String.length t)) eq_refl) as Hp.
  rewrite Hr, append_nil_r in Hp. rewrite Hp by lia. reflexivity.
Qed.

Lemma fold_obj_set_has k kvs : forall acc,
  obj_has k (fold_left (fun acc kv => obj_set kv.1 kv.2 acc) kvs acc)
  = obj_has k kvs || obj_has k acc.
Proof.
  induction kvs as [|[k0 v0] kvs IH]; intros acc; [reflexivity|].
  cbn [fold_left fst snd]. rewrite IH. cbn [obj_has].
  assert (H : obj_has k (obj_set k0 v0 acc) = String.eqb k k0 || obj_has k acc).
  { destruct (obj_has k (obj_set k0 v0 acc)) eqn:E.
    - apply obj_has_In, obj_set_keys in E as [->|E].
      + now rewrite String.eqb_refl.
      + apply obj_has_In in E. rewrite E. now rewrite orb_true_r.
    - symmetry. apply not_true_is_false. intros H. apply not_true_iff_false in E.
      apply E, obj_has_In, obj_set_keys.
      apply orb_true_iff in H as [H|H]; [left; now apply String.eqb_eq|].
      right. now apply obj_has_In. }
  rewrite H. destruct (String.eqb k k0), (obj_has k kvs); reflexivity.
Qed.

Lemma json_entries_has k ps :
  obj_has k (json_entries ps) = true -> obj_has k ps = true.
Proof.
  induction ps as [|[k0 x] ps IH]; [discriminate|].
  cbn [json_entries obj_has].
  destruct x; cbn [obj_has]; intros H;
    try (apply orb_true_iff in H as [H|H]; [now rewrite H|]);
    rewrite (IH H); apply orb_true_r.
Qed.

Lemma json_entries_undefined k ps :
  unique_keys ps = true -> obj_lookup k ps = JUndef ->
  obj_has k (json_entries ps) = false.
Proof.
  induction ps as [|[k0 x] ps IH]; [reflexivity|].
  cbn [unique_keys obj_lookup]. intros Hu Hk.
  apply andb_prop in Hu as [Hk0 Hu]. apply negb_true_iff in Hk0.
  destruct (String.eqb k k0) eqn:E.
  - apply String.eqb_eq in E. subst k0 x. cbn [json_entries].
    apply not_true_is_false. intros H. apply json_entries_has in H. congruence.
  - specialize (IH Hu Hk).
    destruct x; cbn [json_entries obj_has]; rewrite ?E; exact IH.
Qed.

(** X24. A request body is a JSON text of the value it was built from: when
    [apiFetch] or [webhookFetch] sends a body, parsing it gives the value back, with
    properties that hold [undefined] left out; so a JSON value arrives
    unchanged, and an optional argument that was not given is not in the
    body at all, not even as [null]. *)
Theorem request_body_round_trip :
  forall fetch target apiKey verb b rq t,
    issued (apiFetch fetch target apiKey verb b) = [Fetched rq]
    \/ issued (webhookFetch fetch target apiKey verb b) = [Fetched rq] ->
    body rq = Some t ->
    JSON_parse t = Some (to_json b)
    /\ (json_value b = true -> JSON_parse t = Some b)
    /\ (forall ps k, b = JObj ps -> unique_keys ps = true ->
                     obj_lookup k ps = JUndef ->
                     exists qs, JSON_parse t = Some (JObj qs)
                                /\ obj_has k qs = false).
Proof.
  intros fetch target apiKey verb b rq t Hi Hb.
  assert (Hrq : rq = fetch_request target apiKey verb b).
  { destruct Hi as [Hi|Hi].
    - rewrite apiFetch_issued in Hi. now apply fetched_inj in Hi.
    - change (webhookFetch fetch target apiKey verb b)
        with (apiFetch fetch target apiKey verb b) in Hi.
      rewrite apiFetch_issued in Hi. now apply fetched_inj in Hi. }
  subst rq. cbn [body fetch_request] in Hb.
  destruct (negb (is_undefined b) && sends_body verb); [|discriminate].
  pose proof (JSON_parse_compact b t Hb) as Hp.
  split; [exact Hp|]. split.
  - intros Hv. now rewrite Hp, to_json_value.
  - intros ps k -> Hu Hk. rewrite Hp, to_json_obj. eexists. split; [reflexivity|].
    unfold obj_of_entries. rewrite fold_obj_set_has. cbn [obj_has].
    rewrite orb_false_r. now apply json_entries_undefined.
Qed.

Lemma request_body_round_trip_witness :
  exists t,
    body (fetch_request "https://api.jsondb.cloud/v1/articles/_search"
            "jdb_sk_test_abc" "POST"
            (JObj [("query", JStr "hello");
                   ("limit", JUndef);
                   ("threshold", JNum (Finite false 75 (-2)))]))
    = Some t
    /\ JSON_parse t
       = Some (JObj [("query", JStr "hello");
                     ("threshold", JNum (Finite false 75 (-2)))]).
Proof.
  eexists. split; [reflexivity|].
  apply (proj1 (request_body_round_trip no_fetch
                  "https://api.jsondb.cloud/v1/articles/_search"
                  "jdb_sk_test_abc" "POST"
                  (JObj [("query", JStr "hello");
                         ("limit", JUndef);
                         ("threshold", JNum (Finite false 75 (-2)))])
                  _ _ (or_introl eq_refl) eq_refl)).
Defined.

(** ** Search requests *)

(** X25. [semantic_search] issues one POST to the [_search] path of the
    collection whose body is a JSON text holding the query and exactly the
    options that were supplied, in the order [limit], [threshold],
    [filter]: an option that was not supplied is not in the body, and a
    limit and a threshold that are numbers of JSON, fractions included,
    arrive as they were given. *)
Theorem semantic_search_request :
  forall fetch sdk db env collection query limit threshold filter,
    let supplied :=
      [("query", JStr query)]
      ++ match limit with Some x => [("limit", JNum x)] | None => [] end
      ++ match threshold with Some x => [("threshold", JNum x)] | None => [] end
      ++ match filter with Some ps => [("filter", JObj ps)] | None => [] end in
    exists rq t,
      issued (handle fetch sdk db env
                (semantic_search collection query limit threshold filter))
      = [Fetched rq]
      /\ method rq = "POST"
      /\ url rq = baseUrl (resolveEnv env) +:+ "/" +:+ project (resolveEnv env)
                    +:+ "/" +:+ collection +:+ "/_search"
      /\ headers rq = json_headers (apiKey (resolveEnv env))
      /\ body rq = Some t
      /\ JSON_parse t = Some (to_json (JObj supplied))
      /\ (json_value (JObj supplied) = true -> JSON_parse t = Some (JObj supplied)).
Proof.
  intros fetch sdk db env collection query limit threshold filter supplied.
  assert (Hb : set_if_defined "filter" (JObj <$> filter)
                 (set_if_defined "threshold" (JNum <$> threshold)
                    (set_if_defined "limit" (JNum <$> limit) [("query", JStr query)]))
               = supplied).
  { subst supplied. destruct limit, threshold, filter; reflexivity. }
  destruct (JSON_stringify (JObj supplied)) as [t|] eqn:Et; [|discriminate Et].
  pose proof (JSON_parse_compact _ _ Et) as Hp.
  eexists. exists t. rewrite handle_issued. cbn [attempt].
  unfold semantic_search_try. rewrite issued_bind_ret, apiFetch_issued, Hb.
  split; [reflexivity|]. cbn [fetch_request method url headers body].
  split; [reflexivity|]. split; [reflexivity|]. split; [reflexivity|].
  split; [exact Et|]. split; [exact Hp|].
  intros Hv. now rewrite Hp, to_json_value.
Qed.

Lemma semantic_search_request_witness :
  exists rq t,
    issued (handle no_fetch no_sdk test_db test_env
              (semantic_search "articles" "hello" (Some (of_Z 5))
                 (Some (Finite false 75 (-2))) None))
    = [Fetched rq]
    /\ body rq = Some t
    /\ JSON_parse t = Some (JObj [("query", JStr "hello"); ("limit", JNum 5);
                                  ("threshold", JNum (Finite false 75 (-2)))]).
Proof.
  destruct (semantic_search_request no_fetch no_sdk test_db test_env "articles"
              "hello" (Some (of_Z 5)) (Some (Finite false 75 (-2))) None)
    as (rq & t & Hi & _ & _ & _ & Hb & _ & Hv).
  exists rq, t. split; [exact Hi|]. split; [exact Hb|]. apply Hv. reflexivity.
Defined.

(** ** Imports and exports on the wire *)

Ltac assoc_right :=
  repeat match goal with
         | |- context [(?a +:+ ?b) +:+ ?c] => rewrite (append_assoc a b c)
         end.

Lemma urlencode_app a b : urlencode (a +:+ b) = urlencode a +:+ urlencode b.
Proof.
  induction a as [|c a IH]; [reflexivity|].
  cbn [String.append urlencode]. now rewrite IH, append_assoc.
Qed.

Lemma query_suffix_cons c s : query_suffix (String c s) = String "?" (String c s).
Proof. reflexivity. Qed.

(** X26. [import_documents] issues one POST to the [_import] path of the
    collection whose body is the JSON text of the array of the documents:
    parsing it gives the documents back.  The options only show in the
    query: none without options, [onConflict] with the mode's name, and
    [idField] with the field, form-encoded, when it is given and not
    empty. *)
Theorem import_request :
  forall fetch sdk db env collection documents onConflict idField,
  exists rq t,
    issued (handle fetch sdk db env
              (import_documents collection documents onConflict idField))
    = [Fetched rq]
    /\ method rq = "POST"
    /\ headers rq = json_headers (apiKey (resolveEnv env))
    /\ body rq = Some t
    /\ JSON_parse t = Some (to_json (JArr (map JObj documents)))
    /\ (json_value (JArr (map JObj documents)) = true ->
        JSON_parse t = Some (JArr (map JObj documents)))
    /\ url rq
       = baseUrl (resolveEnv env) +:+ "/" +:+ project (resolveEnv env) +:+ "/"
           +:+ collection +:+ "/_import"
           +:+ match onConflict, idField with
               | None, None | None, Some "" => ""
               | Some m, None | Some m, Some "" =>
                   "?onConflict=" +:+ conflict_mode_name m
               | None, Some f => "?idField=" +:+ urlencode f
               | Some m, Some f =>
                   "?onConflict=" +:+ conflict_mode_name m
                     +:+ "&idField=" +:+ urlencode f
               end.
Proof.
  intros fetch sdk db env collection documents onConflict idField.
  destruct (JSON_stringify (JArr (map JObj documents))) as [t|] eqn:Et;
    [|discriminate Et].
  pose proof (JSON_parse_compact _ _ Et) as Hp.
  eexists. exists t. rewrite handle_issued. cbn [attempt].
  unfold import_documents_try. rewrite issued_fetch_read.
  split; [reflexivity|]. cbn [method headers body url].
  split; [reflexivity|]. split; [reflexivity|]. split; [exact Et|].
  split; [exact Hp|]. split; [intros Hv; now rewrite Hp, to_json_value|].
  do 6 f_equal.
  destruct idField as [[|c f]|]; destruct onConflict as [[]|]; try reflexivity;
    unfold import_params, params_toString;
    cbn [String.eqb params_set map join fst snd conflict_mode_name];
    rewrite ?append_assoc; reflexivity.
Qed.

Lemma import_request_witness :
  exists rq t,
    issued (handle no_fetch no_sdk test_db test_env
              (import_documents "users" [[("name", JStr "Ada")]] None None))
    = [Fetched rq]
    /\ body rq = Some t
    /\ JSON_parse t = Some (JArr (map JObj [[("name", JStr "Ada")]])).
Proof.
  destruct (import_request no_fetch no_sdk test_db test_env "users"
              [[("name", JStr "Ada")]] None None)
    as (rq & t & Hi & _ & _ & Hb & _ & Hv & _).
  exists rq, t. split; [exact Hi|]. split; [exact Hb|]. apply Hv. reflexivity.
Defined.

(** X27. [export_collection] issues one GET without a body, asking for JSON
    with an [Accept] header, to the [_export] path of the collection.
    Without a filter, with an empty one, or with one whose only entry is
    an empty object, the URL has no query.  A filter entry that is not an
    object goes out as [filter[field]=value] and one operator of an
    object entry as [filter[field][op]=value], the operator without its
    leading [$] and the value in its string form; the square brackets are
    percent-encoded and field, operator and value are form-encoded.  When
    the value of the operator has no string form, no request goes out. *)
Theorem export_request_on_the_wire :
  forall fetch sdk db env collection,
    let target := baseUrl (resolveEnv env) +:+ "/" +:+ project (resolveEnv env)
                  +:+ "/" +:+ collection +:+ "/_export" in
    let request q :=
      [Fetched {| url := target +:+ q; method := "GET";
                  headers := [("Authorization", "Bearer " +:+ apiKey (resolveEnv env));
                              ("Accept", "application/json")];
                  body := None |}] in
    issued (handle fetch sdk db env (export_collection collection None))
    = request ""
    /\ issued (handle fetch sdk db env (export_collection collection (Some [])))
       = request ""
    /\ (forall fld,
           issued (handle fetch sdk db env
                     (export_collection collection (Some [(fld, JObj [])])))
           = request "")
    /\ (forall fld v,
           is_object v = false ->
           exists text,
             to_String v = Return text
             /\ issued (handle fetch sdk db env
                          (export_collection collection (Some [(fld, v)])))
                = request ("?filter%5B" +:+ urlencode fld +:+ "%5D="
                             +:+ urlencode text))
    /\ (forall fld op v text,
           to_String v = Return text ->
           issued (handle fetch sdk db env
                     (export_collection collection (Some [(fld, JObj [(op, v)])])))
           = request ("?filter%5B" +:+ urlencode fld +:+ "%5D%5B"
                        +:+ urlencode (strip_dollar op) +:+ "%5D="
                        +:+ urlencode text))
    /\ (forall fld op v x,
           to_String v = Throw x ->
           issued (handle fetch sdk db env
                     (export_collection collection (Some [(fld, JObj [(op, v)])])))
           = []).
Proof.
  intros fetch sdk db env collection target request. subst target request.
  cbv beta. rewrite !export_issued. cbn [export_params fold_left].
  unfold export_request.
  split; [now rewrite !append_assoc|]. split; [now rewrite !append_assoc|].
  split; [intros fld; rewrite export_issued; unfold export_request;
          now rewrite !append_assoc|].
  split; [|split].
  - intros fld v Hv.
    assert (Ht : exists text, to_String v = Return text).
    { destruct v as [| |[]| | | |]; try discriminate Hv; cbn; eauto. }
    destruct Ht as [text Ht]. exists text. split; [exact Ht|].
    rewrite export_issued. unfold export_request, export_params.
    cbn [fold_left export_filter_entry]. rewrite Hv. cbn [and_then].
    rewrite Ht. cbn [and_then].
    unfold params_toString. cbn [params_set map join fst snd].
    rewrite !urlencode_app.
    change (urlencode "filter[") with "filter%5B".
    change (urlencode "]") with "%5D".
    assoc_right. cbn [String.append]. rewrite query_suffix_cons.
    reflexivity.
  - intros fld op v text Ht.
    rewrite export_issued. unfold export_request, export_params.
    cbn [fold_left export_filter_entry is_object entries fst snd].
    unfold export_filter_operator. cbn [and_then fst snd]. rewrite Ht.
    cbn [and_then].
    unfold params_toString. cbn [params_set map join fst snd].
    rewrite !urlencode_app.
    change (urlencode "filter[") with "filter%5B".
    change (urlencode "][") with "%5D%5B".
    change (urlencode "]") with "%5D".
    assoc_right. cbn [String.append]. rewrite query_suffix_cons.
    reflexivity.
  - intros fld op v x Ht.
    rewrite export_issued. unfold export_params.
    cbn [fold_left export_filter_entry is_object entries fst snd].
    unfold export_filter_operator. cbn [and_then fst snd]. rewrite Ht.
    reflexivity.
Qed.

Lemma export_request_on_the_wire_witness :
  issued (handle no_fetch no_sdk test_db test_env
            (export_collection "users"
               (Some [("age", JObj [("$gt", JObj [("toString", JNum 1)])])])))
  = []
  /\ issued (handle no_fetch no_sdk test_db test_env
               (export_collection "users"
                  (Some [("full name", JObj [("$eq", JStr "Ada L")])])))
     = [Fetched {| url := "https://api.jsondb.cloud/test-project/users/_export"
                            +:+ "?filter%5B" +:+ urlencode "full name" +:+ "%5D%5B"
                            +:+ urlencode (strip_dollar "$eq") +:+ "%5D="
                            +:+ urlencode "Ada L";
                   method := "GET";
                   headers := [("Authorization", "Bearer jdb_sk_test_abc");
                               ("Accept", "application/json")];
                   body := None |}]
  /\ issued (handle no_fetch no_sdk test_db test_env
               (export_collection "users"
                  (Some [("views", JNum (Finite false 1 21))])))
     = [Fetched {| url := "https://api.jsondb.cloud/test-project/users/_export"
                            +:+ "?filter%5Bviews%5D=1e%2B21";
                   method := "GET";
                   headers := [("Authorization", "Bearer jdb_sk_test_abc");
                               ("Accept", "application/json")];
                   body := None |}].
Proof.
  destruct (export_request_on_the_wire no_fetch no_sdk test_db test_env "users")
    as (_ & _ & _ & Hval & Hop & Hnone).
  split; [|split].
  - apply (Hnone "age" "$gt" (JObj [("toString", JNum 1)]) conversion_error).
    reflexivity.
  - apply (Hop "full name" "$eq" (JStr "Ada L") "Ada L"). reflexivity.
  - destruct (Hval "views" (JNum (Finite false 1 21)) eq_refl) as (text & Ht & Hi).
    assert (E : text = "1e+21") by (vm_compute in Ht; congruence).
    subst text. exact Hi.
Defined.

(** ** Deletions *)

(** X28. [delete_document] makes one [delete] call through the SDK and
    [delete_webhook] sends one DELETE without a body to the path of the
    webhook.  When the SDK call returns, or the request is answered with a
    204 or with a 2xx status and a JSON body, the tool answers with a
    record of its own that names what was deleted, whatever came back; the
    error flag is unset and the text of the answer parses back to that
    record for every id and collection name, whatever characters they
    hold. *)
Theorem deletions_are_confirmed :
  forall fetch sdk db env collection id,
    issued (handle fetch sdk db env (delete_document collection id))
    = [Called db (Sdk_delete collection id)]
    /\ (forall v,
           sdk db (Sdk_delete collection id) = Return v ->
           exists r,
             outcome (handle fetch sdk db env (delete_document collection id))
             = Return r
             /\ isError r = None
             /\ decoded r
                = Some (JObj [("deleted", JBool true); ("_id", JStr id);
                              ("collection", JStr collection)]))
    /\ (exists rq,
           issued (handle fetch sdk db env (delete_webhook collection id))
           = [Fetched rq]
           /\ method rq = "DELETE" /\ body rq = None
           /\ url rq = webhooks_url (resolveEnv env) collection +:+ "/" +:+ id
           /\ forall res,
               fetch rq = Resolved res -> res_ok res = true ->
               res_status res = 204 \/ (exists v, res_json res = Return v) ->
               exists r,
                 outcome (handle fetch sdk db env (delete_webhook collection id))
                 = Return r
                 /\ isError r = None
                 /\ decoded r
                    = Some (JObj [("deleted", JBool true); ("webhookId", JStr id);
                                  ("collection", JStr collection)])).
Proof.
  intros fetch sdk db env collection id. split; [|split].
  - rewrite handle_issued. cbn [attempt]. unfold delete_document_try.
    apply issued_bind_call. reflexivity.
  - intros v Hv. eexists. split; [|split].
    + apply handle_return. cbn [attempt].
      unfold delete_document_try, bind, call_sdk, outcome. rewrite Hv. reflexivity.
    + reflexivity.
    + rewrite success_decodes by discriminate. reflexivity.
  - exists (fetch_request (webhooks_url (resolveEnv env) collection +:+ "/" +:+ id)
              (apiKey (resolveEnv env)) "DELETE" JUndef).
    split; [|split; [reflexivity|split; [reflexivity|split; [reflexivity|]]]].
    + rewrite handle_issued. cbn [attempt]. unfold delete_webhook_try.
      rewrite issued_bind_ret.
      change (webhookFetch fetch ?u ?k ?m ?b) with (apiFetch fetch u k m b).
      apply apiFetch_issued.
    + intros res Hf Hok Hbody. eexists. split; [|split].
      * apply handle_return. cbn [attempt]. unfold delete_webhook_try.
        rewrite outcome_bind_ret.
        change (webhookFetch fetch ?u ?k ?m ?b) with (apiFetch fetch u k m b).
        rewrite (apiFetch_outcome _ _ _ _ _ res Hf Hok).
        destruct (res_status res =? 204) eqn:E; [reflexivity|].
        destruct Hbody as [H204|[v Hv]]; [apply Z.eqb_neq in E; contradiction|].
        rewrite Hv. reflexivity.
      * reflexivity.
      * rewrite success_decodes by discriminate. reflexivity.
Qed.

Lemma deletions_are_confirmed_witness :
  exists r,
    outcome (handle (respond no_content) no_sdk test_db test_env
               (delete_webhook "users" "w1"))
    = Return r
    /\ isError r = None
    /\ decoded r
       = Some (JObj [("deleted", JBool true); ("webhookId", JStr "w1");
                     ("collection", JStr "users")]).
Proof.
  destruct (deletions_are_confirmed (respond no_content) no_sdk test_db test_env
              "users" "w1") as (_ & _ & rq & _ & _ & _ & _ & H).
  apply (H no_content); [reflexivity|reflexivity|left; reflexivity].
Defined.

(** ** Startup, in full *)

Lemma main_credentials_key (env : environment) :
  (exists db, main_credentials env = Some db)
  <-> exists key, env !! "JSONDB_API_KEY" = Some key /\ key <> "".
Proof.
  unfold main_credentials. destruct (env !! "JSONDB_API_KEY") as [key|].
  - destruct (String.eqb key "") eqn:E.
    + apply String.eqb_eq in E. subst key. split.
      * intros [db [=]].
      * intros (key & [= <-] & H). congruence.
    + apply String.eqb_neq in E. split; eauto.
  - split.
    + intros [db [=]].
    + intros (key & [=] & _).
Qed.

(** X29. The process opens a protocol session or a listener exactly when
    JSONDB_API_KEY is set to a text that is not empty: an empty key is
    refused like a missing one.  When the process ends during startup its
    status is 1, never 0, on each of the ways there: no key, a stdio
    connection that is refused, [listen] throwing, and an error of the
    listener that nothing catches.  Over stdio it gets through startup
    exactly when it has a key and the stdio connection is accepted; over
    HTTP exactly when it has a key and the server comes to listen. *)
Theorem startup_outcomes :
  forall (env : environment) connect listen,
    (Exists (fun ev => opens_session ev = true) (main env connect listen)
     <-> exists key, env !! "JSONDB_API_KEY" = Some key /\ key <> "")
    /\ (forall code, exit_status (main env connect listen) = Some code -> code = 1)
    /\ (env_or env "JSONDB_MCP_TRANSPORT" "stdio" <> "http" ->
        (exit_status (main env connect listen) = None
         <-> (exists key, env !! "JSONDB_API_KEY" = Some key /\ key <> "")
             /\ connect = None))
    /\ (env_or env "JSONDB_MCP_TRANSPORT" "stdio" = "http" ->
        (exit_status (main env connect listen) = None
         <-> (exists key, env !! "JSONDB_API_KEY" = Some key /\ key <> "")
             /\ listen (parseInt (env_or env "JSONDB_MCP_PORT" "3100"))
                  (env_or env "JSONDB_MCP_HOST" "127.0.0.1") = listening)).
Proof.
  intros env connect listen. pose proof (main_credentials_key env) as Hk.
  unfold main.
  destruct (main_credentials env) as [db|] eqn:Hdb.
  - assert (Hkey : exists key, env !! "JSONDB_API_KEY" = Some key /\ key <> "")
      by (apply Hk; eauto).
    clear Hk.
    destruct (String.eqb (env_or env "JSONDB_MCP_TRANSPORT" "stdio") "http") eqn:Et.
    + apply String.eqb_eq in Et. split; [|split; [|split]].
      * split; [auto|]. intros _. apply Exists_cons_tl, Exists_cons_hd. reflexivity.
      * intros code. cbv zeta. destruct (listen _ _); cbn; congruence.
      * intros Hn. contradiction.
      * intros _. cbv zeta. destruct (listen _ _); cbn; split;
          try discriminate; auto; intros [_ H]; discriminate.
    + apply String.eqb_neq in Et. split; [|split; [|split]].
      * split; [auto|]. intros _. apply Exists_cons_tl, Exists_cons_hd. reflexivity.
      * intros code. destruct connect; cbn; congruence.
      * intros _. destruct connect; cbn; split; try discriminate; auto.
        intros [_ H]. discriminate.
      * intros Hn. contradiction.
  - assert (Hkey : ~ exists key, env !! "JSONDB_API_KEY" = Some key /\ key <> "").
    { intros H. apply Hk in H as [db [=]]. }
    clear Hk. split; [|split; [|split]].
    + split; [|intros H; contradiction].
      intros H. apply Exists_exists in H as (ev & Hin & Hev).
      apply list_elem_of_In in Hin.
      destruct Hin as [<-|[<-|[]]]; discriminate.
    + intros code [= <-]. reflexivity.
    + intros _. split; [discriminate|]. intros [H _]. contradiction.
    + intros _. split; [discriminate|]. intros [H _]. contradiction.
Qed.

Lemma startup_outcomes_witness :
  exit_status (main (<["JSONDB_MCP_TRANSPORT" := "http"]>
                       (<["JSONDB_MCP_PORT" := "70000"]> test_env))
                 None node_listen) = Some 1.
Proof.
  destruct (startup_outcomes (<["JSONDB_MCP_TRANSPORT" := "http"]>
                                (<["JSONDB_MCP_PORT" := "70000"]> test_env))
              None node_listen)
    as (_ & Hcode & _).
  destruct (exit_status (main (<["JSONDB_MCP_TRANSPORT" := "http"]>
                                 (<["JSONDB_MCP_PORT" := "70000"]> test_env))
                           None node_listen))
    as [code|] eqn:E; [|discriminate E].
  now rewrite (Hcode code eq_refl).
Defined.

(** ** Registration *)

(** [createServer] registers 28 tools and two resources, no tool name
    and no resource URI twice (the SDK throws on a name that is taken, so
    building a server never fails on that), and every tool call of the
    catalogue is registered under its name; the name tells a
    SDK-backed tool from a REST-backed one. *)
Theorem tools_registered_once :
  NoDup createServer
  /\ List.length createServer = 28%nat
  /\ NoDup (map fst registerCollectionResources)
  /\ NoDup (map snd registerCollectionResources)
  /\ (forall c, In (tool_name c) createServer)
  /\ (forall c c', tool_name c = tool_name c' ->
                   uses_sdk c = uses_sdk c'
                   /\ decision_table c = decision_table c'
                   /\ fallback_code c = fallback_code c').
Proof.
  split; [|split; [|split; [|split; [|split]]]].
  - apply (bool_decide_unpack _). vm_compute. reflexivity.
  - reflexivity.
  - apply (bool_decide_unpack _). vm_compute. reflexivity.
  - apply (bool_decide_unpack _). vm_compute. reflexivity.
  - intros c. destruct c; cbn; tauto.
  - intros c c' H. destruct c; destruct c'; try discriminate H; repeat split.
Qed.

Lemma tools_registered_once_witness :
  uses_sdk (get_document "users" "u1") = uses_sdk (get_document "orders" "o7")
  /\ decision_table (get_document "users" "u1")
     = decision_table (get_document "orders" "o7")
  /\ fallback_code (get_document "users" "u1")
     = fallback_code (get_document "orders" "o7").
Proof.
  apply (proj2 (proj2 (proj2 (proj2 (proj2 tools_registered_once))))
           (get_document "users" "u1") (get_document "orders" "o7")).
  reflexivity.
Defined.

(** ** The test suite, replayed *)

(** [__tests__/helpers.test.ts], buildFilterObject. *)

Example test_maps_eq_operator_to_direct_value :
  own (buildFilterObject
         [ {| field := "status"; operator := "eq"; value := JStr "active" |} ])
  = [("status", JStr "active")].
Proof. reflexivity. Qed.

Example test_maps_gt_operator :
  own (buildFilterObject [ {| field := "age"; operator := "gt"; value := JNum 18 |} ])
  = [("age", JObj [("$gt", JNum 18)])].
Proof. reflexivity. Qed.

Example test_maps_all_comparison_operators :
  Forall (fun op =>
            obj_lookup "f"
              (own (buildFilterObject
                      [ {| field := "f"; operator := op; value := JStr "v" |} ]))
            = JObj [("$" +:+ op, JStr "v")])
    ["neq"; "gte"; "lt"; "lte"; "contains"; "in"; "exists"].
Proof. repeat constructor. Qed.

Example test_handles_multiple_filters :
  own (buildFilterObject
         [ {| field := "status"; operator := "eq"; value := JStr "active" |};
           {| field := "age"; operator := "gte"; value := JNum 21 |} ])
  = [("status", JStr "active"); ("age", JObj [("$gte", JNum 21)])].
Proof. reflexivity. Qed.

Example test_falls_back_for_unknown_operators :
  own (buildFilterObject
         [ {| field := "x"; operator := "unknown_op"; value := JNum 42 |} ])
  = [("x", JNum 42)].
Proof. reflexivity. Qed.

Example test_empty_filters : own (buildFilterObject []) = [].
Proof. reflexivity. Qed.

(** [__tests__/tools/documents.test.ts]. *)

Example test_create_document_happy_path :
  exists r,
    outcome (handle no_fetch (fun _ _ => Return mock_doc) test_db test_env
               (create_document "users" [("name", JStr "test")] None))
    = Return r
    /\ isError r = None /\ decoded r = Some mock_doc.
Proof. eexists. repeat split. Qed.

Example test_get_document_not_found :
  exists r payload,
    outcome (handle no_fetch
               (rejecting_sdk {| e_status := JNum 404; e_message := JStr "not found" |})
               test_db test_env (get_document "users" "missing"))
    = Return r
    /\ isError r = Some true /\ decoded r = Some payload
    /\ error_code payload = JStr "DOCUMENT_NOT_FOUND".
Proof. do 2 eexists. repeat split. Qed.

Example test_create_document_validation_error :
  exists r payload,
    outcome (handle no_fetch
               (rejecting_sdk {| e_status := JNum 400; e_message := JStr "invalid field" |})
               test_db test_env (create_document "users" [("bad", JBool true)] None))
    = Return r
    /\ isError r = Some true /\ decoded r = Some payload
    /\ error_code payload = JStr "VALIDATION_ERROR".
Proof. do 2 eexists. repeat split. Qed.

(** [__tests__/tools/vectors.test.ts]: [fetch] is mocked. *)

Example test_semantic_search_happy_path :
  exists rq r,
    handle (respond (ok_response (JObj [("data", JArr [])]))) no_sdk test_db test_env
      (semantic_search "articles" "hello" None None None)
    = ([Fetched rq], Return r)
    /\ url rq = "https://api.jsondb.cloud/test-project/articles/_search"
    /\ method rq = "POST"
    /\ (body rq ≫= JSON_parse) = Some (JObj [("query", JStr "hello")])
    /\ isError r = None
    /\ decoded r = Some (JObj [("data", JArr [])]).
Proof. do 2 eexists. repeat split. Qed.

Example test_semantic_search_passes_options :
  exists rq r,
    handle (respond (ok_response (JObj [("data", JArr [])]))) no_sdk test_db test_env
      (semantic_search "articles" "test" (Some (of_Z 5)) (Some (Finite false 8 (-1)))
         (Some [("status", JStr "published")]))
    = ([Fetched rq], Return r)
    /\ (body rq ≫= JSON_parse)
       = Some (JObj [("query", JStr "test"); ("limit", JNum 5);
                     ("threshold", JNum (Finite false 8 (-1)));
                     ("filter", JObj [("status", JStr "published")])]).
Proof. do 2 eexists. repeat split. Qed.

Example test_semantic_search_statuses :
  Forall (fun sc =>
            exists r payload,
              outcome (handle (respond (failing_response sc.1 "Error" "upstream"))
                         no_sdk test_db test_env
                         (semantic_search "articles" "test" None None None))
              = Return r
              /\ isError r = Some true /\ decoded r = Some payload
              /\ error_code payload = JStr sc.2)
    [(404, "COLLECTION_NOT_FOUND"); (400, "INVALID_SEARCH");
     (403, "SEARCH_NOT_AVAILABLE"); (500, "SEARCH_FAILED")].
Proof.
  repeat constructor; do 2 eexists; repeat split.
Qed.

Example test_store_with_embedding_post :
  exists rq r,
    handle (respond (ok_response (JObj [("_id", JStr "new1")]))) no_sdk test_db test_env
      (store_with_embedding "articles"
         [("title", JStr "Test"); ("body", JStr "Hello world")] "body" None)
    = ([Fetched rq], Return r)
    /\ url rq = "https://api.jsondb.cloud/test-project/articles"
    /\ method rq = "POST"
    /\ (body rq ≫= JSON_parse)
       = Some (JObj [("title", JStr "Test"); ("body", JStr "Hello world");
                     ("$embed", JStr "body")])
    /\ isError r = None.
Proof. do 2 eexists. repeat split. Qed.

Example test_store_with_embedding_put :
  exists rq r,
    handle (respond (ok_response (JObj [("_id", JStr "custom-id")]))) no_sdk test_db
      test_env
      (store_with_embedding "articles" [("title", JStr "Test")] "title"
         (Some "custom-id"))
    = ([Fetched rq], Return r)
    /\ url rq = "https://api.jsondb.cloud/test-project/articles/custom-id"
    /\ method rq = "PUT".
Proof. do 2 eexists. repeat split. Qed.

Example test_store_with_embedding_statuses :
  Forall (fun sc =>
            exists r payload,
              outcome (handle (respond (failing_response sc.1 "Error" "upstream"))
                         no_sdk test_db test_env
                         (store_with_embedding "articles" [("title", JStr "Test")]
                            "title" None))
              = Return r
              /\ isError r = Some true /\ decoded r = Some payload
              /\ error_code payload = JStr sc.2)
    [(400, "VALIDATION_ERROR"); (403, "EMBEDDING_NOT_AVAILABLE")].
Proof.
  repeat constructor; do 2 eexists; repeat split.
Qed.
